(** * Drone / ground-control video link: message queue, codec, login and
      stream-control state machine.

    A shallow embedding of the C sources of the companion computer (drone)
    and of the command-line ground control, and the properties of the
    specification proved (or refuted) on it.

    Conventions of the embedding.
    - [size_t] is a 64-bit unsigned integer, [int] a 32-bit signed one and
      [uint32_t] a 32-bit unsigned one; all are carried by [Z] with the
      wrap-around written out.
    - A pointer to a heap-allocated [ModuleMessage_T] is a [positive]
      address; a nullable pointer is an [option]. The heap is a finite map
      from addresses to messages.
    - The circular buffer of a queue is a list of nullable pointers. A read or
      a write outside the allocated buffer (undefined behaviour in C) is the
      outcome [Fault].
    - A call that sleeps on the mutex or on the condition variable of a queue
      has the outcome [Suspended]: it has not returned, and the queue is as
      it was. A function that calls a blocking queue operation is [Suspended]
      with it.
    - The two programs are multi-threaded; the functions are modelled one call
      at a time, and what another thread may decide for a call (holding the
      mutex of a queue) is an input of that call.
    - Log output ([createLogMessage], [syslog], [perror]) is not modelled. *)

From Stdlib Require Import ZArith Lia List Bool.
From Stdlib Require Import Strings.Byte.
From stdpp Require Import base numbers option list gmap.

Open Scope Z_scope.

(** ** Machine integers *)

Module Machine.

Definition SIZE_BITS : Z := 64.
Definition SIZE_MOD : Z := 2 ^ SIZE_BITS.
Definition SIZE_MAX : Z := SIZE_MOD - 1.

(** Result of an arithmetic operation carried out in [size_t]. *)
Definition size_wrap (x : Z) : Z := x mod SIZE_MOD.

(** Conversion of an [int] operand to [size_t] by the usual arithmetic
    conversions (what happens to [length] in [sizeof(x) > length]). *)
Definition size_of_int (x : Z) : Z := x mod SIZE_MOD.

Definition U32_MOD : Z := 2 ^ 32.
Definition u32 (x : Z) : Z := x mod U32_MOD.

(** Conversion of a [uint32_t] to [gint] (32-bit signed). *)
Definition gint_of_u32 (x : Z) : Z := if x <? 2 ^ 31 then x else x - U32_MOD.

Definition is_size (x : Z) : Prop := 0 ≤ x < SIZE_MOD.
Definition is_u32 (x : Z) : Prop := 0 ≤ x < U32_MOD.

End Machine.

(** ** Outcomes of a call *)

Inductive outcome (A : Type) : Type :=
| Returned (a : A)
| Suspended
| Fault.

Arguments Returned {A} a.
Arguments Suspended {A}.
Arguments Fault {A}.

(** ** Module messages (com_utils.h) *)

Definition ptr : Type := positive.

Definition DRONE_ID : Z := 12.
Definition MOD_MSGQ_NOBLOCK : Z := 1.
Definition MOD_MSGQ_BLOCK : Z := 0.

Definition MOD_NAME_NETWORK : Z := 1.
Definition MOD_NAME_STREAM : Z := 2.
Definition MOD_NAME_GCCOMMON : Z := 3.

Definition MOD_MSG_CODE_LOGIN : Z := 1.
Definition MOD_MSG_CODE_LOGIN_ACK : Z := 2.
Definition MOD_MSG_CODE_STREAM_REQ : Z := 3.
Definition MOD_MSG_CODE_STREAM_ERROR : Z := 4.
Definition MOD_MSG_CODE_STREAM_START : Z := 5.
Definition MOD_MSG_CODE_STREAM_STOP : Z := 6.
Definition MOD_MSG_CODE_STREAM_TYPE : Z := 7.
Definition MOD_MSG_CODE_LOGIN_NACK : Z := 8.

(** [ModuleMessage_T]. The two enum fields hold whatever 32-bit value was
    stored in them (the decoder casts a header field to the enum type). The
    union [ModuleMessageData_T] is one 32-bit word read either as the coding
    format or as the video stream port. *)
Record ModuleMessage_T : Type := mkMessage {
  address : Z;
  code : Z;
  data : Z
}.

Definition codingFormat (m : ModuleMessage_T) : Z := data m.
Definition videoStreamPort (m : ModuleMessage_T) : Z := data m.

(** [calloc(1, sizeof(ModuleMessage_T))]. *)
Definition zero_message : ModuleMessage_T := mkMessage 0 0 0.

(** ** The module message queue (drone, com_utils.c) *)

Module Queue.

Import Machine.

(** [ModuleMessageQueue_T] without its mutex and condition variable: the
    state of the mutex is an input of each call (is it held by another
    thread?). [messages = None] is a NULL buffer pointer. *)
Record ModuleMessageQueue_T : Type := mkQueue {
  size : Z;
  front : Z;
  back : Z;
  messages : option (list (option ptr))
}.

Definition with_messages (q : ModuleMessageQueue_T) (b : option (list (option ptr))) :=
  mkQueue (size q) (front q) (back q) b.
Definition with_front (q : ModuleMessageQueue_T) (f : Z) :=
  mkQueue (size q) f (back q) (messages q).
Definition with_back (q : ModuleMessageQueue_T) (b : Z) :=
  mkQueue (size q) (front q) b (messages q).
Definition with_size (q : ModuleMessageQueue_T) (s : Z) :=
  mkQueue s (front q) (back q) (messages q).

(** [messageQueue->messages[i]] as an rvalue; [None] is an access through a
    NULL buffer or outside the allocated buffer. *)
Definition read_slot (q : ModuleMessageQueue_T) (i : Z) : option (option ptr) :=
  match messages q with
  | Some buf => if decide (0 ≤ i) then buf !! Z.to_nat i else None
  | None => None
  end.

(** [messageQueue->messages[i] = v]. *)
Definition write_slot (q : ModuleMessageQueue_T) (i : Z) (v : option ptr)
  : option ModuleMessageQueue_T :=
  match messages q with
  | Some buf =>
      if decide (0 ≤ i < Z.of_nat (length buf))
      then Some (with_messages q (Some (<[Z.to_nat i := v]> buf)))
      else None
  | None => None
  end.

(** [(i + 1) & (messageQueue->size - 1)], computed in [size_t]. *)
Definition advance (q : ModuleMessageQueue_T) (i : Z) : Z :=
  Z.land (size_wrap (i + 1)) (size_wrap (size q - 1)).

(** The library calls made by [initModuleMessageQueue], in order. *)
Inductive InitCall : Type :=
| Calloc (n : Z)
| MutexattrInit
| MutexattrSettype
| MutexInit
| CondattrInit
| CondInit.

(** What the C library answers: whether [calloc] returns a buffer, and the
    return codes of the five pthread calls (0 is success). *)
Record InitEnv : Type := mkInitEnv {
  calloc_ok : bool;
  mutexattr_init_rc : Z;
  mutexattr_settype_rc : Z;
  mutex_init_rc : Z;
  condattr_init_rc : Z;
  cond_init_rc : Z
}.

Definition env_ok : InitEnv := mkInitEnv true 0 0 0 0 0.

(** The argument test of [initModuleMessageQueue]:
    [(0 != size) && (0 == (size & (size-1)))], where [size - 1] is a
    [size_t] subtraction. *)
Definition size_valid (size : Z) : bool :=
  negb (size =? 0) && (Z.land size (size_wrap (size - 1)) =? 0).

(** [initModuleMessageQueue]. Returns the return value, the queue object
    after the call and the library calls that were made. The queue object
    given is the uninitialised (or deinitialised) one. *)
Definition initModuleMessageQueue (env : InitEnv)
    (messageQueue : ModuleMessageQueue_T) (size : Z)
  : Z * ModuleMessageQueue_T * list InitCall :=
  if size_valid size then
    if calloc_ok env then
      let q := mkQueue size 0 0 (Some (replicate (Z.to_nat size) None)) in
      if negb (mutexattr_init_rc env =? 0) then
        (-1, q, [Calloc size; MutexattrInit])
      else if negb (mutexattr_settype_rc env =? 0) then
        (-1, q, [Calloc size; MutexattrInit; MutexattrSettype])
      else if negb (mutex_init_rc env =? 0) then
        (-1, q, [Calloc size; MutexattrInit; MutexattrSettype; MutexInit])
      else if negb (condattr_init_rc env =? 0) then
        (-1, q, [Calloc size; MutexattrInit; MutexattrSettype; MutexInit;
                 CondattrInit])
      else if negb (cond_init_rc env =? 0) then
        (-1, q, [Calloc size; MutexattrInit; MutexattrSettype; MutexInit;
                 CondattrInit; CondInit])
      else
        (0, q, [Calloc size; MutexattrInit; MutexattrSettype; MutexInit;
                CondattrInit; CondInit])
    else
      (-1, with_messages messageQueue None, [Calloc size])
  else
    (-1, messageQueue, []).

(** [insertModuleMessage]. [lock_busy] tells whether another thread holds
    the mutex of the queue when the call tries to take it. Every caller
    passes the address of one of the two global queues, so [messageQueue] is
    the queue object itself and only [message] is nullable. *)
Definition insertModuleMessage (messageQueue : ModuleMessageQueue_T)
    (message : option ptr) (noblock : Z) (lock_busy : bool)
  : outcome (Z * ModuleMessageQueue_T) :=
  match message with
  | None => Returned (-1, messageQueue)
  | Some m =>
      let store :=
        match write_slot messageQueue (front messageQueue) (Some m) with
        | Some q1 => Returned (0, with_front q1 (advance q1 (front q1)))
        | None => Fault
        end in
      if negb (noblock =? 0) then
        if lock_busy then Returned (-2, messageQueue)
        else
          match read_slot messageQueue (front messageQueue) with
          | None => Fault
          | Some (Some _) => Returned (-3, messageQueue)
          | Some None => store
          end
      else
        if lock_busy then Suspended
        else
          match read_slot messageQueue (front messageQueue) with
          | None => Fault
          | Some (Some _) => Suspended
          | Some None => store
          end
  end.

(** [removeModuleMessage]. Every caller passes the address of a global
    queue and the address of a local pointer variable. The third component
    of the result is the pointer stored into that variable ([None] when the
    variable is not written). *)
Definition removeModuleMessage (messageQueue : ModuleMessageQueue_T)
    (noblock : Z) (lock_busy : bool)
  : outcome (Z * ModuleMessageQueue_T * option ptr) :=
  let take (p : ptr) :=
    match write_slot messageQueue (back messageQueue) None with
    | Some q1 => Returned (0, with_back q1 (advance q1 (back q1)), Some p)
    | None => Fault
    end in
  if negb (noblock =? 0) then
    if lock_busy then Returned (-2, messageQueue, None)
    else
      match read_slot messageQueue (back messageQueue) with
      | None => Fault
      | Some None => Returned (-3, messageQueue, None)
      | Some (Some p) => take p
      end
  else
    if lock_busy then Suspended
    else
      match read_slot messageQueue (back messageQueue) with
      | None => Fault
      | Some None => Suspended
      | Some (Some p) => take p
      end.

(** One test of the loop condition of [deinitModuleMessageQueue] followed,
    when it holds, by one execution of the loop body. [free] removes the
    message from the heap. *)
Inductive drain_step_result : Type :=
| DrainExit
| DrainNext (q : ModuleMessageQueue_T) (heap : gmap ptr ModuleMessage_T)
| DrainFault.

Definition drain_step (q : ModuleMessageQueue_T) (heap : gmap ptr ModuleMessage_T)
  : drain_step_result :=
  match read_slot q (back q) with
  | None => DrainFault
  | Some None => DrainExit
  | Some (Some p) =>
      match write_slot q (back q) None with
      | Some q1 => DrainNext (with_back q1 (advance q1 (back q1))) (delete p heap)
      | None => DrainFault
      end
  end.

(** The drain loop, bounded by [fuel] tests of its condition; [None] when
    the bound is reached. *)
Fixpoint drain (fuel : nat) (q : ModuleMessageQueue_T) (heap : gmap ptr ModuleMessage_T)
  : option (outcome (ModuleMessageQueue_T * gmap ptr ModuleMessage_T)) :=
  match fuel with
  | O => None
  | S fuel' =>
      match drain_step q heap with
      | DrainExit => Some (Returned (q, heap))
      | DrainNext q' heap' => drain fuel' q' heap'
      | DrainFault => Some Fault
      end
  end.

Definition buffer_length (q : ModuleMessageQueue_T) : nat :=
  match messages q with
  | Some buf => length buf
  | None => O
  end.

(** [deinitModuleMessageQueue]; the loop is run with one more test than the
    buffer has slots (see [deinit_total]). *)
Definition deinitModuleMessageQueue (mutex_destroy_rc cond_destroy_rc : Z)
    (messageQueue : ModuleMessageQueue_T) (heap : gmap ptr ModuleMessage_T)
  : option (outcome (Z * ModuleMessageQueue_T * gmap ptr ModuleMessage_T)) :=
  match drain (S (buffer_length messageQueue)) messageQueue heap with
  | None => None
  | Some Fault => Some Fault
  | Some Suspended => Some Suspended
  | Some (Returned (q, heap')) =>
      let q' := with_size (with_messages q None) 0 in
      let retval :=
        if negb (mutex_destroy_rc =? 0) || negb (cond_destroy_rc =? 0)
        then -1 else 0 in
      Some (Returned (retval, q', heap'))
  end.

End Queue.

(** ** Object representation of 32-bit fields and the receive side of a socket *)

Module Wire.

Import Machine.

(** Both programs send and receive the bytes of their [uint32_t] objects as
    they lie in memory; the byte order of the host is a parameter. *)
Inductive endianness : Type := LittleEndian | BigEndian.

(** The byte holding [z mod 256], and the value of a byte. *)
Definition byte_of_Z (z : Z) : byte :=
  match Byte.of_N (Z.to_N (z mod 256)) with
  | Some b => b
  | None => x00
  end.

Definition Z_of_byte (b : byte) : Z := Z.of_N (Byte.to_N b).

Definition u32_le_bytes (x : Z) : list byte :=
  [byte_of_Z x; byte_of_Z (x / 2 ^ 8); byte_of_Z (x / 2 ^ 16);
   byte_of_Z (x / 2 ^ 24)].

Definition le_bytes_u32 (bs : list byte) : Z :=
  match bs with
  | [b0; b1; b2; b3] =>
      Z_of_byte b0 + 2 ^ 8 * Z_of_byte b1 + 2 ^ 16 * Z_of_byte b2
      + 2 ^ 24 * Z_of_byte b3
  | _ => 0
  end.

(** The four bytes of a [uint32_t] object holding [x]. *)
Definition u32_repr (e : endianness) (x : Z) : list byte :=
  match e with
  | LittleEndian => u32_le_bytes (u32 x)
  | BigEndian => rev (u32_le_bytes (u32 x))
  end.

(** The value of a [uint32_t] object made of the four bytes [bs]. *)
Definition u32_value (e : endianness) (bs : list byte) : Z :=
  match e with
  | LittleEndian => le_bytes_u32 bs
  | BigEndian => le_bytes_u32 (rev bs)
  end.

(** An array [uint32_t a[2]] as eight bytes, and its two elements. *)
Definition u32_pair_repr (e : endianness) (x0 x1 : Z) : list byte :=
  u32_repr e x0 ++ u32_repr e x1.
Definition field0 (e : endianness) (obj : list byte) : Z :=
  u32_value e (take 4 obj).
Definition field1 (e : endianness) (obj : list byte) : Z :=
  u32_value e (take 4 (drop 4 obj)).

(** [recv] stores the bytes it received at the start of the object and
    leaves the rest of the object as it was. *)
Definition store_received (obj received : list byte) : list byte :=
  received ++ drop (length received) obj.

(** The receive side of a connected stream socket: the bytes that arrive
    before a receive timeout expires, and whether the peer has shut the
    connection down after them. *)
Record Rx : Type := mkRx {
  pending : list byte;
  eof : bool
}.

(** [recvTimeout(sockfd, buf, len, MSG_WAITALL, sec, usec)]: the [ssize_t]
    returned, the bytes stored into [buf] and the socket afterwards. With
    [MSG_WAITALL] the call returns [len] bytes when they arrive in time;
    fewer (a short count) when only those arrived; 0 at end of stream and
    -1 on a timeout with nothing received. *)
Definition recvTimeout (rx : Rx) (len : Z) : Z * list byte * Rx :=
  let got := take (Z.to_nat len) (pending rx) in
  let rest := mkRx (drop (Z.to_nat len) (pending rx)) (eof rx) in
  match got with
  | [] => if eof rx then (0, [], rest) else (-1, [], rest)
  | _ => (Z.of_nat (length got), got, rest)
  end.

(** [cleanupInputMessages]: non-blocking reads until nothing is left. *)
Definition cleanupInputMessages (rx : Rx) : Rx := mkRx [] (eof rx).

(** System calls recorded in the traces of the functions below. *)
Inductive SysCall : Type :=
| Getaddrinfo
| Freeaddrinfo
| Socket
| Connect (fd : Z)
| Accept
| Send (fd : Z) (bytes : list byte)
| Recv (fd : Z) (len : Z)
| SetKeepalive (fd : Z)
| Close (fd : Z)
| CommunicationLoop (fd : Z).

Definition SOCK_FD_INVAL : Z := -1.

End Wire.

(** ** The drone's connect-and-login attempt (drone, com_utils.c) *)

Module DroneLogin.

Import Machine Wire.

(** What the operating system and the peer answer during one attempt. *)
Record ConnectEnv : Type := mkConnectEnv {
  getaddrinfo_rc : Z;
  getaddrinfo_result : bool;      (* is the result list non-NULL *)
  socket_rc : Z;
  connect_rc : Z;
  send_rc : Z;
  reply : Rx;
  keepalive_rc : Z
}.

Definition sizeof_loginMessage : Z := 8.

(** [connectToGroundControl(node, service, fd)]. [node] and [service] are
    nullable strings; [fd] is the value of [*fd] before the call. The result
    is the return value, the value of [*fd] after the call and the system
    calls made. *)
Definition connectToGroundControl (e : endianness) (env : ConnectEnv)
    (node service : option (list byte)) (fd : Z) : Z * Z * list SysCall :=
  match node, service with
  | Some _, Some _ =>
      if negb (getaddrinfo_rc env =? 0) then
        (-1, SOCK_FD_INVAL, [Getaddrinfo])
      else if negb (getaddrinfo_result env) then
        (-1, SOCK_FD_INVAL, [Getaddrinfo])
      else
        let fd1 := socket_rc env in
        if fd1 <? 0 then
          (-1, SOCK_FD_INVAL, [Getaddrinfo; Socket; Freeaddrinfo])
        else if connect_rc env <? 0 then
          (-1, SOCK_FD_INVAL, [Getaddrinfo; Socket; Connect fd1; Freeaddrinfo])
        else
          let login := u32_pair_repr e MOD_MSG_CODE_LOGIN DRONE_ID in
          let tr_send := [Getaddrinfo; Socket; Connect fd1; Send fd1 login] in
          let length := send_rc env in
          if (length <? 0) || (size_of_int length <? sizeof_loginMessage) then
            (-1, SOCK_FD_INVAL, tr_send ++ [Freeaddrinfo; Close fd1])
          else
            let '(length, received, _) := recvTimeout (reply env) sizeof_loginMessage in
            let loginMessage := store_received (u32_pair_repr e 0 0) received in
            let tr_recv := tr_send ++ [Recv fd1 sizeof_loginMessage] in
            if size_of_int length <? sizeof_loginMessage then
              (-1, SOCK_FD_INVAL, tr_recv ++ [Freeaddrinfo; Close fd1])
            else if negb (field0 e loginMessage =? u32 MOD_MSG_CODE_LOGIN_ACK)
                    || negb (field1 e loginMessage =? DRONE_ID) then
              (-1, SOCK_FD_INVAL, tr_recv ++ [Freeaddrinfo; Close fd1])
            else
              (0, fd1, tr_recv ++ [SetKeepalive fd1; Freeaddrinfo])
  | _, _ => (-1, fd, [])
  end.

End DroneLogin.

(** ** Authentication of a drone by the ground control (ground control, com_utils.c) *)

Module GroundControl.

Import Machine Wire.

Record AuthEnv : Type := mkAuthEnv {
  login_rx : Rx;        (* what arrives from the drone *)
  auth_send_rc : Z      (* what [send] returns for the answer *)
}.

Definition sizeof_loginMessage : Z := 8.

(** [authDrone(serviceSocket, droneID)]. [droneID] is the value of
    [*droneID] before the call. The result is the return value, the value of
    [*droneID] after the call and the system calls made. *)
Definition authDrone (e : endianness) (env : AuthEnv)
    (serviceSocket : Z) (droneID : Z) : Z * Z * list SysCall :=
  if serviceSocket <? 0 then (-1, droneID, [])
  else
    let '(length, received, _) := recvTimeout (login_rx env) sizeof_loginMessage in
    let loginMessage := store_received (u32_pair_repr e 0 0) received in
    let tr := [Recv serviceSocket sizeof_loginMessage] in
    if size_of_int length <? sizeof_loginMessage then (-1, droneID, tr)
    else if u32 MOD_MSG_CODE_LOGIN =? field0 e loginMessage then
      let droneID' := field1 e loginMessage in
      let answer := u32_pair_repr e MOD_MSG_CODE_LOGIN_ACK (field1 e loginMessage) in
      let length := auth_send_rc env in
      (if length <? 0 then -1 else 0, droneID', tr ++ [Send serviceSocket answer])
    else
      let answer := u32_pair_repr e MOD_MSG_CODE_LOGIN_NACK 0 in
      let length := auth_send_rc env in
      (if length <? 0 then -1 else 0, droneID, tr ++ [Send serviceSocket answer]).

Record ServiceEnv : Type := mkServiceEnv {
  accept_rc : Z;
  auth_env : AuthEnv
}.

(** One turn of the outer loop of [threadFuncDroneService], from [accept]
    to the decision taken on the result of [authDrone]. Entering the
    communication loop is the event [CommunicationLoop]; what happens inside
    that loop and after it is not part of this function. The result is the
    value of [droneID] and the system calls made. *)
Definition threadFuncDroneService_turn (e : endianness) (env : ServiceEnv)
    (droneID : Z) : Z * list SysCall :=
  let serviceSocket := accept_rc env in
  if serviceSocket <? 0 then (droneID, [Accept])
  else
    let '(rc, droneID', tr) := authDrone e (auth_env env) serviceSocket droneID in
    if rc <? 0 then
      (droneID', [Accept; SetKeepalive serviceSocket] ++ tr ++ [Close serviceSocket])
    else
      (droneID', [Accept; SetKeepalive serviceSocket] ++ tr
                 ++ [CommunicationLoop serviceSocket]).

Definition NUM_STREAM_PORT_DRONE : Z := 17000.

(** The bytes [requestStream] hands to its first two [send] calls when its
    local variable [streamPort] holds [streamPort]: the message header
    [{MOD_NAME_STREAM, MOD_MSG_CODE_STREAM_REQ}] and then the port. *)
Definition requestStream_header (e : endianness) : list byte :=
  u32_pair_repr e MOD_NAME_STREAM MOD_MSG_CODE_STREAM_REQ.
Definition requestStream_port (e : endianness) (streamPort : Z) : list byte :=
  u32_repr e streamPort.
Definition requestStream_wire (e : endianness) (streamPort : Z) : list byte :=
  requestStream_header e ++ requestStream_port e streamPort.

Inductive GstStateChangeReturn : Type :=
| GST_STATE_CHANGE_FAILURE
| GST_STATE_CHANGE_SUCCESS
| GST_STATE_CHANGE_ASYNC
| GST_STATE_CHANGE_NO_PREROLL.

(** Calls made by [requestStream], in order. *)
Inductive GcCall : Type :=
| GcSend (bytes : list byte)
| GcRecv (len : Z)
| PipeBuilder (codingFormat : Z)
| SetStatePlaying
| GetState.

Record RequestEnv : Type := mkRequestEnv {
  send_header_rc : Z;
  send_port_rc : Z;
  request_rx : Rx;
  pipeBuilder_rc : Z;
  set_state_ret : GstStateChangeReturn;
  send_start_rc : Z
}.

(** [requestStream(socketFd, pipeline)]; [pipeline] tells whether the
    pipeline pointed to is non-NULL. The result is the return value, whether
    the pipeline is non-NULL afterwards and the calls made. *)
Definition requestStream (e : endianness) (env : RequestEnv)
    (socketFd : Z) (pipeline : bool) : Z * bool * list GcCall :=
  if socketFd <? 0 then (-1, pipeline, [])
  else
    let streamPort := NUM_STREAM_PORT_DRONE in
    let tr1 := [GcSend (requestStream_header e)] in
    if size_of_int (send_header_rc env) <? 8 then (-1, pipeline, tr1)
    else
      let tr2 := tr1 ++ [GcSend (requestStream_port e streamPort)] in
      if size_of_int (send_port_rc env) <? 4 then (-1, pipeline, tr2)
      else
        let '(length, received, rx) := recvTimeout (request_rx env) 8 in
        let messageHeader := store_received (requestStream_header e) received in
        let tr3 := tr2 ++ [GcRecv 8] in
        if size_of_int length <? 8 then (-1, pipeline, tr3)
        else if negb (MOD_MSG_CODE_STREAM_TYPE =? field1 e messageHeader) then
          (-1, pipeline, tr3)
        else
          let '(length, received, _) := recvTimeout rx 4 in
          let codingFormat := u32_value e (store_received (u32_repr e 0) received) in
          let tr4 := tr3 ++ [GcRecv 4] in
          if size_of_int length <? 4 then (-1, pipeline, tr4)
          else
            let build := if pipeline then [] else [PipeBuilder codingFormat] in
            if negb pipeline && negb (pipeBuilder_rc env =? 0) then
              (-1, false, tr4 ++ build)
            else
              let tr5 := tr4 ++ build ++ [SetStatePlaying] in
              match set_state_ret env with
              | GST_STATE_CHANGE_FAILURE => (-1, true, tr5)
              | ret =>
                  let tr6 :=
                    match ret with
                    | GST_STATE_CHANGE_ASYNC => tr5 ++ [GetState]
                    | _ => tr5
                    end in
                  let start := u32_pair_repr e MOD_NAME_STREAM MOD_MSG_CODE_STREAM_START in
                  let tr7 := tr6 ++ [GcSend start] in
                  if size_of_int (send_start_rc env) <? 8 then (-1, true, tr7)
                  else (0, true, tr7)
              end.

End GroundControl.

(** ** The drone process: network input and stream control *)

Module Drone.

Import Machine Wire.
Export Queue.

(** GStreamer states requested from the media engine. *)
Inductive GstState : Type :=
| GST_STATE_NULL
| GST_STATE_READY
| GST_STATE_PAUSED
| GST_STATE_PLAYING.

Definition PIPE_INITIAL_STATE : GstState := GST_STATE_READY.

(** Calls made on the media engine. What [gst_element_set_state] returns only
    selects a log message in the handlers, so it is not an input of them. *)
Inductive EngineCall : Type :=
| SetState (s : GstState)        (* gst_element_set_state on the pipeline *)
| SetSinkPort (port : Z).        (* g_object_set of the port property of the network sink *)

Definition CAM_FMT_UNK : Z := 16.
Definition NUM_STREAM_MSGQ_SIZE : Z := 8.
Definition NUM_NETWORK_MSGQ_SIZE : Z := 16.

(** The globals of the drone process that the modelled functions touch,
    together with the heap, the receive side of the socket to the ground
    control and the calls made so far on the media engine (oldest first). *)
Record DroneState : Type := mkDrone {
  heap : gmap ptr ModuleMessage_T;
  streamMsgq : ModuleMessageQueue_T;
  networkMsgq : ModuleMessageQueue_T;
  sock_rx : Rx;
  engine : list EngineCall;
  currentCodingFormat : Z
}.

Definition with_heap (d : DroneState) (h : gmap ptr ModuleMessage_T) :=
  mkDrone h (streamMsgq d) (networkMsgq d) (sock_rx d) (engine d)
    (currentCodingFormat d).
Definition with_streamMsgq (d : DroneState) (q : ModuleMessageQueue_T) :=
  mkDrone (heap d) q (networkMsgq d) (sock_rx d) (engine d)
    (currentCodingFormat d).
Definition with_networkMsgq (d : DroneState) (q : ModuleMessageQueue_T) :=
  mkDrone (heap d) (streamMsgq d) q (sock_rx d) (engine d)
    (currentCodingFormat d).
Definition with_sock_rx (d : DroneState) (rx : Rx) :=
  mkDrone (heap d) (streamMsgq d) (networkMsgq d) rx (engine d)
    (currentCodingFormat d).
Definition with_engine (d : DroneState) (c : list EngineCall) :=
  mkDrone (heap d) (streamMsgq d) (networkMsgq d) (sock_rx d) c
    (currentCodingFormat d).

(** What the environment decides during one step of a drone thread. *)
Record StepEnv : Type := mkStepEnv {
  calloc_succeeds : bool;       (* does [calloc] return a message object *)
  netsink_found : bool;         (* does [gst_bin_get_by_name] find the sink *)
  stream_lock_busy : bool;      (* is the mutex of [streamMsgq] held elsewhere *)
  network_lock_busy : bool      (* is the mutex of [networkMsgq] held elsewhere *)
}.

(** [(ModuleMessage_T* )calloc(1, sizeof(ModuleMessage_T))]. *)
Definition calloc_message (ok : bool) (h : gmap ptr ModuleMessage_T)
  : option ptr * gmap ptr ModuleMessage_T :=
  if ok then
    let p : ptr := fresh (dom h) in (Some p, <[p := zero_message]> h)
  else (None, h).

(** [free(p)]: the message leaves the heap; [free(NULL)] does nothing.
    Freeing an address twice is not tracked. *)
Definition free (p : option ptr) (h : gmap ptr ModuleMessage_T)
  : gmap ptr ModuleMessage_T :=
  match p with
  | Some a => delete a h
  | None => h
  end.

Definition sizeof_videoStreamPort : Z := 4.
Definition sizeof_messageHeader : Z := 8.

(** [networkToStreamMessage(sockFd, code)]. *)
Definition networkToStreamMessage (e : endianness) (env : StepEnv)
    (sockFd : Z) (code : Z) (d : DroneState) : outcome (Z * DroneState) :=
  if sockFd <? 0 then Returned (-1, d)
  else
    match calloc_message (calloc_succeeds env) (heap d) with
    | (None, _) => Returned (-1, d)
    | (Some message, h0) =>
        let h1 := <[message := mkMessage MOD_NAME_STREAM code 0]> h0 in
        let insert (d1 : DroneState) :=
          match insertModuleMessage (streamMsgq d1) (Some message)
                  MOD_MSGQ_BLOCK (stream_lock_busy env) with
          | Returned (_, q) => Returned (0, with_streamMsgq d1 q)
          | Suspended => Suspended
          | Fault => Fault
          end in
        if code =? MOD_MSG_CODE_STREAM_REQ then
          let '(length, received, rx) := recvTimeout (sock_rx d) sizeof_videoStreamPort in
          let port := u32_value e (store_received (u32_repr e 0) received) in
          let h2 := <[message := mkMessage MOD_NAME_STREAM code port]> h1 in
          if size_of_int length <? sizeof_videoStreamPort then
            Returned (-1, with_sock_rx (with_heap d (free (Some message) h2)) rx)
          else insert (with_sock_rx (with_heap d h2) rx)
        else if (code =? MOD_MSG_CODE_STREAM_START)
                || (code =? MOD_MSG_CODE_STREAM_STOP) then
          insert (with_heap d h1)
        else
          Returned (-1, with_heap d (free (Some message) h1))
    end.

(** [inputMessageHandler(sockFd)] of the drone. *)
Definition inputMessageHandler (e : endianness) (env : StepEnv)
    (sockFd : Z) (d : DroneState) : outcome (Z * DroneState) :=
  if sockFd <? 0 then Returned (-1, d)
  else
    let '(length, received, rx) := recvTimeout (sock_rx d) sizeof_messageHeader in
    let messageHeader := store_received (u32_pair_repr e 0 0) received in
    let d1 := with_sock_rx d rx in
    if length <? 0 then
      Returned (-1, with_sock_rx d1 (cleanupInputMessages (sock_rx d1)))
    else if field0 e messageHeader =? MOD_NAME_STREAM then
      match networkToStreamMessage e env sockFd (field1 e messageHeader) d1 with
      | Returned (rc, d2) =>
          if negb (rc =? 0) then
            Returned (-1, with_sock_rx d2 (cleanupInputMessages (sock_rx d2)))
          else Returned (0, d2)
      | Suspended => Suspended
      | Fault => Fault
      end
    else
      Returned (-1, with_sock_rx d1 (cleanupInputMessages (sock_rx d1))).

(** *** Stream control (drone, stream_utils.c) *)

Inductive StreamEvent_T : Type :=
| STREAM_EVENT_STREAM_REQ
| STREAM_EVENT_STREAM_START
| STREAM_EVENT_STREAM_STOP
| STREAM_EVENT_PIPE_ERROR.

Inductive StreamState_T : Type :=
| STREAM_STATE_STANDBY
| STREAM_STATE_PLAYING.

(** The enumerators as array indices. *)
Definition event_index (ev : StreamEvent_T) : nat :=
  match ev with
  | STREAM_EVENT_STREAM_REQ => 0
  | STREAM_EVENT_STREAM_START => 1
  | STREAM_EVENT_STREAM_STOP => 2
  | STREAM_EVENT_PIPE_ERROR => 3
  end%nat.

Definition state_index (s : StreamState_T) : nat :=
  match s with
  | STREAM_STATE_STANDBY => 0
  | STREAM_STATE_PLAYING => 1
  end%nat.

Definition NUM_STREAM_STATE_NUM : nat := 2.
Definition NUM_STREAM_EVENT_NUM : nat := 4.

(** [EventHandler_T]: a handler receives [&message] and [&pipeline]; here it
    receives the value of [message] and the process state, and returns the
    new value of [message] and the new state. *)
Definition EventHandler_T : Type :=
  StepEnv → option ptr → DroneState → outcome (option ptr * DroneState).

(** [StateContext_T]; a NULL function pointer is [None]. *)
Record StateContext_T : Type := mkContext {
  nextState : StreamState_T;
  eventHandler : option EventHandler_T
}.

Definition emptyHandler : EventHandler_T := λ env message d,
  Returned (None, with_heap d (free message (heap d))).

Definition streamRequestHandler : EventHandler_T := λ env message d,
  let port_set : option (list EngineCall) :=
    if netsink_found env then
      match message with
      | Some m =>
          match heap d !! m with
          | Some msg =>
              Some (engine d ++ [SetSinkPort (gint_of_u32 (videoStreamPort msg))])
          | None => None
          end
      | None => None
      end
    else Some (engine d) in
  match port_set with
  | None => Fault                (* the port is read through a NULL or freed message *)
  | Some eng =>
      let h1 := free message (heap d) in
      match calloc_message (calloc_succeeds env) h1 with
      | (None, _) => Returned (None, with_engine (with_heap d h1) eng)
      | (Some formatMessage, h2) =>
          let h3 :=
            <[formatMessage :=
                mkMessage MOD_NAME_GCCOMMON MOD_MSG_CODE_STREAM_TYPE
                  (currentCodingFormat d)]> h2 in
          match insertModuleMessage (networkMsgq d) (Some formatMessage)
                  MOD_MSGQ_BLOCK (network_lock_busy env) with
          | Returned (_, q) =>
              Returned (None,
                with_networkMsgq (with_engine (with_heap d h3) eng) q)
          | Suspended => Suspended
          | Fault => Fault
          end
      end
  end.

Definition streamStopHandler : EventHandler_T := λ env message d,
  Returned (None,
    with_engine (with_heap d (free message (heap d)))
      (engine d ++ [SetState PIPE_INITIAL_STATE])).

Definition streamStartHandler : EventHandler_T := λ env message d,
  Returned (None,
    with_engine (with_heap d (free message (heap d)))
      (engine d ++ [SetState GST_STATE_PLAYING])).

Definition streamErrorHandler : EventHandler_T := λ env message d,
  match message with
  | None => Fault                      (* the handler writes through a NULL message *)
  | Some m =>
      match heap d !! m with
      | None => Fault
      | Some msg =>
          let h1 := <[m := mkMessage MOD_NAME_GCCOMMON (code msg) (data msg)]> (heap d) in
          match insertModuleMessage (networkMsgq d) (Some m)
                  MOD_MSGQ_BLOCK (network_lock_busy env) with
          | Returned (_, q) =>
              Returned (None,
                with_engine (with_networkMsgq (with_heap d h1) q)
                  (engine d ++ [SetState GST_STATE_NULL]))
          | Suspended => Suspended
          | Fault => Fault
          end
      end
  end.

Definition Controller : Type := list (list StateContext_T).

(** [StateContext_T streamController[2][4] = {0}]. *)
Definition zero_controller : Controller :=
  replicate NUM_STREAM_STATE_NUM
    (replicate NUM_STREAM_EVENT_NUM (mkContext STREAM_STATE_STANDBY None)).

(** [controller[s][ev] = ctx]. *)
Definition set_context (s : StreamState_T) (ev : StreamEvent_T)
    (ctx : StateContext_T) (controller : Controller) : Controller :=
  alter (λ row, <[event_index ev := ctx]> row) (state_index s) controller.

(** [controller[s][ev]]. *)
Definition get_context (controller : Controller) (s : StreamState_T)
    (ev : StreamEvent_T) : option StateContext_T :=
  match controller !! state_index s with
  | Some row => row !! event_index ev
  | None => None
  end.

Definition initStreamController (controller : Controller) : Controller :=
  let c1 := set_context STREAM_STATE_STANDBY STREAM_EVENT_STREAM_REQ
              (mkContext STREAM_STATE_STANDBY (Some streamRequestHandler)) controller in
  let c2 := set_context STREAM_STATE_STANDBY STREAM_EVENT_STREAM_START
              (mkContext STREAM_STATE_PLAYING (Some streamStartHandler)) c1 in
  let c3 := set_context STREAM_STATE_STANDBY STREAM_EVENT_STREAM_STOP
              (mkContext STREAM_STATE_STANDBY (Some emptyHandler)) c2 in
  let c4 := set_context STREAM_STATE_STANDBY STREAM_EVENT_PIPE_ERROR
              (mkContext STREAM_STATE_STANDBY (Some streamErrorHandler)) c3 in
  let c5 := set_context STREAM_STATE_PLAYING STREAM_EVENT_STREAM_REQ
              (mkContext STREAM_STATE_PLAYING (Some emptyHandler)) c4 in
  let c6 := set_context STREAM_STATE_PLAYING STREAM_EVENT_STREAM_START
              (mkContext STREAM_STATE_PLAYING (Some emptyHandler)) c5 in
  let c7 := set_context STREAM_STATE_PLAYING STREAM_EVENT_STREAM_STOP
              (mkContext STREAM_STATE_STANDBY (Some streamStopHandler)) c6 in
  set_context STREAM_STATE_PLAYING STREAM_EVENT_PIPE_ERROR
    (mkContext STREAM_STATE_STANDBY (Some streamErrorHandler)) c7.

(** The [switch(message->code)] of [threadFuncStreamControl]: the event, or
    [None] when no update of the state machine is required. *)
Definition event_of_code (c : Z) : option StreamEvent_T :=
  if c =? MOD_MSG_CODE_STREAM_START then Some STREAM_EVENT_STREAM_START
  else if c =? MOD_MSG_CODE_STREAM_STOP then Some STREAM_EVENT_STREAM_STOP
  else if c =? MOD_MSG_CODE_STREAM_REQ then Some STREAM_EVENT_STREAM_REQ
  else if c =? MOD_MSG_CODE_STREAM_ERROR then Some STREAM_EVENT_PIPE_ERROR
  else None.

(** The update of the state machine on an event:
    [streamController[state][event].eventHandler(&message, &pipeline);
     state = streamController[state][event].nextState;]. *)
Definition update (controller : Controller) (env : StepEnv)
    (state : StreamState_T) (event : StreamEvent_T) (message : option ptr)
    (d : DroneState) : outcome (StreamState_T * option ptr * DroneState) :=
  match get_context controller state event with
  | None => Fault
  | Some ctx =>
      match eventHandler ctx with
      | None => Fault
      | Some handler =>
          match handler env message d with
          | Returned (message', d') => Returned (nextState ctx, message', d')
          | Suspended => Suspended
          | Fault => Fault
          end
      end
  end.

(** One turn of the [while(1)] loop of [threadFuncStreamControl]. The
    local variables [state] and [message] are threaded through. *)
Definition threadFuncStreamControl_turn (controller : Controller) (env : StepEnv)
    (state : StreamState_T) (message : option ptr) (d : DroneState)
  : outcome (StreamState_T * option ptr * DroneState) :=
  match removeModuleMessage (streamMsgq d) MOD_MSGQ_BLOCK (stream_lock_busy env) with
  | Suspended => Suspended
  | Fault => Fault
  | Returned (rc, q, out) =>
      let message1 := match out with Some p => Some p | None => message end in
      let d1 := with_streamMsgq d q in
      if negb (rc =? 0) then Returned (state, message1, d1)
      else
        match message1 with
        | None => Fault
        | Some m =>
            match heap d1 !! m with
            | None => Fault
            | Some msg =>
                match event_of_code (code msg) with
                | Some event => update controller env state event message1 d1
                | None => Returned (state, message1, d1)
                end
            end
        end
  end.

(** [pipelineErrorCallback(bus, message, data)] with a non-NULL [message]:
    the media engine reports an error. *)
Definition pipelineErrorCallback (env : StepEnv) (d : DroneState)
  : outcome DroneState :=
  match calloc_message (calloc_succeeds env) (heap d) with
  | (None, _) => Returned d
  | (Some moduleMessage, h0) =>
      let h1 := <[moduleMessage :=
                    mkMessage MOD_NAME_STREAM MOD_MSG_CODE_STREAM_ERROR 0]> h0 in
      match insertModuleMessage (streamMsgq d) (Some moduleMessage)
              MOD_MSGQ_BLOCK (stream_lock_busy env) with
      | Returned (_, q) => Returned (with_streamMsgq (with_heap d h1) q)
      | Suspended => Suspended
      | Fault => Fault
      end
  end.

End Drone.

(** ** Sequences of queue operations, and the reference definitions of the
       specification *)

Module Spec.

Import Machine.
Export Queue.

(** Return codes of the queue operations under the names of the
    specification. *)
Definition Success : Z := 0.
Definition InvalidArgument : Z := -1.
Definition WouldBlock : Z := -2.
Definition Full : Z := -3.
Definition Empty : Z := -3.

(** A capacity is valid when it is a power of two. *)
Definition is_pow2 (c : Z) : Prop := ∃ n : Z, 0 ≤ n ∧ c = 2 ^ n.

(** Allocation succeeds: [calloc] returns the buffer and the mutex and the
    condition variable are set up. *)
Definition allocation_succeeds (env : InitEnv) : Prop :=
  calloc_ok env = true ∧ mutexattr_init_rc env = 0 ∧
  mutexattr_settype_rc env = 0 ∧ mutex_init_rc env = 0 ∧
  condattr_init_rc env = 0 ∧ cond_init_rc env = 0.

(** The queue object that a successful [initModuleMessageQueue] leaves. *)
Definition fresh_queue (c : Z) : ModuleMessageQueue_T :=
  mkQueue c 0 0 (Some (replicate (Z.to_nat c) None)).

Definition init_calls (c : Z) : list InitCall :=
  [Calloc c; MutexattrInit; MutexattrSettype; MutexInit; CondattrInit; CondInit].

(** The reply to the login is the acknowledgement [{LOGIN_ACK, DRONE_ID}],
    received in full before the timeout. *)
Definition reply_is_ack (e : Wire.endianness) (rx : Wire.Rx) : Prop :=
  take 8 (Wire.pending rx)
  = Wire.u32_pair_repr e MOD_MSG_CODE_LOGIN_ACK DRONE_ID.

(** One operation on a queue, with what the environment decides for it. *)
Inductive Op : Type :=
| Push (message : option ptr) (noblock : Z) (lock_busy : bool)
| Pop (noblock : Z) (lock_busy : bool).

(** What the caller of an operation observes. *)
Inductive Obs : Type :=
| ObsPush (rc : Z)
| ObsPop (rc : Z) (out : option ptr)
| ObsSuspended
| ObsFault.

(** One operation on the queue of the program. A suspended or faulting call
    leaves the queue as it was. *)
Definition queue_step (q : ModuleMessageQueue_T) (op : Op)
  : Obs * ModuleMessageQueue_T :=
  match op with
  | Push message noblock lock_busy =>
      match insertModuleMessage q message noblock lock_busy with
      | Returned (rc, q') => (ObsPush rc, q')
      | Suspended => (ObsSuspended, q)
      | Fault => (ObsFault, q)
      end
  | Pop noblock lock_busy =>
      match removeModuleMessage q noblock lock_busy with
      | Returned (rc, q', out) => (ObsPop rc out, q')
      | Suspended => (ObsSuspended, q)
      | Fault => (ObsFault, q)
      end
  end.

Fixpoint queue_run (q : ModuleMessageQueue_T) (ops : list Op) : list Obs :=
  match ops with
  | [] => []
  | op :: ops' =>
      let '(o, q') := queue_step q op in o :: queue_run q' ops'
  end.

(** Modelled from the specification: the reference FIFO of bounded capacity.
    A push appends at the end when there is room, a pop takes the head. *)
Definition fifo_step (capacity : Z) (l : list ptr) (op : Op) : Obs * list ptr :=
  match op with
  | Push None _ _ => (ObsPush InvalidArgument, l)
  | Push (Some m) noblock lock_busy =>
      if lock_busy then
        (if negb (noblock =? 0) then ObsPush WouldBlock else ObsSuspended, l)
      else if Z.of_nat (length l) <? capacity then (ObsPush Success, l ++ [m])
      else (if negb (noblock =? 0) then ObsPush Full else ObsSuspended, l)
  | Pop noblock lock_busy =>
      if lock_busy then
        (if negb (noblock =? 0) then ObsPop WouldBlock None else ObsSuspended, l)
      else
        match l with
        | m :: l' => (ObsPop Success (Some m), l')
        | [] => (if negb (noblock =? 0) then ObsPop Empty None else ObsSuspended, l)
        end
  end.

Fixpoint fifo_run (capacity : Z) (l : list ptr) (ops : list Op) : list Obs :=
  match ops with
  | [] => []
  | op :: ops' =>
      let '(o, l') := fifo_step capacity l op in o :: fifo_run capacity l' ops'
  end.

(** The messages handed out by the successful pops of a run, and the
    messages taken in by its successful pushes, in order. *)
Fixpoint popped (obs : list Obs) : list ptr :=
  match obs with
  | ObsPop 0 (Some m) :: obs' => m :: popped obs'
  | _ :: obs' => popped obs'
  | [] => []
  end.

Fixpoint pushed (ops : list Op) (obs : list Obs) : list ptr :=
  match ops, obs with
  | Push (Some m) _ _ :: ops', ObsPush 0 :: obs' => m :: pushed ops' obs'
  | _ :: ops', _ :: obs' => pushed ops' obs'
  | _, _ => []
  end.

(** Non-blocking pushes of the messages [ms], one after the other, with the
    mutex free; [None] as soon as one of them does not return 0. *)
Fixpoint push_all (q : ModuleMessageQueue_T) (ms : list ptr)
  : option ModuleMessageQueue_T :=
  match ms with
  | [] => Some q
  | m :: ms' =>
      match insertModuleMessage q (Some m) MOD_MSGQ_NOBLOCK false with
      | Returned (0, q') => push_all q' ms'
      | _ => None
      end
  end.

(** [k] non-blocking pops with the mutex free; the queue afterwards and the
    messages popped, or [None] as soon as one pop does not return 0. *)
Fixpoint pop_n (q : ModuleMessageQueue_T) (k : nat)
  : option (ModuleMessageQueue_T * list ptr) :=
  match k with
  | O => Some (q, [])
  | S k' =>
      match removeModuleMessage q MOD_MSGQ_NOBLOCK false with
      | Returned (0, q', Some m) =>
          match pop_n q' k' with
          | Some (q'', ms) => Some (q'', m :: ms)
          | None => None
          end
      | _ => None
      end
  end.

(** A buffer slot of the queue holds the pointer [p]. *)
Definition holds (q : ModuleMessageQueue_T) (p : ptr) : Prop :=
  ∃ buf i, messages q = Some buf ∧ buf !! i = Some (Some p).

(** The index invariant of a queue of power-of-two size. *)
Record index_inv (q : ModuleMessageQueue_T) : Prop := mkIndexInv {
  inv_pow2 : is_pow2 (size q);
  inv_size : size q < SIZE_MOD;
  inv_buffer : ∃ buf, messages q = Some buf ∧ Z.of_nat (length buf) = size q;
  inv_front : 0 ≤ front q < size q;
  inv_back : 0 ≤ back q < size q
}.

(** The queue [q] holds exactly the messages [l], oldest first: the slots
    from [back] on, in circular order, are the elements of [l] followed by
    NULL pointers, and [front] is [length l] slots after [back]. *)
Record repr (q : ModuleMessageQueue_T) (l : list ptr) : Prop := mkRepr {
  repr_inv : index_inv q;
  repr_len : Z.of_nat (length l) ≤ size q;
  repr_front : front q = (back q + Z.of_nat (length l)) mod size q;
  repr_slots : ∀ i : Z, 0 ≤ i < size q →
    read_slot q ((back q + i) mod size q) = Some (l !! Z.to_nat i)
}.

(** Number of non-NULL slots of a buffer: the measure of the drain loop. *)
Fixpoint occupied (buf : list (option ptr)) : nat :=
  match buf with
  | [] => O
  | Some _ :: buf' => S (occupied buf')
  | None :: buf' => occupied buf'
  end.

Definition occupied_slots (q : ModuleMessageQueue_T) : nat :=
  match messages q with
  | Some buf => occupied buf
  | None => O
  end.

(** Modelled from the specification: the transition table of the stream
    control state machine, as next state and as the action of the handler. *)
Inductive Action : Type :=
| ReportCapability
| StartMediaEngine
| StopMediaEngine
| StopMediaEngineNotifyPeer
| NoOp.

Definition spec_table (s : Drone.StreamState_T) (ev : Drone.StreamEvent_T)
  : Drone.StreamState_T * Action :=
  match s, ev with
  | Drone.STREAM_STATE_STANDBY, Drone.STREAM_EVENT_STREAM_REQ =>
      (Drone.STREAM_STATE_STANDBY, ReportCapability)
  | Drone.STREAM_STATE_STANDBY, Drone.STREAM_EVENT_STREAM_START =>
      (Drone.STREAM_STATE_PLAYING, StartMediaEngine)
  | Drone.STREAM_STATE_STANDBY, Drone.STREAM_EVENT_STREAM_STOP =>
      (Drone.STREAM_STATE_STANDBY, NoOp)
  | Drone.STREAM_STATE_STANDBY, Drone.STREAM_EVENT_PIPE_ERROR =>
      (Drone.STREAM_STATE_STANDBY, StopMediaEngineNotifyPeer)
  | Drone.STREAM_STATE_PLAYING, Drone.STREAM_EVENT_STREAM_REQ =>
      (Drone.STREAM_STATE_PLAYING, NoOp)
  | Drone.STREAM_STATE_PLAYING, Drone.STREAM_EVENT_STREAM_START =>
      (Drone.STREAM_STATE_PLAYING, NoOp)
  | Drone.STREAM_STATE_PLAYING, Drone.STREAM_EVENT_STREAM_STOP =>
      (Drone.STREAM_STATE_STANDBY, StopMediaEngine)
  | Drone.STREAM_STATE_PLAYING, Drone.STREAM_EVENT_PIPE_ERROR =>
      (Drone.STREAM_STATE_STANDBY, StopMediaEngineNotifyPeer)
  end.

(** The handler of the program that carries out an action of the table. *)
Definition handler_of (a : Action) : Drone.EventHandler_T :=
  match a with
  | ReportCapability => Drone.streamRequestHandler
  | StartMediaEngine => Drone.streamStartHandler
  | StopMediaEngine => Drone.streamStopHandler
  | StopMediaEngineNotifyPeer => Drone.streamErrorHandler
  | NoOp => Drone.emptyHandler
  end.

(** The state changes requested from the media engine among its calls. *)
Fixpoint state_changes (calls : list Drone.EngineCall) : list Drone.GstState :=
  match calls with
  | [] => []
  | Drone.SetState st :: calls' => st :: state_changes calls'
  | Drone.SetSinkPort _ :: calls' => state_changes calls'
  end.

(** Modelled from the specification: the state change of the media engine
    that goes with an action of the table (start: playing; stop: back to the
    initial state; stop after an error: the NULL state; otherwise none). *)
Definition action_state_change (a : Action) : list Drone.GstState :=
  match a with
  | StartMediaEngine => [Drone.GST_STATE_PLAYING]
  | StopMediaEngine => [Drone.PIPE_INITIAL_STATE]
  | StopMediaEngineNotifyPeer => [Drone.GST_STATE_NULL]
  | ReportCapability | NoOp => []
  end.


(** The encoder of a stream request is the ground control: what
    [requestStream] sends for the port of the message. *)
Definition encode (e : Wire.endianness) (m : ModuleMessage_T) : list byte :=
  GroundControl.requestStream_wire e (videoStreamPort m).

Definition GcSend_list (l : list (list byte)) : list GroundControl.GcCall :=
  map GroundControl.GcSend l.

(** The decoder is the drone: a drone whose queues were just created, with
    the bytes pending on its socket, runs [inputMessageHandler]; the decoded
    message is the one its stream controller then takes from [streamMsgq]. *)
Definition receiving_drone (bytes : list byte) : Drone.DroneState :=
  Drone.mkDrone ∅ (fresh_queue Drone.NUM_STREAM_MSGQ_SIZE)
    (fresh_queue Drone.NUM_NETWORK_MSGQ_SIZE) (Wire.mkRx bytes false) []
    Drone.CAM_FMT_UNK.

Definition quiet_env : Drone.StepEnv := Drone.mkStepEnv true true false false.


(** A drone in the middle of a stream: one STREAM_ERROR message, at address
    1 of the heap, waits in [streamMsgq]; [networkMsgq] is empty; the media
    engine was set to playing. *)
Definition drone_with_pending_error : Drone.DroneState :=
  Drone.mkDrone
    {[ 1%positive := mkMessage MOD_NAME_STREAM MOD_MSG_CODE_STREAM_ERROR 0 ]}
    (mkQueue 8 1 0
       (Some [Some 1%positive; None; None; None; None; None; None; None]))
    (fresh_queue Drone.NUM_NETWORK_MSGQ_SIZE) (Wire.mkRx [] false)
    [Drone.SetState Drone.GST_STATE_PLAYING] Drone.CAM_FMT_UNK.

End Spec.

(** ** The writer thread of the drone and its reconnection loop
       (drone, com_utils.c) *)

Module NetworkOut.

Import Machine Wire.
Export Drone.

(** What the environment decides for one call of
    [gccommonMessageToNetwork]: whether [socketFdLock] is held by the reader
    thread, and what the two [send] calls return. *)
Record SendEnv : Type := mkSendEnv {
  socket_lock_busy : bool;
  send_header_rc : Z;
  send_data_rc : Z
}.

(** [gccommonMessageToNetwork(sockFd, message)]; [sockFd] is the descriptor
    read through the pointer. The result is the return value and the system
    calls made. *)
Definition gccommonMessageToNetwork (e : endianness) (env : SendEnv)
    (sockFd : Z) (message : option ptr) (h : gmap ptr ModuleMessage_T)
  : outcome (Z * list SysCall) :=
  match message with
  | None => Returned (-1, [])
  | Some m =>
      match h !! m with
      | None => Fault
      | Some msg =>
          let messageHeader := u32_pair_repr e (address msg) (code msg) in
          if socket_lock_busy env then Suspended
          else
            let tr := [Send sockFd messageHeader] in
            if size_of_int (send_header_rc env) <? 8 then Returned (-1, tr)
            else if code msg =? MOD_MSG_CODE_STREAM_TYPE then
              let tr2 := tr ++ [Send sockFd (u32_repr e (codingFormat msg))] in
              if size_of_int (send_data_rc env) <? 4 then Returned (-1, tr2)
              else Returned (0, tr2)
            else if code msg =? MOD_MSG_CODE_STREAM_ERROR then Returned (0, tr)
            else Returned (-1, tr)
      end
  end.

(** One turn of the [while(1)] loop of [threadFuncNetworkOut]; [sockFd] is
    the descriptor shared with the reader thread, [message] the local pointer
    variable. The result is the new value of [message], the process state and
    the system calls made. *)
Definition threadFuncNetworkOut_turn (e : endianness) (env : StepEnv)
    (senv : SendEnv) (sockFd : Z) (message : option ptr) (d : DroneState)
  : outcome (option ptr * DroneState * list SysCall) :=
  match removeModuleMessage (networkMsgq d) MOD_MSGQ_BLOCK (network_lock_busy env) with
  | Suspended => Suspended
  | Fault => Fault
  | Returned (rc, q, out) =>
      let message1 := match out with Some p => Some p | None => message end in
      let d1 := with_networkMsgq d q in
      if negb (rc =? 0) then Returned (message1, d1, [])
      else
        match message1 with
        | None => Fault
        | Some m =>
            match heap d1 !! m with
            | None => Fault
            | Some msg =>
                let d2 := with_heap d1 (free message1 (heap d1)) in
                if address msg =? MOD_NAME_GCCOMMON then
                  match gccommonMessageToNetwork e senv sockFd message1 (heap d1) with
                  | Returned (_, tr) => Returned (None, d2, tr)
                  | Suspended => Suspended
                  | Fault => Fault
                  end
                else Returned (None, d2, [])
            end
        end
  end.

Definition RECONNECT_COOLDOWN_SEC : Z := 10.

(** The loop [while(connectToGroundControl(node, service, &fd)) sleep(10);]
    of [threadFuncNetworkIn]. Each attempt meets the next environment of
    [attempts]; the result is the descriptor stored, the seconds slept and the
    system calls made, or [None] when every attempt of the list has failed
    and the loop is still turning. *)
Fixpoint connect_retry (e : endianness) (attempts : list DroneLogin.ConnectEnv)
    (node service : option (list byte)) (fd : Z) : option (Z * Z * list SysCall) :=
  match attempts with
  | [] => None
  | env :: attempts' =>
      let '(rc, fd1, tr) := DroneLogin.connectToGroundControl e env node service fd in
      if negb (rc =? 0) then
        match connect_retry e attempts' node service fd1 with
        | Some (fd2, slept, tr') =>
            Some (fd2, RECONNECT_COOLDOWN_SEC + slept, tr ++ tr')
        | None => None
        end
      else Some (fd1, 0, tr)
  end.

(** The sockets a trace leaves open: a [socket] call that succeeds is
    followed by [connect] on the new descriptor, and [close] gives one back. *)
Fixpoint sockets_open (tr : list SysCall) : Z :=
  match tr with
  | [] => 0
  | Connect _ :: tr' => 1 + sockets_open tr'
  | Close _ :: tr' => sockets_open tr' - 1
  | _ :: tr' => sockets_open tr'
  end.

(** An attempt in which [connect] itself fails. *)
Definition connect_refused (env : DroneLogin.ConnectEnv) : bool :=
  (DroneLogin.getaddrinfo_rc env =? 0) && DroneLogin.getaddrinfo_result env
  && (0 <=? DroneLogin.socket_rc env) && (DroneLogin.connect_rc env <? 0).

End NetworkOut.

(** ** Message and command handling of the ground control
       (ground control, com_utils.c and stream_utils.c) *)

Module GcSession.

Import Machine Wire.
Export GroundControl.

(** What the handlers of the ground control do, in order. *)
Inductive GcEvent : Type :=
| Request (c : GcCall)                   (* a call made inside requestStream *)
| SetStateInitial                        (* the pipeline is set to PIPE_INITIAL_STATE *)
| SendStop (fd : Z) (bytes : list byte). (* the send of sendStopMessage *)

(** [stopStream(pipeline)] with a non-NULL argument; [pipeline] tells whether
    the pipeline pointed to is non-NULL, [ret] is what
    [gst_element_set_state] returns. *)
Definition stopStream (ret : GstStateChangeReturn) (pipeline : bool)
  : Z * list GcEvent :=
  if pipeline then
    match ret with
    | GST_STATE_CHANGE_FAILURE => (-1, [SetStateInitial])
    | _ => (0, [SetStateInitial])
    end
  else (0, []).

(** [sendStopMessage(serviceSocket)]; [send_rc] is what [send] returns. *)
Definition sendStopMessage (e : endianness) (send_rc : Z) (serviceSocket : Z)
  : Z * list GcEvent :=
  if serviceSocket <? 0 then (-1, [])
  else
    let messageHeader :=
      u32_pair_repr e MOD_NAME_STREAM MOD_MSG_CODE_STREAM_STOP in
    (if send_rc <? 0 then -1 else 0, [SendStop serviceSocket messageHeader]).

(** [inputMessageHandler(serviceSocket, pipeline)] of the ground control.
    The function tests and cleans up the listening socket [serverSocketFd],
    a static variable, and receives from the service socket: both receive
    sides are part of the state. The result is the return value, the two
    receive sides afterwards and what was done. *)
Definition inputMessageHandler (e : endianness) (ret : GstStateChangeReturn)
    (serverSocketFd : Z) (server_rx service_rx : Rx) (pipeline : bool)
  : Z * Rx * Rx * list GcEvent :=
  if serverSocketFd <? 0 then (-1, server_rx, service_rx, [])
  else
    let '(length, received, rx) := recvTimeout service_rx 8 in
    let messageHeader := store_received (u32_pair_repr e 0 0) received in
    if length <? 0 then (-1, server_rx, rx, [])
    else if field1 e messageHeader =? MOD_MSG_CODE_STREAM_ERROR then
      let '(rc, ev) := stopStream ret pipeline in
      (if negb (rc =? 0) then -1 else 0, server_rx, rx, ev)
    else (0, cleanupInputMessages server_rx, rx, []).

(** C strings. *)
Definition NUL : byte := x00.
Definition SPACE : byte := " "%byte.

(** The string held by a [char] array: its bytes up to the first NUL. *)
Fixpoint c_string (buf : list byte) : list byte :=
  match buf with
  | [] => []
  | b :: buf' => if Byte.eqb b NUL then [] else b :: c_string buf'
  end.

(** First call [strtok(s, " ")]: the delimiters at the start are skipped;
    the token, if there is one, runs up to the next delimiter. *)
Fixpoint skip_spaces (s : list byte) : list byte :=
  match s with
  | [] => []
  | b :: s' => if Byte.eqb b SPACE then skip_spaces s' else s
  end.

Fixpoint token (s : list byte) : list byte :=
  match s with
  | [] => []
  | b :: s' => if Byte.eqb b SPACE then [] else b :: token s'
  end.

Definition strtok_first (s : list byte) : option (list byte) :=
  match skip_spaces s with
  | [] => None
  | s' => Some (token s')
  end.

(** [strcmp(a, b) == 0]. *)
Fixpoint bytes_eqb (a b : list byte) : bool :=
  match a, b with
  | [], [] => true
  | x :: a', y :: b' => Byte.eqb x y && bytes_eqb a' b'
  | _, _ => false
  end.

Definition STR_USR_CMD_STRM_PLAY : list byte := ["p"; "l"; "a"; "y"]%byte.
Definition STR_USR_CMD_STRM_STOP : list byte := ["s"; "t"; "o"; "p"]%byte.
Definition STR_USR_CMD_DRN_DCON : list byte := ["d"; "c"; "o"; "n"; "n"]%byte.
Definition NUM_CMD_BUFF_SIZE : Z := 64.

(** What the environment decides for one call of [inputCommandHandler]. *)
Record CommandEnv : Type := mkCommandEnv {
  request_env : RequestEnv;              (* for requestStream *)
  stop_ret : GstStateChangeReturn;       (* for stopStream *)
  stop_send_rc : Z                       (* for sendStopMessage *)
}.

(** The command buffer after [read(STDIN_FILENO, cmdInputBuffer, 63)] stored
    the bytes [line] into the zeroed buffer ([line] is empty when [read]
    stores nothing). *)
Definition command_buffer (line : list byte) : list byte :=
  let stored := take 63 line in
  stored ++ replicate (64 - length stored) NUL.

(** [cmdInputBuffer[strlen(cmdInputBuffer)-1] = 0], the index computed in
    [size_t]; [None] when the index is outside the buffer. *)
Definition strip_last (buf : list byte) : option (list byte) :=
  let i := size_wrap (Z.of_nat (length (c_string buf)) - 1) in
  if i <? Z.of_nat (length buf) then Some (<[Z.to_nat i := NUL]> buf) else None.

(** [inputCommandHandler(serviceSocket, exitCondition, pipeline)]; [line] is
    what [read] stores, [exitCondition] the value pointed to and [pipeline]
    whether the pipeline pointed to is non-NULL. The result is the return
    value, the exit condition and the pipeline afterwards, and what was done. *)
Definition inputCommandHandler (e : endianness) (env : CommandEnv)
    (serviceSocket : Z) (line : list byte) (exitCondition : Z) (pipeline : bool)
  : outcome (Z * Z * bool * list GcEvent) :=
  if serviceSocket <? 0 then Returned (-1, exitCondition, pipeline, [])
  else
    match strip_last (command_buffer line) with
    | None => Fault
    | Some cmdInputBuffer =>
        match strtok_first (c_string cmdInputBuffer) with
        | None => Returned (0, exitCondition, pipeline, [])
        | Some arg0 =>
            if bytes_eqb arg0 STR_USR_CMD_STRM_PLAY then
              let '(rc, pipeline', calls) :=
                requestStream e (request_env env) serviceSocket pipeline in
              Returned (if negb (rc =? 0) then -1 else 0, exitCondition,
                        pipeline', map Request calls)
            else if bytes_eqb arg0 STR_USR_CMD_STRM_STOP then
              let '(rc1, ev1) := stopStream (stop_ret env) pipeline in
              let '(rc2, ev2) := sendStopMessage e (stop_send_rc env) serviceSocket in
              Returned (if negb (rc1 =? 0) || negb (rc2 =? 0) then -1 else 0,
                        exitCondition, pipeline, ev1 ++ ev2)
            else if bytes_eqb arg0 STR_USR_CMD_DRN_DCON then
              Returned (0, 1, pipeline, [])
            else Returned (-1, exitCondition, pipeline, [])
        end
    end.

End GcSession.

(** ** Names of the video coding formats (drone, camera_utils.c) *)

Module Camera.

Import Machine.

Definition CAM_FMT_H265 : Z := 0.
Definition CAM_FMT_H264 : Z := 1.
Definition CAM_FMT_VP8 : Z := 2.
Definition CAM_FMT_VP9 : Z := 3.
Definition CAM_FMT_JPEG : Z := 4.
Definition CAM_FMT_H263 : Z := 5.
Definition CAM_FMT_RAW : Z := 6.
Definition CAM_FMT_UNK : Z := 16.
Definition NUM_SUP_VID_COD_FMT : Z := 7.

Definition STR_CAM_OUT_FMT_H265 : list byte :=
  ["v"; "i"; "d"; "e"; "o"; "/"; "x"; "-"; "h"; "2"; "6"; "5"]%byte.
Definition STR_CAM_OUT_FMT_H264 : list byte :=
  ["v"; "i"; "d"; "e"; "o"; "/"; "x"; "-"; "h"; "2"; "6"; "4"]%byte.
Definition STR_CAM_OUT_FMT_H263 : list byte :=
  ["v"; "i"; "d"; "e"; "o"; "/"; "x"; "-"; "h"; "2"; "6"; "3"]%byte.
Definition STR_CAM_OUT_FMT_JPEG : list byte :=
  ["i"; "m"; "a"; "g"; "e"; "/"; "j"; "p"; "e"; "g"]%byte.
Definition STR_CAM_OUT_FMT_RAW : list byte :=
  ["v"; "i"; "d"; "e"; "o"; "/"; "x"; "-"; "r"; "a"; "w"]%byte.
Definition STR_CAM_OUT_FMT_VP8 : list byte :=
  ["v"; "i"; "d"; "e"; "o"; "/"; "x"; "-"; "v"; "p"; "8"]%byte.
Definition STR_CAM_OUT_FMT_VP9 : list byte :=
  ["v"; "i"; "d"; "e"; "o"; "/"; "x"; "-"; "v"; "p"; "9"]%byte.
Definition STR_CAM_OUT_FMT_UNK : list byte :=
  ["u"; "n"; "k"; "n"; "o"; "w"; "n"]%byte.

(** The string literal selected by the [switch(format)] of
    [videoCodingFormatToString]. *)
Definition format_name (format : Z) : list byte :=
  if format =? CAM_FMT_H265 then STR_CAM_OUT_FMT_H265
  else if format =? CAM_FMT_H264 then STR_CAM_OUT_FMT_H264
  else if format =? CAM_FMT_VP8 then STR_CAM_OUT_FMT_VP8
  else if format =? CAM_FMT_VP9 then STR_CAM_OUT_FMT_VP9
  else if format =? CAM_FMT_JPEG then STR_CAM_OUT_FMT_JPEG
  else if format =? CAM_FMT_H263 then STR_CAM_OUT_FMT_H263
  else if format =? CAM_FMT_RAW then STR_CAM_OUT_FMT_RAW
  else STR_CAM_OUT_FMT_UNK.

(** [memset(string, 0, size); strncpy(string, literal, size - 1)] on an
    array of at least [size] bytes: the first [size] bytes become the literal
    cut to [size - 1] bytes and padded with NUL. *)
Definition fill (string : list byte) (literal : list byte) (size : Z) : list byte :=
  let n := Z.to_nat size in
  let copied := take (n - 1) literal in
  copied ++ replicate (n - length copied) x00 ++ drop n string.

(** [videoCodingFormatToString(format, string, size)] with a non-NULL
    [string], the array given by its content. A [size] larger than the array
    makes [memset] write outside it. *)
Definition videoCodingFormatToString (format : Z) (string : list byte) (size : Z)
  : outcome (Z * list byte) :=
  if negb (size =? 0) then
    if Z.of_nat (length string) <? size then Fault
    else Returned (0, fill string (format_name format) size)
  else Returned (-1, string).

(** [stringToVideoCodingFormat(string, format)] with non-NULL arguments;
    [string] is the C string. The result is the return value and the format
    stored. *)
Definition stringToVideoCodingFormat (string : list byte) : Z * Z :=
  if GcSession.bytes_eqb string STR_CAM_OUT_FMT_RAW then (0, CAM_FMT_RAW)
  else if GcSession.bytes_eqb string STR_CAM_OUT_FMT_JPEG then (0, CAM_FMT_JPEG)
  else if GcSession.bytes_eqb string STR_CAM_OUT_FMT_H264 then (0, CAM_FMT_H264)
  else if GcSession.bytes_eqb string STR_CAM_OUT_FMT_H263 then (0, CAM_FMT_H263)
  else if GcSession.bytes_eqb string STR_CAM_OUT_FMT_H265 then (0, CAM_FMT_H265)
  else if GcSession.bytes_eqb string STR_CAM_OUT_FMT_VP8 then (0, CAM_FMT_VP8)
  else if GcSession.bytes_eqb string STR_CAM_OUT_FMT_VP9 then (0, CAM_FMT_VP9)
  else (-1, CAM_FMT_UNK).

End Camera.

(** ** The threads of the drone, one call at a time *)

Module DroneSystem.

Import Machine Wire Spec.
Export NetworkOut.

(** The drone process between two calls: the local variables [state] and
    [message] of [threadFuncStreamControl], the local variable [message] of
    [threadFuncNetworkOut], the shared state and what the writer thread has
    handed to [send] so far (oldest first). *)
Record System : Type := mkSystem {
  control_state : StreamState_T;
  control_message : option ptr;
  output_message : option ptr;
  drone : DroneState;
  wire : list SysCall
}.

(** What happens next in the process: the receive side of the socket
    changes (bytes arrive, the peer closes, the reader thread reconnects), or
    one of the threads makes one call, with what the environment decides for
    it. The threads meet only in the two queues, which a mutex protects, and
    in the allocator. *)
Inductive Call : Type :=
| CallArrive (rx : Rx)
| CallInput (env : StepEnv) (sockFd : Z)      (* reader thread: inputMessageHandler *)
| CallPipelineError (env : StepEnv)            (* media engine: pipelineErrorCallback, pipelineEosCallback *)
| CallStreamControl (env : StepEnv)            (* one turn of threadFuncStreamControl *)
| CallNetworkOut (env : StepEnv) (senv : SendEnv) (sockFd : Z).
                                               (* one turn of threadFuncNetworkOut *)

Definition with_drone (s : System) (d : DroneState) : System :=
  mkSystem (control_state s) (control_message s) (output_message s) d (wire s).

Definition run_call (e : endianness) (c : Call) (s : System) : outcome System :=
  match c with
  | CallArrive rx => Returned (with_drone s (with_sock_rx (drone s) rx))
  | CallInput env sockFd =>
      match inputMessageHandler e env sockFd (drone s) with
      | Returned (_, d') => Returned (with_drone s d')
      | Suspended => Suspended
      | Fault => Fault
      end
  | CallPipelineError env =>
      match pipelineErrorCallback env (drone s) with
      | Returned d' => Returned (with_drone s d')
      | Suspended => Suspended
      | Fault => Fault
      end
  | CallStreamControl env =>
      match threadFuncStreamControl_turn (initStreamController zero_controller) env
              (control_state s) (control_message s) (drone s) with
      | Returned (state', message', d') =>
          Returned (mkSystem state' message' (output_message s) d' (wire s))
      | Suspended => Suspended
      | Fault => Fault
      end
  | CallNetworkOut env senv sockFd =>
      match threadFuncNetworkOut_turn e env senv sockFd (output_message s) (drone s) with
      | Returned (message', d', tr) =>
          Returned (mkSystem (control_state s) (control_message s) message' d'
                      (wire s ++ tr))
      | Suspended => Suspended
      | Fault => Fault
      end
  end.

(** A sequence of calls. A call that has to wait (for a mutex, for room in a
    queue, for a message) is taken up again later and changes nothing now;
    [None] is a run in which a call goes wrong: it reads through a NULL or
    released pointer, leaves the buffer of a queue or calls a NULL handler. *)
Fixpoint run_calls (e : endianness) (cs : list Call) (s : System) : option System :=
  match cs with
  | [] => Some s
  | c :: cs' =>
      match run_call e c s with
      | Returned s' => run_calls e cs' s'
      | Suspended => run_calls e cs' s
      | Fault => None
      end
  end.

(** The process when its threads start: [initModuleMessageQueue] has made
    the two queues, the stream controller is in standby, nothing is allocated;
    [format] is the coding format chosen when the pipeline was built. *)
Definition initial_system (format : Z) : System :=
  mkSystem STREAM_STATE_STANDBY None None
    (mkDrone ∅ (fresh_queue NUM_STREAM_MSGQ_SIZE) (fresh_queue NUM_NETWORK_MSGQ_SIZE)
       (mkRx [] false) [] format)
    [].

(** The process at rest while a stream is played. *)
Definition playing_system (format : Z) : System :=
  mkSystem STREAM_STATE_PLAYING None None
    (mkDrone ∅ (fresh_queue NUM_STREAM_MSGQ_SIZE) (fresh_queue NUM_NETWORK_MSGQ_SIZE)
       (mkRx [] false) [SetState GST_STATE_PLAYING] format)
    [].

(** The messages the writer thread may put on the wire: the header of a
    pipeline error, the header of a coding format, and the coding format. *)
Definition sent_ok (e : endianness) (format : Z) (c : SysCall) : Prop :=
  ∃ fd bytes, c = Send fd bytes ∧
    (bytes = u32_pair_repr e MOD_NAME_GCCOMMON MOD_MSG_CODE_STREAM_ERROR ∨
     bytes = u32_pair_repr e MOD_NAME_GCCOMMON MOD_MSG_CODE_STREAM_TYPE ∨
     bytes = u32_repr e format).

(** The messages of the heap are those waiting in the two queues, [ls] in
    [streamMsgq] and [ln] in [networkMsgq], each of them once; those in
    [streamMsgq] are for the stream module and carry a code the stream
    controller knows, those in [networkMsgq] are for the ground control and
    are a pipeline error or the coding format [format]. *)
Record messages_inv (h : gmap ptr ModuleMessage_T) (format : Z)
    (ls ln : list ptr) : Prop := mkMessagesInv {
  inv_nodup : NoDup (ls ++ ln);
  inv_heap : ∀ p, is_Some (h !! p) ↔ p ∈ ls ++ ln;
  inv_stream_msgs : ∀ p, p ∈ ls →
    ∃ msg, h !! p = Some msg ∧ address msg = MOD_NAME_STREAM ∧
           is_Some (event_of_code (code msg));
  inv_network_msgs : ∀ p, p ∈ ln →
    ∃ msg, h !! p = Some msg ∧ address msg = MOD_NAME_GCCOMMON ∧
           (code msg = MOD_MSG_CODE_STREAM_ERROR ∨
            code msg = MOD_MSG_CODE_STREAM_TYPE ∧ codingFormat msg = format)
}.

(** The shared state between two calls: the queues hold [ls] and [ln]. *)
Record drone_inv (format : Z) (d : DroneState) (ls ln : list ptr) : Prop := mkDroneInv {
  inv_streamq : repr (streamMsgq d) ls;
  inv_networkq : repr (networkMsgq d) ln;
  inv_messages : messages_inv (heap d) format ls ln;
  inv_format : currentCodingFormat d = format
}.

(** What holds of the process between two calls. *)
Record system_inv (e : endianness) (format : Z) (s : System) : Prop := mkSystemInv {
  inv_drone : ∃ ls ln, drone_inv format (drone s) ls ln;
  inv_control_message : control_message s = None;
  inv_output_message : output_message s = None;
  inv_playing :
    control_state s = STREAM_STATE_PLAYING ↔
    last (state_changes (engine (drone s))) = Some GST_STATE_PLAYING;
  inv_wire : Forall (sent_ok e format) (wire s)
}.

(** The process at rest: nothing is allocated, both queues are empty and
    the threads hold no message. *)
Record idle (format : Z) (s : System) : Prop := mkIdle {
  idle_heap : heap (drone s) = ∅;
  idle_streamq : repr (streamMsgq (drone s)) [];
  idle_networkq : repr (networkMsgq (drone s)) [];
  idle_format : currentCodingFormat (drone s) = format;
  idle_control_message : control_message s = None;
  idle_output_message : output_message s = None
}.

(** A call does not go wrong, and when it returns its result satisfies [P]. *)
Definition safely {A : Type} (P : A → Prop) (o : outcome A) : Prop :=
  match o with
  | Returned a => P a
  | Suspended => True
  | Fault => False
  end.

(** A run: a stream request for port 17000 and a stream start arrive on
    socket 3; the reader thread decodes both, the stream controller handles
    both and the writer thread sends the answer to the request. *)
Definition example_calls : list Call :=
  [ CallArrive
      (mkRx (GroundControl.requestStream_wire LittleEndian 17000
             ++ u32_pair_repr LittleEndian MOD_NAME_STREAM MOD_MSG_CODE_STREAM_START)
         false);
    CallInput quiet_env 3; CallInput quiet_env 3;
    CallStreamControl quiet_env; CallStreamControl quiet_env;
    CallNetworkOut quiet_env (mkSendEnv false 8 4) 3 ].

(** The process after this run, for the coding format H264. *)
Definition example_final : System :=
  mkSystem STREAM_STATE_PLAYING None None
    (mkDrone ∅
       (mkQueue 8 2 2 (Some (replicate 8 None)))
       (mkQueue 16 1 1 (Some (replicate 16 None)))
       (mkRx [] false)
       [SetSinkPort 17000; SetState GST_STATE_PLAYING] 1)
    [ Send 3 (u32_pair_repr LittleEndian MOD_NAME_GCCOMMON MOD_MSG_CODE_STREAM_TYPE);
      Send 3 (u32_repr LittleEndian 1) ].

End DroneSystem.

(** ** Start-up of the two programs
       (drone: com_utils.c and stream_utils.c; ground control: com_utils.c) *)

Module Startup.

Import Machine Wire Spec.
Export Drone.

(** [initNetworkModule(initCtx)]: the queue of the network module is made
    and the reader thread is started; [pthread_create_rc] is what
    [pthread_create] returns, the two other codes are those of the destroy
    calls of [deinitModuleMessageQueue]. The result is the return value, the
    queue object and the heap afterwards, and whether the thread runs. *)
Definition initNetworkModule (env : InitEnv)
    (pthread_create_rc mutex_destroy_rc cond_destroy_rc : Z)
    (networkMsgq : ModuleMessageQueue_T) (heap : gmap ptr ModuleMessage_T)
  : option (outcome (Z * ModuleMessageQueue_T * gmap ptr ModuleMessage_T * bool)) :=
  let '(rc, q, _) := initModuleMessageQueue env networkMsgq NUM_NETWORK_MSGQ_SIZE in
  if negb (rc =? 0) then Some (Returned (-1, q, heap, false))
  else if negb (pthread_create_rc =? 0) then
    match deinitModuleMessageQueue mutex_destroy_rc cond_destroy_rc q heap with
    | Some (Returned (_, q', heap')) => Some (Returned (-1, q', heap', false))
    | Some Suspended => Some Suspended
    | Some Fault => Some Fault
    | None => None
    end
  else Some (Returned (0, q, heap, true)).

(** [initStreamModule()]: [gst_ok] is what [gst_init_check] returns. *)
Definition initStreamModule (gst_ok : bool) (env : InitEnv)
    (pthread_create_rc mutex_destroy_rc cond_destroy_rc : Z)
    (streamMsgq : ModuleMessageQueue_T) (heap : gmap ptr ModuleMessage_T)
  : option (outcome (Z * ModuleMessageQueue_T * gmap ptr ModuleMessage_T * bool)) :=
  if negb gst_ok then Some (Returned (-1, streamMsgq, heap, false))
  else
    let '(rc, q, _) := initModuleMessageQueue env streamMsgq NUM_STREAM_MSGQ_SIZE in
    if negb (rc =? 0) then Some (Returned (-1, q, heap, false))
    else if negb (pthread_create_rc =? 0) then
      match deinitModuleMessageQueue mutex_destroy_rc cond_destroy_rc q heap with
      | Some (Returned (_, q', heap')) => Some (Returned (-1, q', heap', false))
      | Some Suspended => Some Suspended
      | Some Fault => Some Fault
      | None => None
      end
    else Some (Returned (0, q, heap, true)).

(** Calls made by [startServer] of the ground control. *)
Inductive ServerCall : Type :=
| ServerSocket
| ServerReuseAddr (fd : Z)
| ServerBind (fd : Z) (port : Z)
| ServerListen (fd : Z) (backlog : Z)
| ServerClose (fd : Z).

Record ServerEnv : Type := mkServerEnv {
  server_socket_rc : Z;
  server_setsockopt_rc : Z;
  server_bind_rc : Z;
  server_listen_rc : Z
}.

Definition NUM_SERVER_PORT : Z := 5010.
Definition NUM_SERVER_PEND_QUEUE_LIMIT : Z := 16.

(** [startServer()]: the return value, the static variable [serverSocketFd]
    afterwards and the calls made. *)
Definition startServer (env : ServerEnv) : Z * Z * list ServerCall :=
  let serverSocketFd := server_socket_rc env in
  if serverSocketFd <? 0 then (-1, serverSocketFd, [ServerSocket])
  else
    let tr1 := [ServerSocket; ServerReuseAddr serverSocketFd] in
    if server_setsockopt_rc env <? 0 then
      (-1, serverSocketFd, tr1 ++ [ServerClose serverSocketFd])
    else
      let tr2 := tr1 ++ [ServerBind serverSocketFd NUM_SERVER_PORT] in
      if server_bind_rc env <? 0 then
        (-1, serverSocketFd, tr2 ++ [ServerClose serverSocketFd])
      else
        let tr3 := tr2 ++ [ServerListen serverSocketFd NUM_SERVER_PEND_QUEUE_LIMIT] in
        if server_listen_rc env <? 0 then
          (-1, serverSocketFd, tr3 ++ [ServerClose serverSocketFd])
        else (0, serverSocketFd, tr3).

End Startup.

(** * Properties *)

(** ** Machine integers *)

Module MachineFacts.

Import Machine.

Lemma SIZE_MOD_eq : SIZE_MOD = 18446744073709551616.
Proof. reflexivity. Qed.

Lemma U32_MOD_eq : U32_MOD = 4294967296.
Proof. reflexivity. Qed.

Lemma size_wrap_small x : is_size x → size_wrap x = x.
Proof. intros H. apply Z.mod_small, H. Qed.

Lemma size_of_int_nonneg x : is_size x → size_of_int x = x.
Proof. intros H. apply Z.mod_small, H. Qed.

(** The conversion that defeats the tests [sizeof(x) > length] when
    [length] is -1. *)
Lemma size_of_int_minus_one : size_of_int (-1) = SIZE_MAX.
Proof. reflexivity. Qed.

Lemma pow2_pos n : 0 ≤ n → 0 < 2 ^ n.
Proof. intros. by apply Z.pow_pos_nonneg. Qed.

Lemma land_pred_pow2 x n : 0 ≤ n → Z.land x (2 ^ n - 1) = x mod 2 ^ n.
Proof.
  intros Hn. rewrite <- Z.land_ones by done.
  by rewrite Z.ones_equiv, <- Z.sub_1_r.
Qed.

(** An index that went at most once round the buffer. *)
Lemma mod_wrap x s : 0 ≤ x < 2 * s →
  x mod s = if decide (x < s) then x else x - s.
Proof.
  intros Hx. case_decide.
  - apply Z.mod_small. lia.
  - symmetry. apply (Z.mod_unique_pos x s 1); lia.
Qed.

Lemma mod_offset_inj b i j s :
  0 ≤ b < s → 0 ≤ i < s → 0 ≤ j < s →
  (b + i) mod s = (b + j) mod s → i = j.
Proof.
  intros Hb Hi Hj. rewrite !mod_wrap by lia.
  repeat case_decide; lia.
Qed.

Lemma pow2_lt_size_mod n : 0 ≤ n < SIZE_BITS → 2 ^ n < SIZE_MOD.
Proof. intros Hn. unfold SIZE_MOD. apply Z.pow_lt_mono_r; lia. Qed.

End MachineFacts.

(** ** Object representations *)

Module WireFacts.

Import Machine MachineFacts Wire.

Lemma Z_of_byte_range b : 0 ≤ Z_of_byte b < 256.
Proof.
  unfold Z_of_byte. pose proof (Byte.to_N_bounded b). lia.
Qed.

Lemma Z_of_byte_of_Z z : Z_of_byte (byte_of_Z z) = z mod 256.
Proof.
  unfold Z_of_byte, byte_of_Z.
  pose proof (Z.mod_pos_bound z 256 eq_refl) as Hb.
  destruct (Byte.of_N (Z.to_N (z mod 256))) as [b|] eqn:E.
  - apply Byte.to_of_N in E. rewrite E. lia.
  - apply Byte.of_N_None_iff in E. lia.
Qed.

Lemma byte_of_Z_of_byte b : byte_of_Z (Z_of_byte b) = b.
Proof.
  unfold byte_of_Z. pose proof (Z_of_byte_range b).
  rewrite Z.mod_small by done. unfold Z_of_byte.
  by rewrite N2Z.id, Byte.of_to_N.
Qed.

Lemma split4 x : 0 ≤ x < 4294967296 →
  x mod 256 + 256 * ((x / 256) mod 256) + 65536 * ((x / 65536) mod 256)
  + 16777216 * ((x / 16777216) mod 256) = x.
Proof.
  intros Hx.
  replace (x / 65536) with (x / 256 / 256)
    by (rewrite Z.div_div by lia; reflexivity).
  replace (x / 16777216) with (x / 256 / 256 / 256)
    by (rewrite !Z.div_div by lia; reflexivity).
  Z.to_euclidean_division_equations. lia.
Qed.

Lemma join4 v0 v1 v2 v3 :
  0 ≤ v0 < 256 → 0 ≤ v1 < 256 → 0 ≤ v2 < 256 → 0 ≤ v3 < 256 →
  let x := v0 + 256 * v1 + 65536 * v2 + 16777216 * v3 in
  x mod 256 = v0 ∧ (x / 256) mod 256 = v1 ∧
  (x / 65536) mod 256 = v2 ∧ (x / 16777216) mod 256 = v3.
Proof.
  intros H0 H1 H2 H3 x. subst x.
  replace ((v0 + 256 * v1 + 65536 * v2 + 16777216 * v3) / 65536)
    with ((v0 + 256 * v1 + 65536 * v2 + 16777216 * v3) / 256 / 256)
    by (rewrite Z.div_div by lia; reflexivity).
  replace ((v0 + 256 * v1 + 65536 * v2 + 16777216 * v3) / 16777216)
    with ((v0 + 256 * v1 + 65536 * v2 + 16777216 * v3) / 256 / 256 / 256)
    by (rewrite !Z.div_div by lia; reflexivity).
  Z.to_euclidean_division_equations. lia.
Qed.

Lemma byte_of_Z_mod z : byte_of_Z (z mod 256) = byte_of_Z z.
Proof. unfold byte_of_Z. by rewrite Z.mod_mod. Qed.

Lemma le_bytes_u32_le_bytes x : is_u32 x → le_bytes_u32 (u32_le_bytes x) = x.
Proof.
  unfold is_u32, U32_MOD. intros Hx. unfold le_bytes_u32, u32_le_bytes.
  rewrite !Z_of_byte_of_Z.
  change (2 ^ 8) with 256. change (2 ^ 16) with 65536.
  change (2 ^ 24) with 16777216. change (2 ^ 32) with 4294967296 in Hx.
  by apply split4.
Qed.

Lemma u32_le_bytes_le_bytes b0 b1 b2 b3 :
  u32_le_bytes (le_bytes_u32 [b0; b1; b2; b3]) = [b0; b1; b2; b3].
Proof.
  unfold le_bytes_u32, u32_le_bytes.
  change (2 ^ 8) with 256. change (2 ^ 16) with 65536.
  change (2 ^ 24) with 16777216.
  destruct (join4 _ _ _ _ (Z_of_byte_range b0) (Z_of_byte_range b1)
              (Z_of_byte_range b2) (Z_of_byte_range b3))
    as (E0 & E1 & E2 & E3).
  rewrite <- (byte_of_Z_mod (_ + _)), E0.
  rewrite <- (byte_of_Z_mod (_ / 256)), E1.
  rewrite <- (byte_of_Z_mod (_ / 65536)), E2.
  rewrite <- (byte_of_Z_mod (_ / 16777216)), E3.
  by rewrite !byte_of_Z_of_byte.
Qed.

Lemma le_bytes_u32_range bs : is_u32 (le_bytes_u32 bs).
Proof.
  unfold is_u32, U32_MOD, le_bytes_u32.
  destruct bs as [|b0 [|b1 [|b2 [|b3 [|]]]]]; try lia.
  pose proof (Z_of_byte_range b0). pose proof (Z_of_byte_range b1).
  pose proof (Z_of_byte_range b2). pose proof (Z_of_byte_range b3). lia.
Qed.

Lemma u32_range x : is_u32 (u32 x).
Proof. unfold is_u32, u32. apply Z.mod_pos_bound. done. Qed.

Lemma u32_small x : is_u32 x → u32 x = x.
Proof. intros H. by apply Z.mod_small. Qed.

Lemma length_u32_repr e x : length (u32_repr e x) = 4%nat.
Proof. by destruct e. Qed.

Lemma u32_value_repr e x : u32_value e (u32_repr e x) = u32 x.
Proof.
  destruct e; unfold u32_value, u32_repr; rewrite ?rev_involutive;
    apply le_bytes_u32_le_bytes, u32_range.
Qed.

Lemma u32_repr_value e bs : length bs = 4%nat → u32_repr e (u32_value e bs) = bs.
Proof.
  intros Hl. destruct bs as [|b0 [|b1 [|b2 [|b3 [|]]]]]; try done.
  destruct e; unfold u32_value, u32_repr.
  - rewrite u32_small by apply le_bytes_u32_range.
    apply u32_le_bytes_le_bytes.
  - rewrite u32_small by apply le_bytes_u32_range.
    simpl rev at 2. by rewrite u32_le_bytes_le_bytes.
Qed.

Lemma length_u32_pair_repr e x0 x1 : length (u32_pair_repr e x0 x1) = 8%nat.
Proof. unfold u32_pair_repr. by rewrite length_app, !length_u32_repr. Qed.

Lemma field0_pair e x0 x1 : field0 e (u32_pair_repr e x0 x1) = u32 x0.
Proof.
  unfold field0, u32_pair_repr.
  rewrite take_app_length' by (by rewrite length_u32_repr). apply u32_value_repr.
Qed.

Lemma field1_pair e x0 x1 : field1 e (u32_pair_repr e x0 x1) = u32 x1.
Proof.
  unfold field1, u32_pair_repr.
  rewrite drop_app_length' by (by rewrite length_u32_repr).
  rewrite firstn_all2 by (rewrite length_u32_repr; lia). apply u32_value_repr.
Qed.

(** An eight-byte object is determined by its two fields. *)
Lemma pair_repr_fields e obj :
  length obj = 8%nat → u32_pair_repr e (field0 e obj) (field1 e obj) = obj.
Proof.
  intros Hl. unfold u32_pair_repr, field0, field1.
  rewrite !u32_repr_value.
  - rewrite (take_ge (drop 4 obj)) by (rewrite length_drop; lia).
    apply take_drop.
  - rewrite length_take, length_drop. lia.
  - rewrite length_take. lia.
Qed.

Lemma store_received_all obj bs : length bs = length obj → store_received obj bs = bs.
Proof.
  intros Hl. unfold store_received.
  rewrite drop_ge by lia. apply app_nil_r.
Qed.

Lemma store_received_nil obj : store_received obj [] = obj.
Proof. done. Qed.

(** A receive that finds all the requested bytes. *)
Lemma recvTimeout_full rx bs rest len :
  pending rx = bs ++ rest → Z.of_nat (length bs) = len → 0 < len →
  recvTimeout rx len = (len, bs, mkRx rest (eof rx)).
Proof.
  intros Hp Hl Hpos. unfold recvTimeout. rewrite Hp.
  rewrite take_app_length', drop_app_length' by lia.
  destruct bs; [simpl in Hl; lia|]. by rewrite Hl.
Qed.

End WireFacts.

(** ** The module message queue *)

Module QueueFacts.

Import Machine MachineFacts Spec.

(** *** The argument test of [initModuleMessageQueue] *)

Lemma size_valid_pow2 s : is_size s → size_valid s = true → is_pow2 s.
Proof.
  unfold size_valid, is_size. intros Hs Hv.
  apply andb_prop in Hv as [Hnz Hland].
  apply negb_true_iff, Z.eqb_neq in Hnz. apply Z.eqb_eq in Hland.
  rewrite size_wrap_small in Hland by (unfold is_size; lia).
  assert (Hpos : 0 < s) by lia.
  pose proof (Z.log2_spec s Hpos) as Hlog.
  pose proof (Z.log2_nonneg s) as Hnn.
  exists (Z.log2 s). split; [done|].
  destruct (decide (s = 2 ^ Z.log2 s)) as [|Hne]; [done|exfalso].
  assert (Hlog' : Z.log2 (s - 1) = Z.log2 s).
  { apply Z.log2_unique; [done|lia]. }
  assert (Hbit : Z.testbit (Z.land s (s - 1)) (Z.log2 s) = true).
  { rewrite Z.land_spec, Z.bit_log2 by done.
    rewrite <- Hlog'. rewrite Z.bit_log2 by lia. done. }
  rewrite Hland, Z.bits_0 in Hbit. done.
Qed.

Lemma pow2_size_valid s : is_size s → is_pow2 s → size_valid s = true.
Proof.
  unfold size_valid, is_size. intros Hs (n & Hn & ->).
  pose proof (pow2_pos n Hn).
  rewrite size_wrap_small by (unfold is_size; lia).
  rewrite land_pred_pow2, Z.mod_same by lia.
  apply andb_true_intro. split; [|done].
  apply negb_true_iff, Z.eqb_neq. lia.
Qed.

Lemma size_valid_iff s : is_size s → size_valid s = true ↔ is_pow2 s.
Proof. split; [by apply size_valid_pow2 | by apply pow2_size_valid]. Qed.

Lemma is_pow2_pos s : is_pow2 s → 0 < s.
Proof. intros (n & Hn & ->). by apply pow2_pos. Qed.

(** *** The index advance *)

Lemma advance_range q i :
  is_pow2 (size q) → size q < SIZE_MOD → 0 ≤ advance q i < size q.
Proof.
  intros (n & Hn & Hs) Hlt. unfold advance. rewrite Hs in *.
  pose proof (pow2_pos n Hn).
  rewrite (size_wrap_small (2 ^ n - 1)) by (unfold is_size; lia).
  rewrite land_pred_pow2 by done. apply Z.mod_pos_bound. lia.
Qed.

Lemma advance_mod q i :
  is_pow2 (size q) → size q < SIZE_MOD → 0 ≤ i < size q →
  advance q i = (i + 1) mod size q.
Proof.
  intros (n & Hn & Hs) Hlt Hi. unfold advance. rewrite Hs in *.
  pose proof (pow2_pos n Hn).
  rewrite !size_wrap_small by (unfold is_size; lia).
  by apply land_pred_pow2.
Qed.

(** *** Reading and writing slots *)

Lemma read_slot_buf q buf i :
  messages q = Some buf → 0 ≤ i → read_slot q i = buf !! Z.to_nat i.
Proof. intros Hb Hi. unfold read_slot. rewrite Hb. by case_decide. Qed.

Lemma write_slot_buf q buf i v :
  messages q = Some buf → 0 ≤ i < Z.of_nat (length buf) →
  write_slot q i v = Some (with_messages q (Some (<[Z.to_nat i := v]> buf))).
Proof. intros Hb Hi. unfold write_slot. rewrite Hb. by case_decide. Qed.

Lemma read_slot_Some_bound q i v :
  read_slot q i = Some v →
  ∃ buf, messages q = Some buf ∧ 0 ≤ i < Z.of_nat (length buf).
Proof.
  unfold read_slot. destruct (messages q) as [buf|]; [|done].
  case_decide; [|done]. intros Hl%lookup_lt_Some. exists buf. split; [done|lia].
Qed.

(** *** The index invariant *)

Lemma index_inv_init s :
  is_size s → is_pow2 s →
  index_inv (mkQueue s 0 0 (Some (replicate (Z.to_nat s) None))).
Proof.
  intros Hs Hp. pose proof (is_pow2_pos s Hp). unfold is_size in Hs.
  split; simpl; [done|lia| |lia|lia].
  eexists. split; [done|]. rewrite length_replicate. lia.
Qed.

Lemma index_inv_write q q1 i v :
  index_inv q → write_slot q i v = Some q1 →
  index_inv q1 ∧ size q1 = size q ∧ front q1 = front q ∧ back q1 = back q.
Proof.
  intros [Hp Hs (buf & Hb & Hl) Hf Hk]. unfold write_slot. rewrite Hb.
  case_decide; [|done]. intros [= <-]. simpl. split; [|done].
  split; simpl; try done. eexists. split; [done|]. by rewrite length_insert.
Qed.

Lemma index_inv_with_front q i :
  index_inv q → index_inv (with_front q (advance q i)).
Proof.
  intros [Hp Hs Hb Hf Hk]. split; simpl; try done. by apply advance_range.
Qed.

Lemma index_inv_with_back q i :
  index_inv q → index_inv (with_back q (advance q i)).
Proof.
  intros [Hp Hs Hb Hf Hk]. split; simpl; try done. by apply advance_range.
Qed.

Lemma index_inv_read q i :
  index_inv q → 0 ≤ i < size q → ∃ v, read_slot q i = Some v.
Proof.
  intros [Hp Hs (buf & Hb & Hl) Hf Hk] Hi.
  rewrite (read_slot_buf q buf) by (done || lia).
  apply lookup_lt_is_Some_2. lia.
Qed.

Lemma index_inv_write_ok q i v :
  index_inv q → 0 ≤ i < size q → ∃ q1, write_slot q i v = Some q1.
Proof.
  intros [Hp Hs (buf & Hb & Hl) Hf Hk] Hi.
  rewrite (write_slot_buf q buf) by (done || lia). eauto.
Qed.

(** *** The queue as a list of messages *)

Lemma repr_init s :
  is_size s → is_pow2 s →
  repr (mkQueue s 0 0 (Some (replicate (Z.to_nat s) None))) [].
Proof.
  intros Hs Hp. pose proof (is_pow2_pos s Hp).
  split; [by apply index_inv_init|simpl; lia|simpl| ].
  - rewrite Z.add_0_l, Z.mod_0_l; lia.
  - simpl. intros i Hi. rewrite Z.add_0_l, Z.mod_small by lia.
    erewrite read_slot_buf by (done || lia).
    rewrite lookup_nil. apply lookup_replicate_2. lia.
Qed.

Lemma repr_front_free q l :
  repr q l → Z.of_nat (length l) < size q → read_slot q (front q) = Some None.
Proof.
  intros [Hinv Hlen Hfront Hslots] Hlt.
  rewrite Hfront, Hslots by lia. f_equal. apply lookup_ge_None. lia.
Qed.

Lemma repr_back_head q m l :
  repr q (m :: l) → read_slot q (back q) = Some (Some m).
Proof.
  intros [Hinv Hlen Hfront Hslots]. destruct Hinv as [_ _ _ _ Hb].
  simpl in Hlen. specialize (Hslots 0).
  rewrite Z.add_0_r, Z.mod_small in Hslots by lia. apply Hslots. lia.
Qed.

Lemma repr_back_empty q : repr q [] → read_slot q (back q) = Some None.
Proof.
  intros [Hinv Hlen Hfront Hslots]. destruct Hinv as [Hp _ _ _ Hb].
  apply is_pow2_pos in Hp. specialize (Hslots 0).
  rewrite Z.add_0_r, Z.mod_small in Hslots by lia. apply Hslots. lia.
Qed.

Lemma repr_front_full q l :
  repr q l → Z.of_nat (length l) = size q →
  ∃ m, read_slot q (front q) = Some (Some m).
Proof.
  intros Hr Hfull. pose proof Hr as [Hinv Hlen Hfront Hslots].
  destruct Hinv as [Hp _ _ _ Hb]. apply is_pow2_pos in Hp.
  destruct l as [|m l]; [simpl in Hfull; lia|]. exists m.
  rewrite Hfront, Hfull.
  replace (back q + size q) with (back q + 1 * size q) by lia.
  rewrite Z.mod_add, Z.mod_small by lia. by eapply repr_back_head.
Qed.

Lemma repr_store q l m :
  repr q l → Z.of_nat (length l) < size q →
  ∃ q1, write_slot q (front q) (Some m) = Some q1 ∧
        repr (with_front q1 (advance q1 (front q1))) (l ++ [m]) ∧
        size q1 = size q.
Proof.
  intros Hr Hlt. pose proof Hr as [Hinv Hlen Hfront Hslots].
  pose proof Hinv as [Hp Hs (buf & Hbuf & Hbl) Hf Hb].
  pose proof (is_pow2_pos _ Hp) as Hpos.
  rewrite (write_slot_buf q buf) by (done || lia).
  eexists. split; [done|]. split; [|done].
  set (q1 := with_messages q _).
  assert (Hinv1 : index_inv q1).
  { split; simpl; try done. eexists. split; [done|]. by rewrite length_insert. }
  split.
  - by apply index_inv_with_front.
  - simpl. rewrite length_app. simpl. lia.
  - simpl. rewrite advance_mod by done. simpl.
    rewrite Hfront, Z.add_mod_idemp_l by lia.
    f_equal. rewrite length_app. simpl. lia.
  - simpl. intros i Hi.
    erewrite read_slot_buf; [|done|apply Z.mod_pos_bound; lia].
    destruct (decide (i = Z.of_nat (length l))) as [->|Hne].
    + rewrite <- Hfront, list_lookup_insert_eq by lia.
      f_equal. rewrite Nat2Z.id. symmetry. apply list_lookup_middle. done.
    + rewrite list_lookup_insert_ne.
      * erewrite <- read_slot_buf; [|done|apply Z.mod_pos_bound; lia].
        rewrite Hslots by done. f_equal.
        destruct (decide (i < Z.of_nat (length l))).
        -- symmetry. apply lookup_app_l. lia.
        -- rewrite !lookup_ge_None_2; [done| |lia].
           rewrite length_app. simpl. lia.
      * intros Heq. apply Hne. rewrite Hfront in Heq.
        apply Z2Nat.inj in Heq; try (apply Z.mod_pos_bound; lia).
        symmetry. by eapply (mod_offset_inj (back q)); [..|exact Heq]; lia.
Qed.

Lemma repr_take q m l :
  repr q (m :: l) →
  ∃ q1, write_slot q (back q) None = Some q1 ∧
        repr (with_back q1 (advance q1 (back q1))) l ∧
        size q1 = size q.
Proof.
  intros Hr. pose proof Hr as [Hinv Hlen Hfront Hslots].
  pose proof Hinv as [Hp Hs (buf & Hbuf & Hbl) Hf Hb].
  pose proof (is_pow2_pos _ Hp) as Hpos. simpl in Hlen, Hfront.
  rewrite (write_slot_buf q buf) by (done || lia).
  eexists. split; [done|]. split; [|done].
  set (q1 := with_messages q _).
  assert (Hinv1 : index_inv q1).
  { split; simpl; try done. eexists. split; [done|]. by rewrite length_insert. }
  split.
  - by apply index_inv_with_back.
  - simpl. lia.
  - simpl. rewrite advance_mod by done. simpl.
    rewrite Hfront, Z.add_mod_idemp_l by lia. f_equal. lia.
  - simpl. rewrite advance_mod by done. simpl. intros i Hi.
    rewrite Z.add_mod_idemp_l by lia.
    erewrite read_slot_buf; [|done|apply Z.mod_pos_bound; lia].
    replace (back q + 1 + i) with (back q + (i + 1)) by lia.
    destruct (decide (i + 1 = size q)) as [Hlast|Hne].
    + rewrite Hlast. replace (back q + size q) with (back q + 1 * size q) by lia.
      rewrite Z.mod_add, Z.mod_small by lia.
      rewrite list_lookup_insert_eq by lia.
      f_equal. symmetry. apply lookup_ge_None. lia.
    + rewrite list_lookup_insert_ne.
      * erewrite <- read_slot_buf; [|done|apply Z.mod_pos_bound; lia].
        rewrite Hslots by lia. f_equal.
        replace (Z.to_nat (i + 1)) with (S (Z.to_nat i)) by lia. done.
      * intros Heq.
        apply Z2Nat.inj in Heq; try (apply Z.mod_pos_bound; lia); [|lia].
        rewrite <- (Z.mod_small (back q) (size q)) in Heq at 1 by lia.
        rewrite <- (Z.add_0_r (back q)) in Heq at 1.
        apply mod_offset_inj in Heq; lia.
Qed.

(** *** One operation of the program against the reference FIFO *)

Lemma queue_step_refines q l op :
  repr q l →
  fst (queue_step q op) = fst (fifo_step (size q) l op) ∧
  repr (snd (queue_step q op)) (snd (fifo_step (size q) l op)) ∧
  size (snd (queue_step q op)) = size q.
Proof.
  intros Hr. pose proof (repr_len _ _ Hr) as Hlen.
  destruct op as [[m|] noblock busy | noblock busy]; simpl.
  - unfold insertModuleMessage.
    destruct busy; [destruct (noblock =? 0); done|].
    destruct (Z.ltb_spec (Z.of_nat (length l)) (size q)) as [Hlt|Hge].
    + rewrite (repr_front_free q l) by done.
      destruct (repr_store q l m Hr Hlt) as (q1 & -> & Hr1 & Hs1).
      destruct (noblock =? 0); simpl; done.
    + destruct (repr_front_full q l Hr) as [m' ->]; [lia|].
      destruct (noblock =? 0); done.
  - done.
  - unfold removeModuleMessage.
    destruct busy; [destruct (noblock =? 0); done|].
    destruct l as [|m l].
    + rewrite (repr_back_empty q Hr). destruct (noblock =? 0); done.
    + rewrite (repr_back_head q m l Hr).
      destruct (repr_take q m l Hr) as (q1 & -> & Hr1 & Hs1).
      destruct (noblock =? 0); simpl; done.
Qed.

Lemma queue_run_refines ops : ∀ q l,
  repr q l → queue_run q ops = fifo_run (size q) l ops.
Proof.
  induction ops as [|op ops IH]; intros q l Hr; [done|]. simpl.
  destruct (queue_step_refines q l op Hr) as (Ho & Hr' & Hs).
  destruct (queue_step q op) as [o q'], (fifo_step (size q) l op) as [o' l'].
  simpl in *. subst o'. f_equal. rewrite <- Hs. by apply IH.
Qed.

(** In the reference FIFO the messages taken in are the messages handed out
    followed by the messages still held. *)
Lemma fifo_run_order capacity ops : ∀ l,
  ∃ l', l ++ pushed ops (fifo_run capacity l ops)
        = popped (fifo_run capacity l ops) ++ l'.
Proof.
  induction ops as [|op ops IH]; intros l.
  { exists l. simpl. by rewrite app_nil_r. }
  destruct op as [[m|] noblock busy | noblock busy]; simpl.
  - destruct busy.
    { destruct (IH l) as [l' Hl']. exists l'.
      destruct (negb (noblock =? 0)); simpl; exact Hl'. }
    destruct (Z.of_nat (length l) <? capacity).
    + destruct (IH (l ++ [m])) as [l' Hl']. exists l'. simpl.
      rewrite <- Hl', <- app_assoc. done.
    + destruct (IH l) as [l' Hl']. exists l'.
      destruct (negb (noblock =? 0)); simpl; exact Hl'.
  - destruct (IH l) as [l' Hl']. exists l'. exact Hl'.
  - destruct busy.
    { destruct (IH l) as [l' Hl']. exists l'.
      destruct (negb (noblock =? 0)); simpl; exact Hl'. }
    destruct l as [|m l].
    + destruct (IH []) as [l' Hl']. exists l'.
      destruct (negb (noblock =? 0)); simpl; exact Hl'.
    + destruct (IH l) as [l' Hl']. exists l'. simpl. f_equal. exact Hl'.
Qed.

(** *** Runs of non-blocking pushes and pops *)

Lemma push_all_repr ms : ∀ q l,
  repr q l → Z.of_nat (length l) + Z.of_nat (length ms) ≤ size q →
  ∃ q', push_all q ms = Some q' ∧ repr q' (l ++ ms) ∧ size q' = size q.
Proof.
  induction ms as [|m ms IH]; intros q l Hr Hroom; simpl in *.
  { exists q. by rewrite app_nil_r. }
  unfold insertModuleMessage. simpl.
  rewrite (repr_front_free q l) by (done || lia).
  destruct (repr_store q l m Hr) as (q1 & -> & Hr1 & Hs1); [lia|].
  destruct (IH _ _ Hr1) as (q' & Hp & Hr' & Hs').
  { simpl. rewrite length_app. simpl. lia. }
  exists q'. rewrite <- app_assoc in Hr'. simpl in *. split_and!; [done|done|lia].
Qed.

Lemma pop_n_repr ms : ∀ q l,
  repr q (ms ++ l) →
  ∃ q', pop_n q (length ms) = Some (q', ms) ∧ repr q' l ∧ size q' = size q.
Proof.
  induction ms as [|m ms IH]; intros q l Hr; simpl in *.
  { by exists q. }
  unfold removeModuleMessage. simpl.
  rewrite (repr_back_head q m (ms ++ l) Hr).
  destruct (repr_take q m (ms ++ l) Hr) as (q1 & -> & Hr1 & Hs1).
  destruct (IH _ _ Hr1) as (q' & -> & Hr' & Hs').
  exists q'. simpl in *. split_and!; [done|done|lia].
Qed.

(** *** The drain loop of [deinitModuleMessageQueue] *)

Lemma occupied_clear buf : ∀ i p,
  buf !! i = Some (Some p) → S (occupied (<[i := None]> buf)) = occupied buf.
Proof.
  induction buf as [|[a|] buf IH]; intros [|i] p Hi; simpl in *;
    try done; erewrite IH; done.
Qed.

Lemma drain_step_measure q heap q' heap' :
  drain_step q heap = DrainNext q' heap' →
  S (occupied_slots q') = occupied_slots q.
Proof.
  unfold drain_step, read_slot, write_slot, occupied_slots.
  destruct (messages q) as [buf|]; [|done].
  case_decide; [|done].
  destruct (buf !! Z.to_nat (back q)) as [[p|]|] eqn:Hp; try done.
  case_decide; [|done]. intros [= <- <-]. simpl. by eapply occupied_clear.
Qed.

(** The loop stops: every turn clears one occupied slot. *)
Lemma drain_total fuel : ∀ q heap,
  (occupied_slots q < fuel)%nat → drain fuel q heap ≠ None.
Proof.
  induction fuel as [|fuel IH]; intros q heap Hm; [lia|]. simpl.
  destruct (drain_step q heap) as [|q' heap'|] eqn:Hstep; try done.
  apply IH. apply drain_step_measure in Hstep. lia.
Qed.

Lemma occupied_le_length buf : (occupied buf ≤ length buf)%nat.
Proof. induction buf as [|[a|] buf IH]; simpl; lia. Qed.

Lemma deinit_total rc1 rc2 q heap :
  deinitModuleMessageQueue rc1 rc2 q heap ≠ None.
Proof.
  unfold deinitModuleMessageQueue.
  pose proof (drain_total (S (buffer_length q)) q heap) as Hd.
  destruct (drain _ q heap) as [[[q' h']| |]|]; try done.
  exfalso. apply Hd; [|done]. unfold occupied_slots, buffer_length.
  destruct (messages q) as [buf|]; [|lia].
  pose proof (occupied_le_length buf). lia.
Qed.

Lemma drain_step_inv q heap :
  index_inv q →
  match drain_step q heap with
  | DrainExit => True
  | DrainNext q' _ => index_inv q' ∧ size q' = size q
  | DrainFault => False
  end.
Proof.
  intros Hinv. unfold drain_step.
  destruct (index_inv_read q (back q) Hinv) as [v ->]; [apply Hinv|].
  destruct v as [p|]; [|done].
  destruct (index_inv_write_ok q (back q) None Hinv) as [q1 Hw]; [apply Hinv|].
  rewrite Hw. apply index_inv_write in Hw as (Hinv1 & Hs1 & _); [|done].
  split; [by apply index_inv_with_back|done].
Qed.

Lemma drain_inv fuel : ∀ q heap,
  index_inv q →
  match drain fuel q heap with
  | Some (Returned (q', _)) => index_inv q' ∧ size q' = size q
  | Some Suspended | Some Fault => False
  | None => True
  end.
Proof.
  induction fuel as [|fuel IH]; intros q heap Hinv; [done|]. simpl.
  pose proof (drain_step_inv q heap Hinv) as Hstep.
  destruct (drain_step q heap) as [|q' heap'|]; [done| |done].
  destruct Hstep as [Hinv' Hs']. specialize (IH q' heap' Hinv').
  destruct (drain fuel q' heap') as [[[q'' h'']| |]|]; try done.
  split; [apply IH|]. destruct IH. lia.
Qed.

End QueueFacts.

(** ** Properties of the module message queue *)

Section QueueProperties.

Import Machine MachineFacts Spec QueueFacts.

Lemma init_invalid env q0 c :
  size_valid c = false → initModuleMessageQueue env q0 c = (-1, q0, []).
Proof. intros H. unfold initModuleMessageQueue. by rewrite H. Qed.

Lemma init_valid env q0 c :
  size_valid c = true → allocation_succeeds env →
  initModuleMessageQueue env q0 c = (0, fresh_queue c, init_calls c).
Proof.
  intros H (H1 & H2 & H3 & H4 & H5 & H6). unfold initModuleMessageQueue.
  by rewrite H, H1, H2, H3, H4, H5, H6.
Qed.

(** A call that returns 0 went through the argument test and [calloc]. *)
Lemma init_success_inv env q0 c q tr :
  initModuleMessageQueue env q0 c = (0, q, tr) →
  size_valid c = true ∧ q = fresh_queue c.
Proof.
  unfold initModuleMessageQueue.
  destruct (size_valid c); [|done]. destruct (calloc_ok env); [|done].
  repeat (match goal with |- context [if ?b then _ else _] => destruct b end;
          [done|]).
  intros [= <- <-]. done.
Qed.

Lemma allocation_succeeds_env_ok : allocation_succeeds env_ok.
Proof. by repeat split. Qed.

(** C5. Queue creation fails with the failure code, leaving the queue object
    untouched and calling no allocator, for every capacity that is zero or
    not a power of two, in particular for 0, 3, 5, 6 and 100; it succeeds
    for every power of two, in particular for 1, 2, 4, 16 and 1024, when
    the buffer and the synchronisation primitives are allocated. *)
Theorem C5_create_validates_capacity (env : InitEnv)
    (q0 : ModuleMessageQueue_T) (c : Z) (Hc : is_size c) :
  (c = 0 ∨ ¬ is_pow2 c →
     initModuleMessageQueue env q0 c = (InvalidArgument, q0, [])) ∧
  (c ∈ [0; 3; 5; 6; 100] →
     initModuleMessageQueue env q0 c = (InvalidArgument, q0, [])) ∧
  (is_pow2 c → allocation_succeeds env →
     initModuleMessageQueue env q0 c = (Success, fresh_queue c, init_calls c)) ∧
  (c ∈ [1; 2; 4; 16; 1024] → allocation_succeeds env →
     initModuleMessageQueue env q0 c = (Success, fresh_queue c, init_calls c)).
Proof.
  split_and!.
  - intros Hbad. apply init_invalid.
    destruct (size_valid c) eqn:Hv; [exfalso|done].
    apply size_valid_pow2 in Hv; [|done].
    destruct Hbad as [->|Hn]; [|done].
    apply is_pow2_pos in Hv. lia.
  - intros Hin. apply init_invalid.
    repeat (apply elem_of_cons in Hin as [->|Hin]; [reflexivity|]).
    by apply elem_of_nil in Hin.
  - intros Hp Ha. apply init_valid; [|done]. by apply pow2_size_valid.
  - intros Hin Ha. apply init_valid; [|done].
    repeat (apply elem_of_cons in Hin as [->|Hin]; [reflexivity|]).
    by apply elem_of_nil in Hin.
Qed.

(** C4. A freshly created queue of capacity 2^n takes 2^n non-blocking
    pushes, each returning 0; the next non-blocking push returns Full and
    changes nothing; 2^n non-blocking pops then hand the messages back in
    order, and the next non-blocking pop returns Empty. *)
Theorem C4_usable_capacity (n : Z) (q0 : ModuleMessageQueue_T)
    (ms : list ptr) (m : ptr)
    (Hn : 0 ≤ n < SIZE_BITS) (Hms : Z.of_nat (length ms) = 2 ^ n) :
  ∃ q q1 q2 tr,
    initModuleMessageQueue env_ok q0 (2 ^ n) = (Success, q, tr) ∧
    push_all q ms = Some q1 ∧
    insertModuleMessage q1 (Some m) MOD_MSGQ_NOBLOCK false = Returned (Full, q1) ∧
    pop_n q1 (length ms) = Some (q2, ms) ∧
    removeModuleMessage q2 MOD_MSGQ_NOBLOCK false = Returned (Empty, q2, None).
Proof.
  assert (Hsize : is_size (2 ^ n)).
  { pose proof (pow2_pos n). pose proof (pow2_lt_size_mod n Hn).
    unfold is_size. lia. }
  assert (Hpow : is_pow2 (2 ^ n)) by (exists n; split; [lia|done]).
  pose proof (repr_init _ Hsize Hpow) as Hr0.
  destruct (push_all_repr ms _ [] Hr0) as (q1 & Hpush & Hr1 & Hs1);
    [simpl; lia|]. simpl in Hr1, Hs1.
  destruct (pop_n_repr ms q1 []) as (q2 & Hpop & Hr2 & Hs2);
    [by rewrite app_nil_r|].
  exists (fresh_queue (2 ^ n)), q1, q2, (init_calls (2 ^ n)). split_and!.
  - apply init_valid; [by apply pow2_size_valid|apply allocation_succeeds_env_ok].
  - done.
  - unfold insertModuleMessage. simpl.
    destruct (repr_front_full q1 ms Hr1) as [m' ->]; [lia|]. done.
  - done.
  - unfold removeModuleMessage. simpl. by rewrite (repr_back_empty q2 Hr2).
Qed.

Lemma C4_usable_capacity_witness :
  ∃ q q1 q2 tr,
    initModuleMessageQueue env_ok (mkQueue 7 9 11 None) (2 ^ 2) = (Success, q, tr) ∧
    push_all q [3; 1; 4; 1]%positive = Some q1 ∧
    insertModuleMessage q1 (Some 5%positive) MOD_MSGQ_NOBLOCK false
      = Returned (Full, q1) ∧
    pop_n q1 (length [3; 1; 4; 1]%positive) = Some (q2, [3; 1; 4; 1]%positive) ∧
    removeModuleMessage q2 MOD_MSGQ_NOBLOCK false = Returned (Empty, q2, None).
Proof.
  apply (C4_usable_capacity 2 (mkQueue 7 9 11 None) [3; 1; 4; 1]%positive 5%positive).
  - unfold SIZE_BITS. lia.
  - reflexivity.
Defined.

Lemma C5_create_validates_capacity_witness :
  (3 = 0 ∨ ¬ is_pow2 3 →
     initModuleMessageQueue env_ok (mkQueue 7 9 11 None) 3
     = (InvalidArgument, mkQueue 7 9 11 None, [])) ∧
  (3 ∈ [0; 3; 5; 6; 100] →
     initModuleMessageQueue env_ok (mkQueue 7 9 11 None) 3
     = (InvalidArgument, mkQueue 7 9 11 None, [])) ∧
  (is_pow2 3 → allocation_succeeds env_ok →
     initModuleMessageQueue env_ok (mkQueue 7 9 11 None) 3
     = (Success, fresh_queue 3, init_calls 3)) ∧
  (3 ∈ [1; 2; 4; 16; 1024] → allocation_succeeds env_ok →
     initModuleMessageQueue env_ok (mkQueue 7 9 11 None) 3
     = (Success, fresh_queue 3, init_calls 3)).
Proof.
  apply (C5_create_validates_capacity env_ok (mkQueue 7 9 11 None) 3).
  unfold is_size, SIZE_MOD, SIZE_BITS. lia.
Defined.

(** C6. On a freshly created queue every sequence of pushes and pops,
    blocking or not, is observed exactly as on the reference FIFO of the
    same capacity; hence the messages handed out by the successful pops are,
    in order, an initial part of the messages taken in by the successful
    pushes. *)
Theorem C6_fifo_order (env : InitEnv) (q0 q : ModuleMessageQueue_T) (c : Z)
    (tr : list InitCall) (ops : list Op)
    (Hc : is_size c)
    (Hinit : initModuleMessageQueue env q0 c = (Success, q, tr)) :
  queue_run q ops = fifo_run c [] ops ∧
  popped (queue_run q ops) `prefix_of` pushed ops (queue_run q ops).
Proof.
  apply init_success_inv in Hinit as [Hv ->].
  apply size_valid_pow2 in Hv; [|done].
  pose proof (repr_init c Hc Hv) as Hr.
  assert (Hrun : queue_run (fresh_queue c) ops = fifo_run c [] ops).
  { exact (queue_run_refines ops (fresh_queue c) [] Hr). }
  split; [done|]. rewrite Hrun.
  destruct (fifo_run_order c ops []) as [l' Hl']. simpl in Hl'.
  exists l'. done.
Qed.

Lemma C6_fifo_order_witness :
  queue_run (fresh_queue 2)
    [Push (Some 7%positive) 1 false; Push (Some 8%positive) 0 false;
     Push (Some 9%positive) 1 false; Pop 1 false; Pop 0 false; Pop 1 false]
  = fifo_run 2 []
    [Push (Some 7%positive) 1 false; Push (Some 8%positive) 0 false;
     Push (Some 9%positive) 1 false; Pop 1 false; Pop 0 false; Pop 1 false] ∧
  popped (queue_run (fresh_queue 2)
    [Push (Some 7%positive) 1 false; Push (Some 8%positive) 0 false;
     Push (Some 9%positive) 1 false; Pop 1 false; Pop 0 false; Pop 1 false])
  `prefix_of`
  pushed
    [Push (Some 7%positive) 1 false; Push (Some 8%positive) 0 false;
     Push (Some 9%positive) 1 false; Pop 1 false; Pop 0 false; Pop 1 false]
    (queue_run (fresh_queue 2)
    [Push (Some 7%positive) 1 false; Push (Some 8%positive) 0 false;
     Push (Some 9%positive) 1 false; Pop 1 false; Pop 0 false; Pop 1 false]).
Proof.
  apply (C6_fifo_order env_ok (mkQueue 7 9 11 None) (fresh_queue 2) 2 (init_calls 2)).
  - unfold is_size, SIZE_MOD, SIZE_BITS. lia.
  - reflexivity.
Defined.

(** C9. A non-blocking push that returns WouldBlock or Full, and a
    non-blocking pop that returns WouldBlock or Empty, leave the queue as it
    was, whatever its state: same front, same back, same buffer. The queue
    holds after a failed push exactly the pointers it held before, and a
    failed pop does not write the pointer variable of the caller. *)
Theorem C9_failed_nonblocking_unchanged (q : ModuleMessageQueue_T) (rc : Z)
    (Hrc : rc = WouldBlock ∨ rc = Full) :
  (∀ message lock_busy q',
     insertModuleMessage q message MOD_MSGQ_NOBLOCK lock_busy = Returned (rc, q') →
     q' = q ∧ front q' = front q ∧ back q' = back q ∧
     messages q' = messages q ∧ ∀ p, holds q' p ↔ holds q p) ∧
  (∀ lock_busy q' out,
     removeModuleMessage q MOD_MSGQ_NOBLOCK lock_busy = Returned (rc, q', out) →
     q' = q ∧ front q' = front q ∧ back q' = back q ∧
     messages q' = messages q ∧ out = None).
Proof.
  assert (Hneq : rc ≠ 0 ∧ rc ≠ -1).
  { unfold WouldBlock, Full in Hrc. lia. }
  split.
  - intros message busy q' H.
    assert (q' = q) as ->; [|done].
    unfold insertModuleMessage in H. simpl in H.
    destruct message as [m|]; [|injection H; lia].
    destruct busy; [by injection H|].
    destruct (read_slot q (front q)) as [[p|]|]; [by injection H| |done].
    destruct (write_slot q (front q) (Some m)); [injection H; lia|done].
  - intros busy q' out H.
    assert (q' = q ∧ out = None) as [-> ->]; [|done].
    unfold removeModuleMessage in H. simpl in H.
    destruct busy; [by injection H|].
    destruct (read_slot q (back q)) as [[p|]|]; [|by injection H|done].
    destruct (write_slot q (back q) None); [injection H; lia|done].
Qed.

Lemma C9_failed_nonblocking_unchanged_witness :
  insertModuleMessage (mkQueue 1 0 0 (Some [Some 4%positive])) (Some 6%positive)
    MOD_MSGQ_NOBLOCK false
  = Returned (Full, mkQueue 1 0 0 (Some [Some 4%positive])) ∧
  (∀ message lock_busy q',
     insertModuleMessage (mkQueue 1 0 0 (Some [Some 4%positive])) message
       MOD_MSGQ_NOBLOCK lock_busy = Returned (Full, q') →
     q' = mkQueue 1 0 0 (Some [Some 4%positive]) ∧
     front q' = front (mkQueue 1 0 0 (Some [Some 4%positive])) ∧
     back q' = back (mkQueue 1 0 0 (Some [Some 4%positive])) ∧
     messages q' = messages (mkQueue 1 0 0 (Some [Some 4%positive])) ∧
     ∀ p, holds q' p ↔ holds (mkQueue 1 0 0 (Some [Some 4%positive])) p) ∧
  (∀ lock_busy q' out,
     removeModuleMessage (mkQueue 1 0 0 (Some [Some 4%positive]))
       MOD_MSGQ_NOBLOCK lock_busy = Returned (Full, q', out) →
     q' = mkQueue 1 0 0 (Some [Some 4%positive]) ∧
     front q' = front (mkQueue 1 0 0 (Some [Some 4%positive])) ∧
     back q' = back (mkQueue 1 0 0 (Some [Some 4%positive])) ∧
     messages q' = messages (mkQueue 1 0 0 (Some [Some 4%positive])) ∧
     out = None).
Proof.
  split; [reflexivity|].
  apply (C9_failed_nonblocking_unchanged (mkQueue 1 0 0 (Some [Some 4%positive])) Full).
  right. reflexivity.
Defined.

(** C10. A queue initialised with a power-of-two size satisfies
    [front < size] and [back < size]; on every queue that satisfies the
    invariant the masked advance stays below [size], and a push, a pop, a
    turn of the drain loop and the whole of [deinitModuleMessageQueue] make
    no access outside the buffer (no [Fault]) and, but for the final
    release of the buffer, keep the invariant. *)
Theorem C10_indices_in_bounds (env : InitEnv) (q0 q : ModuleMessageQueue_T)
    (c : Z) (tr : list InitCall)
    (Hc : is_size c)
    (Hinit : initModuleMessageQueue env q0 c = (Success, q, tr)) :
  index_inv q ∧
  ∀ q1, index_inv q1 →
    (∀ i, 0 ≤ advance q1 i < size q1) ∧
    (∀ message noblock lock_busy,
       match insertModuleMessage q1 message noblock lock_busy with
       | Returned (_, q2) => index_inv q2
       | Suspended => True
       | Fault => False
       end) ∧
    (∀ noblock lock_busy,
       match removeModuleMessage q1 noblock lock_busy with
       | Returned (_, q2, _) => index_inv q2
       | Suspended => True
       | Fault => False
       end) ∧
    (∀ heap,
       match drain_step q1 heap with
       | DrainExit => True
       | DrainNext q2 _ => index_inv q2
       | DrainFault => False
       end) ∧
    (∀ rc1 rc2 heap, ∃ rc q2 heap',
       deinitModuleMessageQueue rc1 rc2 q1 heap = Some (Returned (rc, q2, heap'))).
Proof.
  apply init_success_inv in Hinit as [Hv ->].
  apply size_valid_pow2 in Hv; [|done].
  split; [by apply index_inv_init|].
  intros q1 Hinv. split_and!.
  - intros i. apply advance_range; apply Hinv.
  - intros message noblock busy. unfold insertModuleMessage.
    destruct message as [m|]; [|done].
    destruct (index_inv_read q1 (front q1) Hinv) as [v Hread]; [apply Hinv|].
    destruct (index_inv_write_ok q1 (front q1) (Some m) Hinv) as [q2 Hw];
      [apply Hinv|].
    rewrite Hread, Hw.
    apply index_inv_write in Hw as (Hinv2 & _); [|done].
    pose proof (index_inv_with_front q2 (front q2) Hinv2).
    destruct (negb (noblock =? 0)), busy, v; done.
  - intros noblock busy. unfold removeModuleMessage.
    destruct (index_inv_read q1 (back q1) Hinv) as [v Hread]; [apply Hinv|].
    destruct (index_inv_write_ok q1 (back q1) None Hinv) as [q2 Hw];
      [apply Hinv|].
    rewrite Hread, Hw.
    apply index_inv_write in Hw as (Hinv2 & _); [|done].
    pose proof (index_inv_with_back q2 (back q2) Hinv2).
    destruct (negb (noblock =? 0)), busy, v; done.
  - intros heap. pose proof (drain_step_inv q1 heap Hinv) as H.
    destruct (drain_step q1 heap); [done|apply H|done].
  - intros rc1 rc2 heap.
    pose proof (deinit_total rc1 rc2 q1 heap) as Htot.
    unfold deinitModuleMessageQueue in *.
    pose proof (drain_inv (S (buffer_length q1)) q1 heap Hinv) as Hd.
    destruct (drain _ q1 heap) as [[[q2 h2]| |]|]; try done. eauto.
Qed.

Lemma C10_indices_in_bounds_witness :
  index_inv (fresh_queue 4) ∧
  ∀ q1, index_inv q1 →
    (∀ i, 0 ≤ advance q1 i < size q1) ∧
    (∀ message noblock lock_busy,
       match insertModuleMessage q1 message noblock lock_busy with
       | Returned (_, q2) => index_inv q2
       | Suspended => True
       | Fault => False
       end) ∧
    (∀ noblock lock_busy,
       match removeModuleMessage q1 noblock lock_busy with
       | Returned (_, q2, _) => index_inv q2
       | Suspended => True
       | Fault => False
       end) ∧
    (∀ heap,
       match drain_step q1 heap with
       | DrainExit => True
       | DrainNext q2 _ => index_inv q2
       | DrainFault => False
       end) ∧
    (∀ rc1 rc2 heap, ∃ rc q2 heap',
       deinitModuleMessageQueue rc1 rc2 q1 heap = Some (Returned (rc, q2, heap'))).
Proof.
  apply (C10_indices_in_bounds env_ok (mkQueue 7 9 11 None) (fresh_queue 4) 4
           (init_calls 4)).
  - unfold is_size, SIZE_MOD, SIZE_BITS. lia.
  - reflexivity.
Defined.

End QueueProperties.

(** ** Properties of the login handshake *)

Section LoginProperties.

Import Machine MachineFacts Wire WireFacts Spec.

Lemma recvTimeout_cases rx len :
  0 < len →
  ∃ n got rx', recvTimeout rx len = (n, got, rx') ∧
    got = take (Z.to_nat len) (pending rx) ∧
    ((got = [] ∧ (n = 0 ∨ n = -1)) ∨
     (got ≠ [] ∧ n = Z.of_nat (length got) ∧ 0 < n ≤ len)).
Proof.
  intros Hlen. unfold recvTimeout.
  destruct (take (Z.to_nat len) (pending rx)) as [|b got] eqn:E.
  - destruct (eof rx); eexists _, _, _; (split; [done|]); split; try done;
      left; split; try done; lia.
  - eexists _, _, _. split; [done|]. split; [done|]. right.
    split; [done|]. split; [done|].
    assert (length (b :: got) ≤ Z.to_nat len)%nat.
    { rewrite <- E, length_take. lia. }
    simpl in *. lia.
Qed.

Lemma size_of_int_small n : 0 ≤ n ≤ 8 → size_of_int n = n.
Proof. intros. apply Z.mod_small. unfold SIZE_MOD, SIZE_BITS. lia. Qed.

(** C8. Once the login [{LOGIN, DRONE_ID}] is sent, the attempt succeeds
    exactly when the reply, received in full before the timeout, is
    [{LOGIN_ACK, DRONE_ID}]: then keep-alive is enabled, the descriptor of
    the socket is stored and 0 is returned. With any other reply (nothing,
    a short read, a closed connection, another code or another identifier)
    the socket is closed, the stored descriptor is the invalid one, -1 is
    returned, and keep-alive is not enabled. *)
Theorem C8_login_reply_decides (e : endianness) (env : DroneLogin.ConnectEnv)
    (node service : list byte) (fd : Z)
    (Hresolve : DroneLogin.getaddrinfo_rc env = 0)
    (Hresult : DroneLogin.getaddrinfo_result env = true)
    (Hsocket : 0 ≤ DroneLogin.socket_rc env)
    (Hconnect : 0 ≤ DroneLogin.connect_rc env)
    (Hsend : DroneLogin.send_rc env = DroneLogin.sizeof_loginMessage) :
  let fd1 := DroneLogin.socket_rc env in
  let attempt :=
    [Getaddrinfo; Socket; Connect fd1;
     Send fd1 (u32_pair_repr e MOD_MSG_CODE_LOGIN DRONE_ID);
     Recv fd1 DroneLogin.sizeof_loginMessage] in
  (reply_is_ack e (DroneLogin.reply env) →
     DroneLogin.connectToGroundControl e env (Some node) (Some service) fd
     = (0, fd1, attempt ++ [SetKeepalive fd1; Freeaddrinfo])) ∧
  (¬ reply_is_ack e (DroneLogin.reply env) →
     DroneLogin.connectToGroundControl e env (Some node) (Some service) fd
     = (-1, SOCK_FD_INVAL, attempt ++ [Freeaddrinfo; Close fd1])).
Proof.
  intros fd1 attempt. unfold DroneLogin.connectToGroundControl.
  rewrite Hresolve, Hresult, Hsend. simpl negb. cbv iota.
  fold fd1.
  destruct (Z.ltb_spec fd1 0) as [|_]; [lia|].
  destruct (Z.ltb_spec (DroneLogin.connect_rc env) 0) as [|_]; [lia|].
  change ((DroneLogin.sizeof_loginMessage <? 0)
          || (size_of_int DroneLogin.sizeof_loginMessage
              <? DroneLogin.sizeof_loginMessage)) with false. cbv iota.
  destruct (recvTimeout_cases (DroneLogin.reply env) DroneLogin.sizeof_loginMessage)
    as (n & got & rx' & -> & Hgot & Hcases); [done|].
  change (Z.to_nat DroneLogin.sizeof_loginMessage) with 8%nat in Hgot.
  unfold reply_is_ack. rewrite <- Hgot. split.
  - intros Hack. destruct Hcases as [[Hnil _]|(_ & Hn & _)].
    { rewrite Hnil in Hack. by destruct e. }
    rewrite Hn, Hack, length_u32_pair_repr.
    rewrite store_received_all by (by rewrite !length_u32_pair_repr).
    rewrite field0_pair, field1_pair. done.
  - intros Hnack. destruct Hcases as [[-> [->| ->]]|(Hne & Hn & Hrange)].
    + done.
    + rewrite store_received_nil, field0_pair. done.
    + unfold DroneLogin.sizeof_loginMessage in *.
      rewrite Hn, size_of_int_small by lia.
      destruct (Z.ltb_spec (Z.of_nat (length got)) 8) as [|Hge]; [done|].
      assert (Hl : length got = 8%nat) by lia.
      rewrite store_received_all by (by rewrite length_u32_pair_repr).
      destruct (Z.eqb_spec (field0 e got) (u32 MOD_MSG_CODE_LOGIN_ACK)) as [E0|];
        [|done].
      destruct (Z.eqb_spec (field1 e got) DRONE_ID) as [E1|]; [|done].
      exfalso. apply Hnack.
      rewrite <- (pair_repr_fields e got Hl), E0, E1. done.
Qed.

Lemma C8_login_reply_decides_witness :
  let env := DroneLogin.mkConnectEnv 0 true 5 0 8
               (mkRx (u32_pair_repr LittleEndian MOD_MSG_CODE_LOGIN_NACK 0) false) 0 in
  let fd1 := DroneLogin.socket_rc env in
  let attempt :=
    [Getaddrinfo; Socket; Connect fd1;
     Send fd1 (u32_pair_repr LittleEndian MOD_MSG_CODE_LOGIN DRONE_ID);
     Recv fd1 DroneLogin.sizeof_loginMessage] in
  (reply_is_ack LittleEndian (DroneLogin.reply env) →
     DroneLogin.connectToGroundControl LittleEndian env (Some []) (Some []) 3
     = (0, fd1, attempt ++ [SetKeepalive fd1; Freeaddrinfo])) ∧
  (¬ reply_is_ack LittleEndian (DroneLogin.reply env) →
     DroneLogin.connectToGroundControl LittleEndian env (Some []) (Some []) 3
     = (-1, SOCK_FD_INVAL, attempt ++ [Freeaddrinfo; Close fd1])).
Proof.
  apply (C8_login_reply_decides LittleEndian
           (DroneLogin.mkConnectEnv 0 true 5 0 8
              (mkRx (u32_pair_repr LittleEndian MOD_MSG_CODE_LOGIN_NACK 0) false) 0)
           [] [] 3); simpl; (reflexivity || lia).
Defined.

(** C1, as the code behaves. When the login message received in full has a
    code other than LOGIN and the answer can be sent, [authDrone] answers
    [{LOGIN_NACK, 0}] and returns 0, not -1; the service thread therefore
    takes the authentication for a success and enters the communication loop
    on that connection instead of closing it. *)
Theorem C1_nack_sent_but_connection_served (e : endianness)
    (env : GroundControl.AuthEnv) (serviceSocket droneID c id : Z)
    (rest : list byte)
    (Hsock : 0 ≤ serviceSocket)
    (Hc : is_u32 c) (Hcode : c ≠ MOD_MSG_CODE_LOGIN)
    (Hlogin : pending (GroundControl.login_rx env) = u32_pair_repr e c id ++ rest)
    (Hsend : 0 ≤ GroundControl.auth_send_rc env) :
  let answer := u32_pair_repr e MOD_MSG_CODE_LOGIN_NACK 0 in
  GroundControl.authDrone e env serviceSocket droneID
  = (0, droneID, [Recv serviceSocket 8; Send serviceSocket answer]) ∧
  GroundControl.threadFuncDroneService_turn e
    (GroundControl.mkServiceEnv serviceSocket env) droneID
  = (droneID, [Accept; SetKeepalive serviceSocket; Recv serviceSocket 8;
               Send serviceSocket answer; CommunicationLoop serviceSocket]).
Proof.
  intros answer.
  assert (Hauth : GroundControl.authDrone e env serviceSocket droneID
                  = (0, droneID, [Recv serviceSocket 8; Send serviceSocket answer])).
  { unfold GroundControl.authDrone, GroundControl.sizeof_loginMessage.
    destruct (Z.ltb_spec serviceSocket 0) as [|_]; [lia|].
    rewrite (recvTimeout_full _ (u32_pair_repr e c id) rest 8 Hlogin);
      [|by rewrite length_u32_pair_repr|done].
    rewrite store_received_all by (by rewrite !length_u32_pair_repr).
    change (size_of_int 8 <? 8) with false.
    cbv iota. rewrite field0_pair, (u32_small c) by done.
    destruct (Z.eqb_spec (u32 MOD_MSG_CODE_LOGIN) c) as [E|_].
    { exfalso. apply Hcode. rewrite <- E. done. }
    destruct (Z.ltb_spec (GroundControl.auth_send_rc env) 0) as [|_]; [lia|].
    done. }
  split; [done|].
  unfold GroundControl.threadFuncDroneService_turn. simpl.
  destruct (Z.ltb_spec serviceSocket 0) as [|_]; [lia|].
  rewrite Hauth. done.
Qed.

Lemma C1_nack_sent_but_connection_served_witness :
  let env := GroundControl.mkAuthEnv
               (mkRx (u32_pair_repr LittleEndian MOD_MSG_CODE_STREAM_REQ DRONE_ID) false)
               8 in
  let answer := u32_pair_repr LittleEndian MOD_MSG_CODE_LOGIN_NACK 0 in
  GroundControl.authDrone LittleEndian env 4 0
  = (0, 0, [Recv 4 8; Send 4 answer]) ∧
  GroundControl.threadFuncDroneService_turn LittleEndian
    (GroundControl.mkServiceEnv 4 env) 0
  = (0, [Accept; SetKeepalive 4; Recv 4 8; Send 4 answer; CommunicationLoop 4]).
Proof.
  apply (C1_nack_sent_but_connection_served LittleEndian
           (GroundControl.mkAuthEnv
              (mkRx (u32_pair_repr LittleEndian MOD_MSG_CODE_STREAM_REQ DRONE_ID) false)
              8)
           4 0 MOD_MSG_CODE_STREAM_REQ DRONE_ID []).
  - lia.
  - unfold is_u32, U32_MOD, MOD_MSG_CODE_STREAM_REQ. lia.
  - unfold MOD_MSG_CODE_STREAM_REQ, MOD_MSG_CODE_LOGIN. lia.
  - symmetry. apply app_nil_r.
  - simpl. lia.
Defined.

End LoginProperties.


(** ** Properties of the drone: codec and stream control *)

Section DroneProperties.

Import Machine MachineFacts Wire WireFacts Spec QueueFacts Drone.

Lemma insert_block_repr q l m :
  repr q l → Z.of_nat (length l) < size q →
  ∃ q', insertModuleMessage q (Some m) MOD_MSGQ_BLOCK false = Returned (0, q') ∧
        repr q' (l ++ [m]) ∧ size q' = size q.
Proof.
  intros Hr Hlt. unfold insertModuleMessage. simpl.
  rewrite (repr_front_free q l Hr Hlt).
  destruct (repr_store q l m Hr Hlt) as (q1 & -> & Hr1 & Hs1). eauto.
Qed.

(** The drone decodes a stream request lying on its socket into a message
    appended to [streamMsgq]. *)
Lemma inputMessageHandler_stream_request e env sockFd d l port rest :
  0 ≤ sockFd → calloc_succeeds env = true → stream_lock_busy env = false →
  repr (streamMsgq d) l → Z.of_nat (length l) < size (streamMsgq d) →
  is_u32 port →
  pending (sock_rx d) = GroundControl.requestStream_wire e port ++ rest →
  ∃ q',
    inputMessageHandler e env sockFd d
    = Returned (0,
        mkDrone
          (<[fresh (dom (heap d)) :=
               mkMessage MOD_NAME_STREAM MOD_MSG_CODE_STREAM_REQ port]> (heap d))
          q' (networkMsgq d) (mkRx rest (eof (sock_rx d))) (engine d)
          (currentCodingFormat d)) ∧
    repr q' (l ++ [fresh (dom (heap d))]).
Proof.
  intros Hfd Hcalloc Hlock Hr Hroom Hport Hpend.
  unfold GroundControl.requestStream_wire, GroundControl.requestStream_header,
    GroundControl.requestStream_port in Hpend.
  rewrite <- app_assoc in Hpend.
  unfold inputMessageHandler, sizeof_messageHeader.
  destruct (Z.ltb_spec sockFd 0) as [|_]; [lia|].
  rewrite (recvTimeout_full _ _ _ 8 Hpend);
    [|by rewrite length_u32_pair_repr|done].
  rewrite store_received_all by (by rewrite !length_u32_pair_repr).
  rewrite field0_pair, field1_pair.
  change (8 <? 0) with false. change (u32 MOD_NAME_STREAM =? MOD_NAME_STREAM) with true.
  change (u32 MOD_MSG_CODE_STREAM_REQ) with MOD_MSG_CODE_STREAM_REQ. cbv iota.
  unfold networkToStreamMessage, sizeof_videoStreamPort.
  destruct (Z.ltb_spec sockFd 0) as [|_]; [lia|].
  unfold calloc_message. rewrite Hcalloc. simpl heap. simpl sock_rx.
  change (MOD_MSG_CODE_STREAM_REQ =? MOD_MSG_CODE_STREAM_REQ) with true. cbv iota.
  rewrite (recvTimeout_full _ (u32_repr e port) rest 4);
    [|done|by rewrite length_u32_repr|done].
  rewrite store_received_all by (by rewrite !length_u32_repr).
  rewrite u32_value_repr, (u32_small port) by done.
  change (size_of_int 4 <? 4) with false. cbv iota. simpl streamMsgq.
  rewrite Hlock.
  destruct (insert_block_repr (streamMsgq d) l (fresh (dom (heap d))) Hr Hroom)
    as (q' & -> & Hr' & _).
  exists q'. split; [|done]. simpl.
  unfold with_streamMsgq, with_sock_rx, with_heap. simpl.
  by rewrite !insert_insert_eq.
Qed.

(** On a usable socket whose two first [send] calls go through,
    [requestStream] sends first the encoding of the stream request for its
    fixed port. *)
Lemma requestStream_sends_request e env socketFd pipeline :
  0 ≤ socketFd →
  GroundControl.send_header_rc env = 8 → GroundControl.send_port_rc env = 4 →
  ∃ tr,
    (GroundControl.requestStream e env socketFd pipeline).2
    = GcSend_list
        [GroundControl.requestStream_header e;
         GroundControl.requestStream_port e GroundControl.NUM_STREAM_PORT_DRONE]
      ++ tr ∧
    GroundControl.requestStream_header e
    ++ GroundControl.requestStream_port e GroundControl.NUM_STREAM_PORT_DRONE
    = encode e (mkMessage MOD_NAME_STREAM MOD_MSG_CODE_STREAM_REQ
                  GroundControl.NUM_STREAM_PORT_DRONE).
Proof.
  intros Hfd Hh Hp. unfold GroundControl.requestStream.
  destruct (Z.ltb_spec socketFd 0) as [|_]; [lia|].
  rewrite Hh, Hp.
  change (size_of_int 8 <? 8) with false. change (size_of_int 4 <? 4) with false.
  cbv iota.
  destruct (recvTimeout (GroundControl.request_rx env) 8) as [[n1 got1] rx1].
  destruct (recvTimeout rx1 4) as [[n2 got2] rx2].
  repeat match goal with
         | |- context [if ?b then _ else _] => destruct b
         | |- context [match ?x with
                       | GroundControl.GST_STATE_CHANGE_FAILURE => _
                       | _ => _ end] => destruct x
         end; simpl; eexists; (split; [reflexivity|done]).
Qed.



#[local] Arguments insertModuleMessage : simpl never.
#[local] Arguments removeModuleMessage : simpl never.

Lemma state_changes_app c1 c2 :
  state_changes (c1 ++ c2) = state_changes c1 ++ state_changes c2.
Proof.
  induction c1 as [|[st|port] c1 IH]; simpl; [done| |done]. by rewrite IH.
Qed.

(** What each handler asks of the media engine, whenever it returns. *)
Lemma handler_state_change a env message d message' d' :
  handler_of a env message d = Returned (message', d') →
  message' = None ∧
  state_changes (engine d') = state_changes (engine d) ++ action_state_change a.
Proof.
  destruct a; simpl.
  - unfold streamRequestHandler.
    destruct (netsink_found env).
    + destruct message as [m|]; [|done].
      destruct (heap d !! m) as [msg|]; [|done].
      unfold calloc_message. destruct (calloc_succeeds env).
      * destruct (insertModuleMessage _ _ _ _) as [[rc q]| |]; try done.
        intros [= <- <-]. simpl.
        by rewrite state_changes_app, !app_nil_r.
      * intros [= <- <-]. simpl. by rewrite state_changes_app, !app_nil_r.
    + unfold calloc_message. destruct (calloc_succeeds env).
      * destruct (insertModuleMessage _ _ _ _) as [[rc q]| |]; try done.
        intros [= <- <-]. simpl. by rewrite app_nil_r.
      * intros [= <- <-]. simpl. by rewrite app_nil_r.
  - intros [= <- <-]. simpl. by rewrite state_changes_app.
  - intros [= <- <-]. simpl. by rewrite state_changes_app.
  - unfold streamErrorHandler.
    destruct message as [m|]; [|done].
    destruct (heap d !! m) as [msg|]; [|done].
    destruct (insertModuleMessage _ _ _ _) as [[rc q]| |]; try done.
    intros [= <- <-]. simpl. by rewrite state_changes_app.
  - intros [= <- <-]. simpl. by rewrite app_nil_r.
Qed.

(** C2. The table built by [initStreamController] has two rows of four
    entries, and each entry is the one of the transition table of the
    specification: its next state, and a handler that requests from the media
    engine the state change of the action in the table and no other. In
    particular a stream-stop in standby runs the empty handler: the state
    stays standby, no call is made on the media engine and nothing is sent. *)
Theorem C2_transition_table :
  let controller := initStreamController zero_controller in
  (length controller = NUM_STREAM_STATE_NUM ∧
   Forall (λ row, length row = NUM_STREAM_EVENT_NUM) controller) ∧
  (∀ s ev,
     get_context controller s ev
     = Some (mkContext (fst (spec_table s ev))
               (Some (handler_of (snd (spec_table s ev)))))) ∧
  (nextState <$> get_context controller STREAM_STATE_STANDBY STREAM_EVENT_STREAM_START
     = Some STREAM_STATE_PLAYING ∧
   nextState <$> get_context controller STREAM_STATE_STANDBY STREAM_EVENT_STREAM_REQ
     = Some STREAM_STATE_STANDBY ∧
   nextState <$> get_context controller STREAM_STATE_STANDBY STREAM_EVENT_STREAM_STOP
     = Some STREAM_STATE_STANDBY ∧
   nextState <$> get_context controller STREAM_STATE_STANDBY STREAM_EVENT_PIPE_ERROR
     = Some STREAM_STATE_STANDBY ∧
   nextState <$> get_context controller STREAM_STATE_PLAYING STREAM_EVENT_STREAM_STOP
     = Some STREAM_STATE_STANDBY ∧
   nextState <$> get_context controller STREAM_STATE_PLAYING STREAM_EVENT_PIPE_ERROR
     = Some STREAM_STATE_STANDBY ∧
   nextState <$> get_context controller STREAM_STATE_PLAYING STREAM_EVENT_STREAM_REQ
     = Some STREAM_STATE_PLAYING ∧
   nextState <$> get_context controller STREAM_STATE_PLAYING STREAM_EVENT_STREAM_START
     = Some STREAM_STATE_PLAYING) ∧
  (∀ s ev env message d state' message' d',
     update controller env s ev message d = Returned (state', message', d') →
     state' = fst (spec_table s ev) ∧
     state_changes (engine d')
     = state_changes (engine d) ++ action_state_change (snd (spec_table s ev))) ∧
  (∀ env message d,
     update controller env STREAM_STATE_STANDBY STREAM_EVENT_STREAM_STOP message d
     = Returned (STREAM_STATE_STANDBY, None, with_heap d (free message (heap d)))).
Proof.
  intros controller.
  assert (Htable : ∀ s ev,
            get_context controller s ev
            = Some (mkContext (fst (spec_table s ev))
                      (Some (handler_of (snd (spec_table s ev)))))).
  { by intros [] []. }
  split_and!; try done.
  - by repeat constructor.
  - intros s ev env message d state' message' d'. unfold update.
    rewrite Htable. simpl.
    destruct (handler_of _ env message d) as [[m1 d1]| |] eqn:Hh; try done.
    intros [= <- <- <-]. split; [done|].
    by apply handler_state_change in Hh as [_ ?].
Qed.

Lemma remove_block_next q p :
  read_slot q (back q) = Some (Some p) →
  ∃ q', removeModuleMessage q MOD_MSGQ_BLOCK false = Returned (0, q', Some p).
Proof.
  intros Hread. unfold removeModuleMessage. simpl. rewrite Hread.
  destruct (read_slot_Some_bound _ _ _ Hread) as (buf & Hbuf & Hi).
  rewrite (write_slot_buf q buf) by done. eauto.
Qed.

(** A turn of the stream controller in state playing that takes from
    [streamMsgq] a message with the code STREAM_ERROR. *)
Lemma turn_pipeline_error env d p msg l message :
  stream_lock_busy env = false → network_lock_busy env = false →
  read_slot (streamMsgq d) (back (streamMsgq d)) = Some (Some p) →
  heap d !! p = Some msg → code msg = MOD_MSG_CODE_STREAM_ERROR →
  repr (networkMsgq d) l → Z.of_nat (length l) < size (networkMsgq d) →
  ∃ d',
    threadFuncStreamControl_turn (initStreamController zero_controller) env
      STREAM_STATE_PLAYING message d
    = Returned (STREAM_STATE_STANDBY, None, d') ∧
    repr (networkMsgq d') (l ++ [p]) ∧
    heap d' = <[p := mkMessage MOD_NAME_GCCOMMON MOD_MSG_CODE_STREAM_ERROR (data msg)]>
                (heap d) ∧
    engine d' = engine d ++ [SetState GST_STATE_NULL].
Proof.
  intros Hlock Hnlock Hnext Hmsg Hcode Hnet Hroom.
  unfold threadFuncStreamControl_turn. rewrite Hlock.
  destruct (remove_block_next _ _ Hnext) as [q' ->]. simpl.
  rewrite Hmsg, Hcode. simpl.
  unfold update. simpl. unfold streamErrorHandler. simpl.
  rewrite Hmsg, Hnlock.
  destruct (insert_block_repr (networkMsgq d) l p Hnet Hroom) as (qn & -> & Hrn & _).
  eexists. split; [done|]. simpl. by rewrite Hcode.
Qed.

(** The media engine reports an error: a STREAM_ERROR message for the stream
    module is appended to [streamMsgq]. *)
Lemma pipelineErrorCallback_delivers env d l :
  calloc_succeeds env = true → stream_lock_busy env = false →
  repr (streamMsgq d) l → Z.of_nat (length l) < size (streamMsgq d) →
  ∃ d',
    pipelineErrorCallback env d = Returned d' ∧
    repr (streamMsgq d') (l ++ [fresh (dom (heap d))]) ∧
    heap d' = <[fresh (dom (heap d)) :=
                  mkMessage MOD_NAME_STREAM MOD_MSG_CODE_STREAM_ERROR 0]> (heap d) ∧
    networkMsgq d' = networkMsgq d ∧ engine d' = engine d.
Proof.
  intros Hcalloc Hlock Hr Hroom. unfold pipelineErrorCallback, calloc_message.
  rewrite Hcalloc, Hlock.
  destruct (insert_block_repr (streamMsgq d) l (fresh (dom (heap d))) Hr Hroom)
    as (q' & -> & Hr' & _).
  eexists. split; [done|]. simpl. by rewrite insert_insert_eq.
Qed.

(** C3. In state playing, when the message taken from [streamMsgq] is a
    pipeline error, the turn of the stream controller ends in standby, and the
    outbound queue [networkMsgq] holds exactly one more message, this very
    message, now addressed to the common module of the ground control and
    still of code STREAM_ERROR; the media engine is asked for the NULL state.
    So it is when the error was reported by [pipelineErrorCallback] on an
    idle drone. When [networkMsgq] is full the controller waits in the
    blocking insert. *)
Theorem C3_pipeline_error_notifies_peer (env : StepEnv) (d : DroneState)
    (p : ptr) (msg : ModuleMessage_T) (l : list ptr) (message : option ptr)
    (Hlock : stream_lock_busy env = false)
    (Hnlock : network_lock_busy env = false)
    (Hnext : read_slot (streamMsgq d) (back (streamMsgq d)) = Some (Some p))
    (Hmsg : heap d !! p = Some msg)
    (Hcode : code msg = MOD_MSG_CODE_STREAM_ERROR)
    (Hnet : repr (networkMsgq d) l) :
  let controller := initStreamController zero_controller in
  (Z.of_nat (length l) < size (networkMsgq d) →
   ∃ d',
     threadFuncStreamControl_turn controller env STREAM_STATE_PLAYING message d
     = Returned (STREAM_STATE_STANDBY, None, d') ∧
     repr (networkMsgq d') (l ++ [p]) ∧
     heap d' !! p
     = Some (mkMessage MOD_NAME_GCCOMMON MOD_MSG_CODE_STREAM_ERROR (data msg)) ∧
     (∀ p', p' ≠ p → heap d' !! p' = heap d !! p') ∧
     engine d' = engine d ++ [SetState GST_STATE_NULL]) ∧
  (Z.of_nat (length l) = size (networkMsgq d) →
   threadFuncStreamControl_turn controller env STREAM_STATE_PLAYING message d
   = Suspended) ∧
  (calloc_succeeds env = true → Z.of_nat (length l) < size (networkMsgq d) →
   ∀ d0, repr (streamMsgq d0) [] → networkMsgq d0 = networkMsgq d →
     ∃ d1 d2 p0,
       pipelineErrorCallback env d0 = Returned d1 ∧
       threadFuncStreamControl_turn controller env STREAM_STATE_PLAYING message d1
       = Returned (STREAM_STATE_STANDBY, None, d2) ∧
       repr (streamMsgq d2) [] ∧
       repr (networkMsgq d2) (l ++ [p0]) ∧
       heap d2 !! p0
       = Some (mkMessage MOD_NAME_GCCOMMON MOD_MSG_CODE_STREAM_ERROR 0)).
Proof.
  intros controller. split_and!.
  - intros Hroom.
    destruct (turn_pipeline_error env d p msg l message Hlock Hnlock Hnext Hmsg
                Hcode Hnet Hroom) as (d' & Hturn & Hr & Hheap & Heng).
    exists d'. split_and!; try done.
    + rewrite Hheap. apply lookup_insert_eq.
    + intros p' Hne. rewrite Hheap. by apply lookup_insert_ne.
  - intros Hfull. unfold threadFuncStreamControl_turn. rewrite Hlock.
    destruct (remove_block_next _ _ Hnext) as [q' ->]. simpl.
    rewrite Hmsg, Hcode. simpl.
    unfold update. simpl. unfold streamErrorHandler. simpl.
    rewrite Hmsg, Hnlock. unfold insertModuleMessage. simpl.
    destruct (repr_front_full _ _ Hnet Hfull) as [m' ->]. done.
  - intros Hcalloc Hroom d0 Hs0 Hn0.
    destruct (pipelineErrorCallback_delivers env d0 [] Hcalloc Hlock Hs0)
      as (d1 & Hcb & Hs1 & Hh1 & Hn1 & He1).
    { simpl. pose proof (is_pow2_pos _ (inv_pow2 _ (repr_inv _ _ Hs0))). lia. }
    simpl in Hs1. set (p0 := fresh (dom (heap d0))) in *.
    destruct (turn_pipeline_error env d1 p0
                (mkMessage MOD_NAME_STREAM MOD_MSG_CODE_STREAM_ERROR 0) l message)
      as (d2 & Hturn & Hr2 & Hh2 & He2); try done.
    + by apply repr_back_head with (l := []).
    + rewrite Hh1. apply lookup_insert_eq.
    + by rewrite Hn1, Hn0.
    + by rewrite Hn1, Hn0.
    + exists d1, d2, p0. split_and!; try done.
      * unfold threadFuncStreamControl_turn in Hturn. rewrite Hlock in Hturn.
        unfold removeModuleMessage in Hturn. simpl in Hturn.
        rewrite (repr_back_head _ _ [] Hs1) in Hturn.
        destruct (repr_take _ _ [] Hs1) as (q1 & Hw & Hrq & _).
        rewrite Hw in Hturn. simpl in Hturn.
        rewrite Hh1, lookup_insert_eq in Hturn. simpl in Hturn.
        unfold update in Hturn. simpl in Hturn.
        unfold streamErrorHandler in Hturn. simpl in Hturn.
        rewrite Hh1, lookup_insert_eq, Hnlock in Hturn.
        destruct (insertModuleMessage _ _ _ _) as [[rc qn]| |]; try done.
        injection Hturn as <-. done.
      * rewrite Hh2. apply lookup_insert_eq.
Qed.

Lemma C3_pipeline_error_notifies_peer_witness :
  let d := drone_with_pending_error in
  let msg := mkMessage MOD_NAME_STREAM MOD_MSG_CODE_STREAM_ERROR 0 in
  let controller := initStreamController zero_controller in
  (Z.of_nat (length (@nil ptr)) < size (networkMsgq d) →
   ∃ d',
     threadFuncStreamControl_turn controller quiet_env STREAM_STATE_PLAYING None d
     = Returned (STREAM_STATE_STANDBY, None, d') ∧
     repr (networkMsgq d') ([] ++ [1%positive]) ∧
     heap d' !! 1%positive
     = Some (mkMessage MOD_NAME_GCCOMMON MOD_MSG_CODE_STREAM_ERROR (data msg)) ∧
     (∀ p', p' ≠ 1%positive → heap d' !! p' = heap d !! p') ∧
     engine d' = engine d ++ [SetState GST_STATE_NULL]) ∧
  (Z.of_nat (length (@nil ptr)) = size (networkMsgq d) →
   threadFuncStreamControl_turn controller quiet_env STREAM_STATE_PLAYING None d
   = Suspended) ∧
  (calloc_succeeds quiet_env = true →
   Z.of_nat (length (@nil ptr)) < size (networkMsgq d) →
   ∀ d0, repr (streamMsgq d0) [] → networkMsgq d0 = networkMsgq d →
     ∃ d1 d2 p0,
       pipelineErrorCallback quiet_env d0 = Returned d1 ∧
       threadFuncStreamControl_turn controller quiet_env STREAM_STATE_PLAYING None d1
       = Returned (STREAM_STATE_STANDBY, None, d2) ∧
       repr (streamMsgq d2) [] ∧
       repr (networkMsgq d2) ([] ++ [p0]) ∧
       heap d2 !! p0
       = Some (mkMessage MOD_NAME_GCCOMMON MOD_MSG_CODE_STREAM_ERROR 0)).
Proof.
  apply (C3_pipeline_error_notifies_peer quiet_env drone_with_pending_error
           1%positive (mkMessage MOD_NAME_STREAM MOD_MSG_CODE_STREAM_ERROR 0)
           [] None).
  - reflexivity.
  - reflexivity.
  - reflexivity.
  - reflexivity.
  - reflexivity.
  - apply repr_init.
    + unfold is_size, SIZE_MOD, SIZE_BITS, NUM_NETWORK_MSGQ_SIZE. lia.
    + exists 4. split; [lia|reflexivity].
Defined.

End DroneProperties.

(** * Further properties of the code *)

(** ** Release of a queue *)

Section QueueRelease.

Import Machine MachineFacts Spec QueueFacts.

Lemma drain_repr l : ∀ fuel q heap,
  repr q l → (length l < fuel)%nat →
  ∃ q', drain fuel q heap
        = Some (Returned (q', foldl (λ h p, delete p h) heap l)) ∧
        repr q' [] ∧ size q' = size q.
Proof.
  induction l as [|m l IH]; intros fuel q heap Hr Hfuel;
    (destruct fuel as [|fuel]; [simpl in Hfuel; lia|]); simpl; unfold drain_step.
  - rewrite (repr_back_empty q Hr). eauto.
  - rewrite (repr_back_head q m l Hr).
    destruct (repr_take q m l Hr) as (q1 & -> & Hr1 & Hs1).
    destruct (IH fuel _ (delete m heap) Hr1) as (q' & Hd & Hr' & Hs');
      [simpl in Hfuel; lia|].
    exists q'. split_and!; [done|done|]. simpl in Hs'. lia.
Qed.

Lemma foldl_delete_lookup (l : list ptr) : ∀ (h : gmap ptr ModuleMessage_T) p,
  foldl (λ h p, delete p h) h l !! p = if decide (p ∈ l) then None else h !! p.
Proof.
  induction l as [|a l IH]; intros h p; cbn [foldl].
  - rewrite decide_False; [done|]. apply not_elem_of_nil.
  - rewrite IH. destruct (decide (p ∈ l)) as [Hin|Hnin].
    + rewrite decide_True; [done|]. by apply list_elem_of_further.
    + destruct (decide (p = a)) as [->|Hne].
      * rewrite lookup_delete_eq, decide_True; [done|]. apply list_elem_of_here.
      * rewrite lookup_delete_ne by done. rewrite decide_False; [done|].
        intros [?|?]%elem_of_cons; done.
Qed.

(** X1. [deinitModuleMessageQueue] releases every message still queued and
    nothing else, gives the buffer up and sets the size to 0; it returns -1
    exactly when the mutex or the condition variable cannot be destroyed. *)
Theorem deinit_releases_all (rc1 rc2 : Z) (q : ModuleMessageQueue_T)
    (heap : gmap ptr ModuleMessage_T) (l : list ptr)
    (Hr : repr q l) :
  ∃ q' heap',
    deinitModuleMessageQueue rc1 rc2 q heap
    = Some (Returned ((if decide (rc1 = 0 ∧ rc2 = 0) then 0 else -1), q', heap')) ∧
    messages q' = None ∧ size q' = 0 ∧
    ∀ p, heap' !! p = if decide (p ∈ l) then None else heap !! p.
Proof.
  unfold deinitModuleMessageQueue.
  destruct (drain_repr l (S (buffer_length q)) q heap Hr) as (q1 & -> & _).
  { pose proof (repr_len _ _ Hr) as Hlen.
    destruct (repr_inv _ _ Hr) as [_ _ (buf & Hb & Hl) _ _].
    unfold buffer_length. rewrite Hb. lia. }
  assert (Hrc : (if negb (rc1 =? 0) || negb (rc2 =? 0) then -1 else 0)
                = if decide (rc1 = 0 ∧ rc2 = 0) then 0 else -1).
  { destruct (Z.eqb_spec rc1 0), (Z.eqb_spec rc2 0); simpl;
      case_decide; try done; lia. }
  rewrite Hrc. eexists _, _.
  split_and!; [reflexivity|done|done|apply foldl_delete_lookup].
Qed.

Lemma repr_one_of_four :
  repr (mkQueue 4 1 0 (Some [Some 5%positive; None; None; None])) [5%positive].
Proof.
  split.
  - split; simpl; try lia.
    + exists 2. split; [lia|reflexivity].
    + unfold SIZE_MOD, SIZE_BITS. lia.
    + eexists. split; [reflexivity|reflexivity].
  - simpl. lia.
  - reflexivity.
  - simpl. intros i Hi.
    assert (i = 0 ∨ i = 1 ∨ i = 2 ∨ i = 3) as [->|[->|[->| ->]]] by lia;
      reflexivity.
Qed.

Lemma deinit_releases_all_witness :
  ∃ q' heap',
    deinitModuleMessageQueue 0 1
      (mkQueue 4 1 0 (Some [Some 5%positive; None; None; None]))
      {[ 5%positive := mkMessage MOD_NAME_STREAM MOD_MSG_CODE_STREAM_STOP 0;
         6%positive := mkMessage MOD_NAME_STREAM MOD_MSG_CODE_STREAM_START 0 ]}
    = Some (Returned ((if decide (0 = 0 ∧ 1 = 0) then 0 else -1), q', heap')) ∧
    messages q' = None ∧ size q' = 0 ∧
    ∀ p, heap' !! p
         = if decide (p ∈ [5%positive]) then None
           else ({[ 5%positive := mkMessage MOD_NAME_STREAM MOD_MSG_CODE_STREAM_STOP 0;
                    6%positive := mkMessage MOD_NAME_STREAM MOD_MSG_CODE_STREAM_START 0 ]}
                   : gmap ptr ModuleMessage_T) !! p.
Proof.
  apply (deinit_releases_all 0 1
           (mkQueue 4 1 0 (Some [Some 5%positive; None; None; None]))
           {[ 5%positive := mkMessage MOD_NAME_STREAM MOD_MSG_CODE_STREAM_STOP 0;
              6%positive := mkMessage MOD_NAME_STREAM MOD_MSG_CODE_STREAM_START 0 ]}
           [5%positive]).
  apply repr_one_of_four.
Defined.

End QueueRelease.

(** ** The decoder of the drone *)

Section DroneDecoder.

Import Machine MachineFacts Wire WireFacts Spec QueueFacts Drone.

#[local] Arguments insertModuleMessage : simpl never.

Lemma fresh_not_allocated (h : gmap ptr ModuleMessage_T) :
  h !! fresh (dom h) = None.
Proof. apply not_elem_of_dom, is_fresh. Qed.

(** A message allocated and released again leaves the heap as it was. *)
Lemma free_fresh (h : gmap ptr ModuleMessage_T) x y z :
  delete (fresh (dom h))
    (<[fresh (dom h) := x]> (<[fresh (dom h) := y]> (<[fresh (dom h) := z]> h))) = h.
Proof. rewrite !delete_insert_eq. apply delete_id, fresh_not_allocated. Qed.

Lemma free_fresh2 (h : gmap ptr ModuleMessage_T) x y :
  delete (fresh (dom h))
    (<[fresh (dom h) := x]> (<[fresh (dom h) := y]> h)) = h.
Proof. rewrite !delete_insert_eq. apply delete_id, fresh_not_allocated. Qed.

Lemma drone_eta d :
  mkDrone (heap d) (streamMsgq d) (networkMsgq d) (sock_rx d) (engine d)
    (currentCodingFormat d) = d.
Proof. by destruct d. Qed.

(** What [networkToStreamMessage] leaves when it fails. *)
Lemma networkToStreamMessage_fail e env sockFd c d rc d' :
  networkToStreamMessage e env sockFd c d = Returned (rc, d') → rc ≠ 0 →
  rc = -1 ∧ heap d' = heap d ∧ streamMsgq d' = streamMsgq d ∧
  networkMsgq d' = networkMsgq d ∧ engine d' = engine d ∧
  currentCodingFormat d' = currentCodingFormat d ∧ eof (sock_rx d') = eof (sock_rx d).
Proof.
  unfold networkToStreamMessage, calloc_message.
  destruct (sockFd <? 0); [by intros [= <- <-]|].
  destruct (calloc_succeeds env); [|by intros [= <- <-]].
  destruct (c =? MOD_MSG_CODE_STREAM_REQ).
  - destruct (recvTimeout (sock_rx d) sizeof_videoStreamPort) as [[n got] rx] eqn:Hrecv.
    assert (Heof : eof rx = eof (sock_rx d)).
    { unfold recvTimeout in Hrecv.
      destruct (take _ _); [destruct (eof (sock_rx d))|]; by injection Hrecv as _ _ <-. }
    destruct (size_of_int n <? sizeof_videoStreamPort).
    + intros [= <- <-] _. simpl. by rewrite free_fresh.
    + destruct (insertModuleMessage _ _ _ _) as [[rc' q]| |]; try done.
      intros [= <- <-] H. done.
  - destruct ((c =? MOD_MSG_CODE_STREAM_START) || (c =? MOD_MSG_CODE_STREAM_STOP)).
    + destruct (insertModuleMessage _ _ _ _) as [[rc' q]| |]; try done.
      intros [= <- <-] H. done.
    + intros [= <- <-] _. simpl. by rewrite free_fresh2.
Qed.

(** X2. Whenever the drone's [inputMessageHandler] rejects what it reads
    from a usable socket, it returns -1 having emptied the receive buffer of
    the socket, with the heap and both queues as they were: nothing stays
    allocated and nothing is queued. *)
Theorem inputMessageHandler_reject_clean (e : endianness) (env : StepEnv)
    (sockFd : Z) (d d' : DroneState) (rc : Z)
    (Hfd : 0 ≤ sockFd)
    (Hret : inputMessageHandler e env sockFd d = Returned (rc, d'))
    (Hrc : rc ≠ 0) :
  rc = -1 ∧ heap d' = heap d ∧ streamMsgq d' = streamMsgq d ∧
  networkMsgq d' = networkMsgq d ∧ engine d' = engine d ∧
  pending (sock_rx d') = [].
Proof.
  unfold inputMessageHandler in Hret.
  destruct (Z.ltb_spec sockFd 0) as [|_]; [lia|].
  destruct (recvTimeout (sock_rx d) sizeof_messageHeader) as [[n got] rx].
  destruct (n <? 0); [by injection Hret as <- <-|].
  destruct (field0 e _ =? MOD_NAME_STREAM); [|by injection Hret as <- <-].
  destruct (networkToStreamMessage _ _ _ _ _) as [[rc2 d2]| |] eqn:Hn; try done.
  destruct (Z.eqb_spec rc2 0) as [->|Hne]; simpl in Hret.
  - injection Hret as <- <-. done.
  - injection Hret as <- <-.
    apply networkToStreamMessage_fail in Hn as (_ & ? & ? & ? & ? & _); done.
Qed.

Lemma inputMessageHandler_reject_clean_witness :
  let d := receiving_drone (u32_pair_repr LittleEndian 9 3 ++ [x07])%list in
  let d' := with_sock_rx (receiving_drone []) (mkRx [] false) in
  (-1) = -1 ∧ heap d' = heap d ∧ streamMsgq d' = streamMsgq d ∧
  networkMsgq d' = networkMsgq d ∧ engine d' = engine d ∧
  pending (sock_rx d') = [].
Proof.
  apply (inputMessageHandler_reject_clean LittleEndian
           (mkStepEnv true true false false) 0
           (receiving_drone (u32_pair_repr LittleEndian 9 3 ++ [x07]))).
  - lia.
  - vm_compute. reflexivity.
  - lia.
Defined.

Lemma inputMessageHandler_header e env sockFd d module c rest :
  0 ≤ sockFd → pending (sock_rx d) = u32_pair_repr e module c ++ rest →
  inputMessageHandler e env sockFd d
  = if u32 module =? MOD_NAME_STREAM then
      match networkToStreamMessage e env sockFd (u32 c)
              (with_sock_rx d (mkRx rest (eof (sock_rx d)))) with
      | Returned (rc, d2) =>
          if negb (rc =? 0) then
            Returned (-1, with_sock_rx d2 (cleanupInputMessages (sock_rx d2)))
          else Returned (0, d2)
      | Suspended => Suspended
      | Fault => Fault
      end
    else Returned (-1, with_sock_rx d (mkRx [] (eof (sock_rx d)))).
Proof.
  intros Hfd Hpend. unfold inputMessageHandler, sizeof_messageHeader.
  destruct (Z.ltb_spec sockFd 0) as [|_]; [lia|].
  rewrite (recvTimeout_full _ _ _ 8 Hpend);
    [|by rewrite length_u32_pair_repr|done].
  rewrite store_received_all by (by rewrite !length_u32_pair_repr).
  rewrite field0_pair, field1_pair. change (8 <? 0) with false. cbv iota.
  destruct (u32 module =? MOD_NAME_STREAM); done.
Qed.

(** X3. A complete header that names another module than the stream module,
    or a code of the stream module that is none of request, start and stop,
    is rejected with -1: the rest of the receive buffer is discarded and the
    process state is otherwise unchanged, whether or not the message object
    could be allocated. *)
Theorem inputMessageHandler_rejects_unknown (e : endianness) (env : StepEnv)
    (sockFd : Z) (d : DroneState) (module c : Z) (rest : list byte)
    (Hfd : 0 ≤ sockFd)
    (Hpend : pending (sock_rx d) = u32_pair_repr e module c ++ rest)
    (Hbad : u32 module ≠ MOD_NAME_STREAM ∨
            (u32 c ≠ MOD_MSG_CODE_STREAM_REQ ∧ u32 c ≠ MOD_MSG_CODE_STREAM_START ∧
             u32 c ≠ MOD_MSG_CODE_STREAM_STOP)) :
  inputMessageHandler e env sockFd d
  = Returned (-1, with_sock_rx d (mkRx [] (eof (sock_rx d)))).
Proof.
  rewrite (inputMessageHandler_header e env sockFd d module c rest Hfd Hpend).
  destruct (Z.eqb_spec (u32 module) MOD_NAME_STREAM) as [Hm|Hm]; [|done].
  destruct Hbad as [?|(H1 & H2 & H3)]; [done|].
  unfold networkToStreamMessage, calloc_message.
  destruct (Z.ltb_spec sockFd 0) as [|_]; [lia|].
  destruct (calloc_succeeds env); [|done].
  destruct (Z.eqb_spec (u32 c) MOD_MSG_CODE_STREAM_REQ); [done|].
  destruct (Z.eqb_spec (u32 c) MOD_MSG_CODE_STREAM_START); [done|].
  destruct (Z.eqb_spec (u32 c) MOD_MSG_CODE_STREAM_STOP); [done|].
  simpl. unfold with_sock_rx, with_heap. simpl. by rewrite free_fresh2.
Qed.

Lemma inputMessageHandler_rejects_unknown_witness :
  inputMessageHandler BigEndian (mkStepEnv true true false false) 3
    (receiving_drone (u32_pair_repr BigEndian MOD_NAME_STREAM
                        MOD_MSG_CODE_STREAM_TYPE ++ [x01; x02]))
  = Returned (-1,
      with_sock_rx
        (receiving_drone (u32_pair_repr BigEndian MOD_NAME_STREAM
                            MOD_MSG_CODE_STREAM_TYPE ++ [x01; x02]))
        (mkRx [] (eof (sock_rx
           (receiving_drone (u32_pair_repr BigEndian MOD_NAME_STREAM
                               MOD_MSG_CODE_STREAM_TYPE ++ [x01; x02])))))).
Proof.
  apply (inputMessageHandler_rejects_unknown BigEndian
           (mkStepEnv true true false false) 3 _ MOD_NAME_STREAM
           MOD_MSG_CODE_STREAM_TYPE [x01; x02]).
  - lia.
  - reflexivity.
  - right. vm_compute. repeat split; discriminate.
Defined.

(** A stream-start or stream-stop header on the socket is decoded. *)
Lemma decode_start_stop e env sockFd d c l rest :
  0 ≤ sockFd → calloc_succeeds env = true → stream_lock_busy env = false →
  c = MOD_MSG_CODE_STREAM_START ∨ c = MOD_MSG_CODE_STREAM_STOP →
  repr (streamMsgq d) l → Z.of_nat (length l) < size (streamMsgq d) →
  pending (sock_rx d) = u32_pair_repr e MOD_NAME_STREAM c ++ rest →
  ∃ q',
    inputMessageHandler e env sockFd d
    = Returned (0,
        mkDrone (<[fresh (dom (heap d)) := mkMessage MOD_NAME_STREAM c 0]> (heap d))
          q' (networkMsgq d) (mkRx rest (eof (sock_rx d))) (engine d)
          (currentCodingFormat d)) ∧
    repr q' (l ++ [fresh (dom (heap d))]).
Proof.
  intros Hfd Hcalloc Hlock Hc Hr Hroom Hpend.
  rewrite (inputMessageHandler_header e env sockFd d _ c rest Hfd Hpend).
  change (u32 MOD_NAME_STREAM =? MOD_NAME_STREAM) with true. cbv iota.
  assert (Hu : u32 c = c) by (by destruct Hc as [-> | ->]).
  rewrite Hu. unfold networkToStreamMessage, calloc_message.
  destruct (Z.ltb_spec sockFd 0) as [|_]; [lia|].
  rewrite Hcalloc, Hlock.
  assert (Hreq : (c =? MOD_MSG_CODE_STREAM_REQ) = false)
    by (by destruct Hc as [-> | ->]).
  assert (Hss : (c =? MOD_MSG_CODE_STREAM_START) || (c =? MOD_MSG_CODE_STREAM_STOP)
                = true) by (by destruct Hc as [-> | ->]).
  rewrite Hreq, Hss.
  cbn [streamMsgq heap sock_rx with_heap with_sock_rx].
  destruct (insert_block_repr (streamMsgq d) l (fresh (dom (heap d))) Hr Hroom)
    as (q' & -> & Hr' & _).
  exists q'. split; [|done]. simpl.
  unfold with_streamMsgq, with_sock_rx, with_heap. simpl.
  by rewrite insert_insert_eq.
Qed.

(** X4. A stream-start or stream-stop header is decoded into a message of
    that code for the stream module, appended to [streamMsgq]; exactly the
    eight bytes of the header are taken from the socket, so the bytes of the
    next message stay in place. *)
Theorem inputMessageHandler_start_stop (e : endianness) (env : StepEnv)
    (sockFd : Z) (d : DroneState) (c : Z) (l : list ptr) (rest : list byte)
    (Hfd : 0 ≤ sockFd)
    (Hcalloc : calloc_succeeds env = true)
    (Hlock : stream_lock_busy env = false)
    (Hc : c = MOD_MSG_CODE_STREAM_START ∨ c = MOD_MSG_CODE_STREAM_STOP)
    (Hr : repr (streamMsgq d) l)
    (Hroom : Z.of_nat (length l) < size (streamMsgq d))
    (Hpend : pending (sock_rx d) = u32_pair_repr e MOD_NAME_STREAM c ++ rest) :
  ∃ q',
    inputMessageHandler e env sockFd d
    = Returned (0,
        mkDrone (<[fresh (dom (heap d)) := mkMessage MOD_NAME_STREAM c 0]> (heap d))
          q' (networkMsgq d) (mkRx rest (eof (sock_rx d))) (engine d)
          (currentCodingFormat d)) ∧
    repr q' (l ++ [fresh (dom (heap d))]).
Proof. by apply decode_start_stop. Qed.

Lemma inputMessageHandler_start_stop_witness :
  ∃ q',
    inputMessageHandler LittleEndian quiet_env 0
      (receiving_drone (u32_pair_repr LittleEndian MOD_NAME_STREAM
                          MOD_MSG_CODE_STREAM_STOP ++ [x02; x00]))
    = Returned (0,
        mkDrone
          (<[fresh (dom (∅ : gmap ptr ModuleMessage_T)) :=
               mkMessage MOD_NAME_STREAM MOD_MSG_CODE_STREAM_STOP 0]> ∅)
          q' (fresh_queue NUM_NETWORK_MSGQ_SIZE) (mkRx [x02; x00] false) []
          CAM_FMT_UNK) ∧
    repr q' ([] ++ [fresh (dom (∅ : gmap ptr ModuleMessage_T))]).
Proof.
  apply (inputMessageHandler_start_stop LittleEndian quiet_env 0
           (receiving_drone (u32_pair_repr LittleEndian MOD_NAME_STREAM
                               MOD_MSG_CODE_STREAM_STOP ++ [x02; x00]))
           MOD_MSG_CODE_STREAM_STOP [] [x02; x00]).
  - lia.
  - reflexivity.
  - reflexivity.
  - by right.
  - apply repr_init.
    + unfold is_size, SIZE_MOD, SIZE_BITS, NUM_STREAM_MSGQ_SIZE. lia.
    + exists 3. split; [lia|reflexivity].
  - simpl. unfold NUM_STREAM_MSGQ_SIZE. lia.
  - reflexivity.
Defined.

(** X5. A stream request whose port does not arrive in full. When some but
    not all of the four bytes arrive, or the peer has closed the connection,
    the request is rejected with -1 and the message object is released. When
    nothing arrives before the timeout, [recv] returns -1, the unsigned length
    test lets it pass, and a request for port 0 is queued with return value
    0. *)
Theorem inputMessageHandler_request_without_port (e : endianness) (env : StepEnv)
    (sockFd : Z) (d : DroneState) (l : list ptr) (partial : list byte)
    (Hfd : 0 ≤ sockFd)
    (Hcalloc : calloc_succeeds env = true)
    (Hlock : stream_lock_busy env = false)
    (Hr : repr (streamMsgq d) l)
    (Hroom : Z.of_nat (length l) < size (streamMsgq d))
    (Hpartial : (length partial < 4)%nat)
    (Hpend : pending (sock_rx d) = GroundControl.requestStream_header e ++ partial) :
  (partial ≠ [] ∨ eof (sock_rx d) = true →
   inputMessageHandler e env sockFd d
   = Returned (-1, with_sock_rx d (mkRx [] (eof (sock_rx d))))) ∧
  (partial = [] → eof (sock_rx d) = false →
   ∃ q',
     inputMessageHandler e env sockFd d
     = Returned (0,
         mkDrone
           (<[fresh (dom (heap d)) :=
                mkMessage MOD_NAME_STREAM MOD_MSG_CODE_STREAM_REQ 0]> (heap d))
           q' (networkMsgq d) (mkRx [] false) (engine d)
           (currentCodingFormat d)) ∧
     repr q' (l ++ [fresh (dom (heap d))])).
Proof.
  unfold GroundControl.requestStream_header in Hpend.
  rewrite (inputMessageHandler_header e env sockFd d _ _ partial Hfd Hpend).
  change (u32 MOD_NAME_STREAM =? MOD_NAME_STREAM) with true. cbv iota.
  change (u32 MOD_MSG_CODE_STREAM_REQ) with MOD_MSG_CODE_STREAM_REQ.
  unfold networkToStreamMessage, calloc_message.
  destruct (Z.ltb_spec sockFd 0) as [|_]; [lia|].
  rewrite Hcalloc, Hlock.
  change (MOD_MSG_CODE_STREAM_REQ =? MOD_MSG_CODE_STREAM_REQ) with true. cbv iota.
  unfold recvTimeout, sizeof_videoStreamPort. simpl sock_rx. simpl pending.
  simpl eof. change (Z.to_nat 4) with 4%nat.
  rewrite take_ge, drop_ge by lia.
  split.
  - intros Hcase. destruct partial as [|b partial].
    + destruct Hcase as [?|Heof]; [done|]. rewrite Heof.
      change (size_of_int 0 <? 4) with true. cbv iota. simpl.
      unfold with_sock_rx, with_heap. simpl. by rewrite free_fresh.
    + assert (Hlt : (size_of_int (Z.of_nat (length (b :: partial))) <? 4) = true).
      { apply Z.ltb_lt. rewrite size_of_int_small; simpl in *; lia. }
      rewrite Hlt. simpl.
      unfold with_sock_rx, with_heap. simpl. by rewrite free_fresh.
  - intros -> Heof. rewrite Heof.
    change (size_of_int (-1) <? 4) with false. cbv iota.
    rewrite store_received_nil, u32_value_repr. change (u32 0) with 0.
    cbn [streamMsgq heap sock_rx with_heap with_sock_rx].
    destruct (insert_block_repr (streamMsgq d) l (fresh (dom (heap d))) Hr Hroom)
      as (q' & -> & Hr' & _).
    exists q'. split; [|done]. simpl.
    unfold with_streamMsgq, with_sock_rx, with_heap. simpl.
    by rewrite !insert_insert_eq.
Qed.

Lemma inputMessageHandler_request_without_port_witness :
  let d := receiving_drone (GroundControl.requestStream_header LittleEndian ++ []) in
  (@nil byte ≠ [] ∨ eof (sock_rx d) = true →
   inputMessageHandler LittleEndian quiet_env 0 d
   = Returned (-1, with_sock_rx d (mkRx [] (eof (sock_rx d))))) ∧
  (@nil byte = [] → eof (sock_rx d) = false →
   ∃ q',
     inputMessageHandler LittleEndian quiet_env 0 d
     = Returned (0,
         mkDrone
           (<[fresh (dom (heap d)) :=
                mkMessage MOD_NAME_STREAM MOD_MSG_CODE_STREAM_REQ 0]> (heap d))
           q' (networkMsgq d) (mkRx [] false) (engine d)
           (currentCodingFormat d)) ∧
     repr q' ([] ++ [fresh (dom (heap d))])).
Proof.
  apply (inputMessageHandler_request_without_port LittleEndian quiet_env 0
           (receiving_drone (GroundControl.requestStream_header LittleEndian ++ [])) [] []).
  - lia.
  - reflexivity.
  - reflexivity.
  - apply repr_init.
    + unfold is_size, SIZE_MOD, SIZE_BITS, NUM_STREAM_MSGQ_SIZE. lia.
    + exists 3. split; [lia|reflexivity].
  - simpl. unfold NUM_STREAM_MSGQ_SIZE. lia.
  - simpl. lia.
  - reflexivity.
Defined.

End DroneDecoder.

(** ** The writer thread of the drone *)

Section DroneWriter.

Import Machine MachineFacts Wire WireFacts Spec QueueFacts NetworkOut.

#[local] Arguments insertModuleMessage : simpl never.
#[local] Arguments removeModuleMessage : simpl never.

(** X6. [gccommonMessageToNetwork] always sends the header made of the
    address and the code of the message first, and the coding format after it
    for a STREAM_TYPE message. It returns 0 only for the codes STREAM_TYPE and
    STREAM_ERROR; for any other code the header is on the wire all the same.
    A short [send] is reported with -1, but a [send] that fails with -1 is
    not: the unsigned length test takes it for a complete one. *)
Theorem gccommonMessageToNetwork_result (e : endianness) (env : SendEnv)
    (sockFd : Z) (m : ptr) (h : gmap ptr ModuleMessage_T) (msg : ModuleMessage_T)
    (Hmsg : h !! m = Some msg)
    (Hlock : socket_lock_busy env = false)
    (Hhdr : -1 ≤ send_header_rc env ≤ 8)
    (Hdat : -1 ≤ send_data_rc env ≤ 4) :
  let header := Send sockFd (u32_pair_repr e (address msg) (code msg)) in
  let format := Send sockFd (u32_repr e (codingFormat msg)) in
  ∃ rc tr,
    gccommonMessageToNetwork e env sockFd (Some m) h = Returned (rc, tr) ∧
    (rc = 0 ∨ rc = -1) ∧
    head tr = Some header ∧
    (rc = 0 ↔
       (send_header_rc env = 8 ∨ send_header_rc env = -1) ∧
       (code msg = MOD_MSG_CODE_STREAM_ERROR ∨
        (code msg = MOD_MSG_CODE_STREAM_TYPE ∧
         (send_data_rc env = 4 ∨ send_data_rc env = -1)))) ∧
    (rc = 0 →
       tr = if decide (code msg = MOD_MSG_CODE_STREAM_TYPE)
            then [header; format] else [header]).
Proof.
  intros header format. unfold gccommonMessageToNetwork.
  rewrite Hmsg, Hlock.
  unfold MOD_MSG_CODE_STREAM_TYPE, MOD_MSG_CODE_STREAM_ERROR in *.
  assert (Hh : (size_of_int (send_header_rc env) <? 8) = true ∧
               0 ≤ send_header_rc env < 8 ∨
               (size_of_int (send_header_rc env) <? 8) = false ∧
               ¬ 0 ≤ send_header_rc env < 8).
  { destruct (decide (send_header_rc env = -1)) as [->|].
    - right. split; [reflexivity|lia].
    - rewrite size_of_int_small by lia.
      destruct (Z.ltb_spec (send_header_rc env) 8); [left|right]; split; lia. }
  assert (Hd : (size_of_int (send_data_rc env) <? 4) = true ∧
               0 ≤ send_data_rc env < 4 ∨
               (size_of_int (send_data_rc env) <? 4) = false ∧
               ¬ 0 ≤ send_data_rc env < 4).
  { destruct (decide (send_data_rc env = -1)) as [->|].
    - right. split; [reflexivity|lia].
    - rewrite size_of_int_small by lia.
      destruct (Z.ltb_spec (send_data_rc env) 4); [left|right]; split; lia. }
  destruct Hh as [[-> Hh]|[-> Hh]], Hd as [[Ed Hd]|[Ed Hd]];
    destruct (Z.eqb_spec (code msg) 7) as [Hc|Hc];
    try destruct (Z.eqb_spec (code msg) 4) as [Hc4|Hc4];
    rewrite ?Ed;
    destruct (decide (code msg = 7)); try lia;
    eexists _, _; (split; [reflexivity|]);
    (split_and!; [lia|reflexivity|split; intros; lia|intros; (done || lia)]).
Qed.

Lemma gccommonMessageToNetwork_result_witness :
  let msg := mkMessage MOD_NAME_GCCOMMON MOD_MSG_CODE_STREAM_ERROR 0 in
  let env := mkSendEnv false (-1) 0 in
  let header := Send 6 (u32_pair_repr BigEndian (address msg) (code msg)) in
  let format := Send 6 (u32_repr BigEndian (codingFormat msg)) in
  ∃ rc tr,
    gccommonMessageToNetwork BigEndian env 6 (Some 2%positive)
      {[ 2%positive := msg ]} = Returned (rc, tr) ∧
    (rc = 0 ∨ rc = -1) ∧
    head tr = Some header ∧
    (rc = 0 ↔
       (send_header_rc env = 8 ∨ send_header_rc env = -1) ∧
       (code msg = MOD_MSG_CODE_STREAM_ERROR ∨
        (code msg = MOD_MSG_CODE_STREAM_TYPE ∧
         (send_data_rc env = 4 ∨ send_data_rc env = -1)))) ∧
    (rc = 0 →
       tr = if decide (code msg = MOD_MSG_CODE_STREAM_TYPE)
            then [header; format] else [header]).
Proof.
  apply (gccommonMessageToNetwork_result BigEndian (mkSendEnv false (-1) 0) 6
           2%positive {[ 2%positive := mkMessage MOD_NAME_GCCOMMON
                                         MOD_MSG_CODE_STREAM_ERROR 0 ]}
           (mkMessage MOD_NAME_GCCOMMON MOD_MSG_CODE_STREAM_ERROR 0)).
  - reflexivity.
  - reflexivity.
  - simpl. lia.
  - simpl. lia.
Defined.

(** A turn of the writer thread on the message at the head of
    [networkMsgq]. *)
Lemma writer_head e env senv sockFd message d p l msg :
  network_lock_busy env = false → socket_lock_busy senv = false →
  repr (networkMsgq d) (p :: l) → heap d !! p = Some msg →
  ∃ q' tr,
    threadFuncNetworkOut_turn e env senv sockFd message d
    = Returned (None,
        mkDrone (delete p (heap d)) (streamMsgq d) q' (sock_rx d) (engine d)
          (currentCodingFormat d), tr) ∧
    repr q' l ∧
    (address msg ≠ MOD_NAME_GCCOMMON → tr = []) ∧
    (address msg = MOD_NAME_GCCOMMON →
     ∃ rc, gccommonMessageToNetwork e senv sockFd (Some p) (heap d)
           = Returned (rc, tr)).
Proof.
  intros Hlock Hsock Hr Hmsg.
  unfold threadFuncNetworkOut_turn. rewrite Hlock.
  unfold removeModuleMessage. simpl negb. cbv iota.
  rewrite (repr_back_head _ _ _ Hr).
  destruct (repr_take _ _ _ Hr) as (q1 & -> & Hr1 & _).
  cbn [negb Z.eqb heap with_networkMsgq]. rewrite Hmsg.
  destruct (Z.eqb_spec (address msg) MOD_NAME_GCCOMMON) as [Ha|Ha].
  - unfold gccommonMessageToNetwork. rewrite Hmsg, Hsock.
    repeat match goal with
           | |- context [if ?b then _ else _] => destruct b
           end; eexists _, _; (split_and!; [done|done|done|eauto]).
  - eexists _, _. split_and!; [done|done|done|done].
Qed.

(** X7. A turn of the writer thread takes the oldest message of
    [networkMsgq] and releases it, whatever becomes of it on the wire. A
    message addressed to the common module of the ground control is handed to
    [gccommonMessageToNetwork]; a message with any other address is released
    without a byte being sent. *)
Theorem threadFuncNetworkOut_turn_releases (e : endianness) (env : StepEnv)
    (senv : SendEnv) (sockFd : Z) (message : option ptr) (d : DroneState)
    (p : ptr) (l : list ptr) (msg : ModuleMessage_T)
    (Hlock : network_lock_busy env = false)
    (Hsock : socket_lock_busy senv = false)
    (Hr : repr (networkMsgq d) (p :: l))
    (Hmsg : heap d !! p = Some msg) :
  ∃ q' tr,
    threadFuncNetworkOut_turn e env senv sockFd message d
    = Returned (None,
        mkDrone (delete p (heap d)) (streamMsgq d) q' (sock_rx d) (engine d)
          (currentCodingFormat d), tr) ∧
    repr q' l ∧
    (address msg ≠ MOD_NAME_GCCOMMON → tr = []) ∧
    (address msg = MOD_NAME_GCCOMMON →
     ∃ rc, gccommonMessageToNetwork e senv sockFd (Some p) (heap d)
           = Returned (rc, tr)).
Proof. by apply writer_head. Qed.

Lemma threadFuncNetworkOut_turn_releases_witness :
  let d := mkDrone
             {[ 5%positive := mkMessage MOD_NAME_NETWORK MOD_MSG_CODE_STREAM_ERROR 0 ]}
             (fresh_queue 8)
             (mkQueue 4 1 0 (Some [Some 5%positive; None; None; None]))
             (mkRx [] false) [] CAM_FMT_UNK in
  let msg := mkMessage MOD_NAME_NETWORK MOD_MSG_CODE_STREAM_ERROR 0 in
  ∃ q' tr,
    threadFuncNetworkOut_turn LittleEndian quiet_env (mkSendEnv false 8 4) 6 None d
    = Returned (None,
        mkDrone (delete 5%positive (heap d)) (streamMsgq d) q' (sock_rx d)
          (engine d) (currentCodingFormat d), tr) ∧
    repr q' [] ∧
    (address msg ≠ MOD_NAME_GCCOMMON → tr = []) ∧
    (address msg = MOD_NAME_GCCOMMON →
     ∃ rc, gccommonMessageToNetwork LittleEndian (mkSendEnv false 8 4) 6
             (Some 5%positive) (heap d) = Returned (rc, tr)).
Proof.
  apply (threadFuncNetworkOut_turn_releases LittleEndian quiet_env
           (mkSendEnv false 8 4) 6 None
           (mkDrone
              {[ 5%positive := mkMessage MOD_NAME_NETWORK MOD_MSG_CODE_STREAM_ERROR 0 ]}
              (fresh_queue 8)
              (mkQueue 4 1 0 (Some [Some 5%positive; None; None; None]))
              (mkRx [] false) [] CAM_FMT_UNK)
           5%positive []
           (mkMessage MOD_NAME_NETWORK MOD_MSG_CODE_STREAM_ERROR 0)).
  - reflexivity.
  - reflexivity.
  - apply repr_one_of_four.
  - reflexivity.
Defined.

End DroneWriter.

(** ** The threads of the drone together *)

Section DroneSystemProperties.

Import Machine MachineFacts Wire WireFacts Spec QueueFacts DroneSystem.

#[local] Arguments insertModuleMessage : simpl never.
#[local] Arguments removeModuleMessage : simpl never.

(** A blocking insert into a queue that holds [l] waits or appends. *)
Lemma insert_block_cases q l m busy :
  repr q l →
  insertModuleMessage q (Some m) MOD_MSGQ_BLOCK busy = Suspended ∨
  ∃ q', insertModuleMessage q (Some m) MOD_MSGQ_BLOCK busy = Returned (0, q') ∧
        repr q' (l ++ [m]).
Proof.
  intros Hr. destruct busy; [by left|].
  destruct (decide (Z.of_nat (length l) < size q)) as [Hlt|Hge].
  - right. destruct (insert_block_repr q l m Hr Hlt) as (q' & ? & ? & _). eauto.
  - left. pose proof (repr_len _ _ Hr).
    destruct (repr_front_full q l Hr ltac:(lia)) as [m' Hm'].
    unfold insertModuleMessage. simpl. by rewrite Hm'.
Qed.

(** A blocking remove from a queue that holds [l] waits or takes the head. *)
Lemma remove_block_cases q l busy :
  repr q l →
  removeModuleMessage q MOD_MSGQ_BLOCK busy = Suspended ∨
  ∃ p l' q', l = p :: l' ∧
             removeModuleMessage q MOD_MSGQ_BLOCK busy = Returned (0, q', Some p) ∧
             repr q' l'.
Proof.
  intros Hr. destruct busy; [by left|].
  destruct l as [|p l'].
  - left. unfold removeModuleMessage. simpl. by rewrite (repr_back_empty _ Hr).
  - right. unfold removeModuleMessage. simpl.
    rewrite (repr_back_head _ _ _ Hr).
    destruct (repr_take _ _ _ Hr) as (q1 & -> & Hr1 & _).
    by exists p, l', (with_back q1 (advance q1 (back q1))).
Qed.

(** *** The heap and the two queues *)

Lemma fresh_not_queued h f ls ln :
  messages_inv h f ls ln → fresh (dom h) ∉ ls ++ ln.
Proof.
  intros [_ Hh _ _] Hin%Hh. rewrite fresh_not_allocated in Hin. by destruct Hin.
Qed.

Lemma messages_alloc_stream h f ls ln msg :
  messages_inv h f ls ln →
  address msg = MOD_NAME_STREAM → is_Some (event_of_code (code msg)) →
  messages_inv (<[fresh (dom h) := msg]> h) f (ls ++ [fresh (dom h)]) ln.
Proof.
  intros Hinv Ha Hc. pose proof (fresh_not_queued _ _ _ _ Hinv) as Hnotin.
  pose proof (fresh_not_allocated h) as Hfresh.
  destruct Hinv as [Hnd Hh Hs Hn].
  apply not_elem_of_app in Hnotin as [Hnls Hnln].
  split.
  - apply NoDup_app in Hnd as (Hnd1 & Hnd2 & Hnd3).
    apply NoDup_app. split_and!; [|
      intros x [Hx| ->%list_elem_of_singleton]%elem_of_app; [by apply Hnd2|done] |done].
    apply NoDup_app. split_and!; [done| |apply NoDup_singleton].
    by intros x Hx ->%list_elem_of_singleton.
  - intros p. rewrite !elem_of_app, list_elem_of_singleton.
    destruct (decide (p = fresh (dom h))) as [->|Hne].
    + rewrite lookup_insert_eq. split; [tauto|eauto].
    + rewrite lookup_insert_ne by done. rewrite Hh, elem_of_app. tauto.
  - intros p [Hin| ->%list_elem_of_singleton]%elem_of_app.
    + destruct (Hs p Hin) as (m & Hm & ?).
      exists m. rewrite lookup_insert_ne; [done|]. intros <-. congruence.
    + exists msg. by rewrite lookup_insert_eq.
  - intros p Hin. destruct (Hn p Hin) as (m & Hm & ?).
    exists m. rewrite lookup_insert_ne; [done|]. intros <-. congruence.
Qed.

Lemma messages_alloc_network h f ls ln msg :
  messages_inv h f ls ln →
  address msg = MOD_NAME_GCCOMMON →
  code msg = MOD_MSG_CODE_STREAM_ERROR ∨
  code msg = MOD_MSG_CODE_STREAM_TYPE ∧ codingFormat msg = f →
  messages_inv (<[fresh (dom h) := msg]> h) f ls (ln ++ [fresh (dom h)]).
Proof.
  intros Hinv Ha Hc. pose proof (fresh_not_queued _ _ _ _ Hinv) as Hnotin.
  pose proof (fresh_not_allocated h) as Hfresh.
  destruct Hinv as [Hnd Hh Hs Hn].
  apply not_elem_of_app in Hnotin as [Hnls Hnln].
  split.
  - apply NoDup_app in Hnd as (Hnd1 & Hnd2 & Hnd3).
    apply NoDup_app. split_and!; [done| |].
    + intros x Hx [Hx'| ->%list_elem_of_singleton]%elem_of_app; [by eapply Hnd2|done].
    + apply NoDup_app. split_and!; [done| |apply NoDup_singleton].
      by intros x Hx ->%list_elem_of_singleton.
  - intros p. rewrite !elem_of_app, list_elem_of_singleton.
    destruct (decide (p = fresh (dom h))) as [->|Hne].
    + rewrite lookup_insert_eq. split; [tauto|eauto].
    + rewrite lookup_insert_ne by done. rewrite Hh, elem_of_app. tauto.
  - intros p Hin. destruct (Hs p Hin) as (m & Hm & ?).
    exists m. rewrite lookup_insert_ne; [done|]. intros <-. congruence.
  - intros p [Hin| ->%list_elem_of_singleton]%elem_of_app.
    + destruct (Hn p Hin) as (m & Hm & ?).
      exists m. rewrite lookup_insert_ne; [done|]. intros <-. congruence.
    + exists msg. by rewrite lookup_insert_eq.
Qed.

Lemma messages_free_stream h f p ls ln :
  messages_inv h f (p :: ls) ln → messages_inv (delete p h) f ls ln.
Proof.
  intros [Hnd Hh Hs Hn]. simpl in Hnd. apply NoDup_cons in Hnd as [Hp Hnd].
  split; [done| | |].
  - intros x. destruct (decide (x = p)) as [->|Hne].
    + rewrite lookup_delete_eq. split; [by intros []|done].
    + rewrite lookup_delete_ne by done. rewrite Hh. simpl.
      rewrite elem_of_cons. tauto.
  - intros x Hin. destruct (Hs x) as (m & Hm & ?); [by right|].
    exists m. rewrite lookup_delete_ne; [done|].
    intros <-. apply Hp, elem_of_app. by left.
  - intros x Hin. destruct (Hn x Hin) as (m & Hm & ?).
    exists m. rewrite lookup_delete_ne; [done|].
    intros <-. apply Hp, elem_of_app. by right.
Qed.

Lemma messages_free_network h f p ls ln :
  messages_inv h f ls (p :: ln) → messages_inv (delete p h) f ls ln.
Proof.
  intros [Hnd Hh Hs Hn].
  apply NoDup_app in Hnd as (Hnd1 & Hnd2 & [Hp Hnd3]%NoDup_cons).
  split.
  - apply NoDup_app. split_and!; [done| |done].
    intros x Hx Hx'. apply (Hnd2 x Hx). by right.
  - intros x. destruct (decide (x = p)) as [->|Hne].
    + rewrite lookup_delete_eq. split; [by intros []|].
      intros [Hx|Hx]%elem_of_app; [|done]. exfalso. apply (Hnd2 p Hx). by left.
    + rewrite lookup_delete_ne by done. rewrite Hh, !elem_of_app, elem_of_cons.
      tauto.
  - intros x Hin. destruct (Hs x Hin) as (m & Hm & ?).
    exists m. rewrite lookup_delete_ne; [done|].
    intros <-. apply (Hnd2 p Hin). by left.
  - intros x Hin. destruct (Hn x) as (m & Hm & ?); [by right|].
    exists m. rewrite lookup_delete_ne; [done|]. by intros <-.
Qed.

(** The message at the head of [streamMsgq] goes over to [networkMsgq] as a
    pipeline error for the ground control. *)
Lemma messages_forward h f p ls ln msg :
  messages_inv h f (p :: ls) ln → h !! p = Some msg →
  code msg = MOD_MSG_CODE_STREAM_ERROR →
  messages_inv (<[p := mkMessage MOD_NAME_GCCOMMON (code msg) (data msg)]> h) f
    ls (ln ++ [p]).
Proof.
  intros [Hnd Hh Hs Hn] Hmsg Hcode. simpl in Hnd.
  apply NoDup_cons in Hnd as [Hp Hnd].
  apply not_elem_of_app in Hp as [Hpls Hpln].
  split.
  - apply NoDup_app in Hnd as (Hnd1 & Hnd2 & Hnd3).
    apply NoDup_app. split_and!; [done| |].
    + intros x Hx [Hx'| ->%list_elem_of_singleton]%elem_of_app; [by eapply Hnd2|done].
    + apply NoDup_app. split_and!; [done| |apply NoDup_singleton].
      by intros x Hx ->%list_elem_of_singleton.
  - intros x. rewrite !elem_of_app, list_elem_of_singleton.
    destruct (decide (x = p)) as [->|Hne].
    + rewrite lookup_insert_eq. split; [tauto|eauto].
    + rewrite lookup_insert_ne by done. rewrite Hh. simpl.
      rewrite elem_of_cons, elem_of_app. tauto.
  - intros x Hin. destruct (Hs x) as (m & Hm & ?); [by right|].
    exists m. rewrite lookup_insert_ne; [done|]. by intros <-.
  - intros x [Hin| ->%list_elem_of_singleton]%elem_of_app.
    + destruct (Hn x Hin) as (m & Hm & ?).
      exists m. rewrite lookup_insert_ne; [done|]. by intros <-.
    + eexists. rewrite lookup_insert_eq. split; [done|]. simpl. by split; [|left].
Qed.

(** *** The calls of the reader thread and of the media engine *)

Lemma networkToStreamMessage_safe e env sockFd c d f ls ln :
  drone_inv f d ls ln →
  safely (λ '(rc, d'),
            (∃ ls', drone_inv f (with_sock_rx d' (sock_rx d)) ls' ln) ∧
            engine d' = engine d)
    (networkToStreamMessage e env sockFd c d).
Proof.
  intros [Hs Hn Hm Hf]. unfold networkToStreamMessage.
  destruct (sockFd <? 0); [by simpl; split; [exists ls; destruct d|]|].
  unfold calloc_message. destruct (calloc_succeeds env);
    [|by simpl; split; [exists ls; destruct d|]].
  set (p := fresh (dom (heap d))).
  assert (Hins : ∀ d1 msg,
    streamMsgq d1 = streamMsgq d → networkMsgq d1 = networkMsgq d →
    currentCodingFormat d1 = currentCodingFormat d → engine d1 = engine d →
    heap d1 = <[p := msg]> (heap d) →
    address msg = MOD_NAME_STREAM → is_Some (event_of_code (code msg)) →
    safely (λ '(rc, d'),
              (∃ ls', drone_inv f (with_sock_rx d' (sock_rx d)) ls' ln) ∧
              engine d' = engine d)
      match insertModuleMessage (streamMsgq d1) (Some p) MOD_MSGQ_BLOCK
              (stream_lock_busy env) with
      | Returned (_, q) => Returned (0, with_streamMsgq d1 q)
      | Suspended => Suspended
      | Fault => Fault
      end).
  { intros d1 msg Hq1 Hq2 Hq3 Hq4 Hh Ha Hc. rewrite Hq1.
    destruct (insert_block_cases (streamMsgq d) ls p (stream_lock_busy env) Hs)
      as [->|(q' & -> & Hr')]; [done|].
    simpl. split; [|done]. exists (ls ++ [p]).
    split; simpl; [done|by rewrite Hq2| |by rewrite Hq3].
    rewrite Hh. by apply messages_alloc_stream. }
  destruct (Z.eqb_spec c MOD_MSG_CODE_STREAM_REQ) as [->|Hreq].
  - destruct (recvTimeout (sock_rx d) sizeof_videoStreamPort) as [[len received] rx].
    destruct (size_of_int len <? sizeof_videoStreamPort).
    + simpl. split; [|done]. exists ls. fold p.
      rewrite !insert_insert_eq, delete_insert_id by apply fresh_not_allocated.
      by destruct d.
    + apply Hins with (msg := mkMessage MOD_NAME_STREAM MOD_MSG_CODE_STREAM_REQ
             (u32_value e (store_received (u32_repr e 0) received))); try done.
      simpl. by rewrite !insert_insert_eq.
  - destruct ((c =? MOD_MSG_CODE_STREAM_START) || (c =? MOD_MSG_CODE_STREAM_STOP))
      eqn:Hc.
    + apply Hins with (msg := mkMessage MOD_NAME_STREAM c 0); try done.
      * simpl. by rewrite !insert_insert_eq.
      * simpl. unfold event_of_code.
        apply orb_true_iff in Hc as [->%Z.eqb_eq| ->%Z.eqb_eq]; by eexists.
    + simpl. split; [|done]. exists ls. fold p.
      rewrite !insert_insert_eq, delete_insert_id by apply fresh_not_allocated.
      by destruct d.
Qed.

Lemma drone_inv_sock_rx f d rx ls ln :
  drone_inv f (with_sock_rx d rx) ls ln ↔ drone_inv f d ls ln.
Proof. split; intros [? ? ? ?]; by split. Qed.

Lemma inputMessageHandler_safe e env sockFd d f ls ln :
  drone_inv f d ls ln →
  safely (λ '(rc, d'), (∃ ls', drone_inv f d' ls' ln) ∧ engine d' = engine d)
    (inputMessageHandler e env sockFd d).
Proof.
  intros Hinv. unfold inputMessageHandler.
  destruct (sockFd <? 0); [simpl; eauto|].
  destruct (recvTimeout (sock_rx d) sizeof_messageHeader) as [[len received] rx].
  destruct (len <? 0).
  { simpl. split; [|done]. exists ls. by rewrite !drone_inv_sock_rx. }
  destruct (field0 e _ =? MOD_NAME_STREAM).
  - pose proof (networkToStreamMessage_safe e env sockFd
                  (field1 e (store_received (u32_pair_repr e 0 0) received))
                  (with_sock_rx d rx) f ls ln) as Hn.
    rewrite drone_inv_sock_rx in Hn. specialize (Hn Hinv).
    destruct (networkToStreamMessage _ _ _ _ _) as [[rc d2]| |]; [|done|done].
    simpl in Hn. destruct Hn as [[ls' Hd2] He].
    rewrite drone_inv_sock_rx in Hd2.
    destruct (negb (rc =? 0)); simpl; (split; [exists ls'|done]);
      by rewrite ?drone_inv_sock_rx.
  - simpl. split; [|done]. exists ls. by rewrite !drone_inv_sock_rx.
Qed.

Lemma pipelineErrorCallback_safe env d f ls ln :
  drone_inv f d ls ln →
  safely (λ d', (∃ ls', drone_inv f d' ls' ln) ∧ engine d' = engine d)
    (pipelineErrorCallback env d).
Proof.
  intros [Hs Hn Hm Hf]. unfold pipelineErrorCallback, calloc_message.
  destruct (calloc_succeeds env); [|simpl; split; [by exists ls|done]].
  destruct (insert_block_cases (streamMsgq d) ls (fresh (dom (heap d)))
              (stream_lock_busy env) Hs) as [->|(q' & -> & Hr')]; [done|].
  simpl. split; [|done]. exists (ls ++ [fresh (dom (heap d))]).
  split; simpl; [done|done| |done].
  rewrite insert_insert_eq. by apply messages_alloc_stream.
Qed.

(** *** The stream controller *)

Lemma controller_entry state ev :
  get_context (initStreamController zero_controller) state ev
  = Some (mkContext (spec_table state ev).1
            (Some (handler_of (spec_table state ev).2))).
Proof. by destruct state, ev. Qed.

Lemma event_of_code_error c :
  event_of_code c = Some STREAM_EVENT_PIPE_ERROR → c = MOD_MSG_CODE_STREAM_ERROR.
Proof.
  unfold event_of_code.
  destruct (c =? MOD_MSG_CODE_STREAM_START); [done|].
  destruct (c =? MOD_MSG_CODE_STREAM_STOP); [done|].
  destruct (c =? MOD_MSG_CODE_STREAM_REQ); [done|].
  by destruct (Z.eqb_spec c MOD_MSG_CODE_STREAM_ERROR).
Qed.

Lemma playing_step state ev sc :
  (state = STREAM_STATE_PLAYING ↔ last sc = Some GST_STATE_PLAYING) →
  (spec_table state ev).1 = STREAM_STATE_PLAYING ↔
  last (sc ++ action_state_change (spec_table state ev).2) = Some GST_STATE_PLAYING.
Proof.
  intros [H1 H2].
  destruct state, ev; simpl; rewrite ?app_nil_r, ?last_snoc;
    (split; [intros ?|intros Hl]); try done; auto.
  all: by apply H2 in Hl.
Qed.

Lemma handler_safe a env p d f l' ln msg :
  repr (networkMsgq d) ln → messages_inv (heap d) f (p :: l') ln →
  currentCodingFormat d = f → heap d !! p = Some msg →
  (a = StopMediaEngineNotifyPeer → code msg = MOD_MSG_CODE_STREAM_ERROR) →
  safely (λ '(m', d'),
            m' = None ∧ streamMsgq d' = streamMsgq d ∧
            (∃ ln', repr (networkMsgq d') ln' ∧ messages_inv (heap d') f l' ln') ∧
            currentCodingFormat d' = f ∧
            state_changes (engine d')
            = state_changes (engine d) ++ action_state_change a)
    (handler_of a env (Some p) d).
Proof.
  intros Hn Hm Hf Hmsg Hcode.
  pose proof (messages_free_stream _ _ _ _ _ Hm) as Hfree.
  destruct a; simpl.
  - unfold streamRequestHandler. rewrite Hmsg.
    destruct (netsink_found env); unfold calloc_message, free;
      (destruct (calloc_succeeds env);
       [ destruct (insert_block_cases (networkMsgq d) ln
                     (fresh (dom (delete p (heap d)))) (network_lock_busy env) Hn)
           as [->|(q' & -> & Hr')]; [done|];
         simpl; split_and!;
           [done|done| |done|
            rewrite ?state_changes_app; simpl; by rewrite ?app_nil_r];
         eexists; split; [done|]; rewrite insert_insert_eq;
         apply messages_alloc_network; [done|done|]; right; by split
       | simpl; split_and!;
           [done|done|by exists ln|done|
            rewrite ?state_changes_app; simpl; by rewrite ?app_nil_r] ]).
  - split_and!; [done|done| |done|by rewrite state_changes_app].
    by exists ln.
  - split_and!; [done|done| |done|by rewrite state_changes_app].
    by exists ln.
  - unfold streamErrorHandler. rewrite Hmsg.
    destruct (insert_block_cases (networkMsgq d) ln p (network_lock_busy env) Hn)
      as [->|(q' & -> & Hr')]; [done|].
    simpl. split_and!; [done|done| |done|by rewrite state_changes_app].
    eexists. split; [done|]. apply messages_forward; auto.
  - split_and!; [done|done| |done|by rewrite app_nil_r].
    by exists ln.
Qed.

Lemma threadFuncStreamControl_turn_safe env state d f ls ln :
  drone_inv f d ls ln →
  (state = STREAM_STATE_PLAYING ↔
   last (state_changes (engine d)) = Some GST_STATE_PLAYING) →
  safely (λ '(state', m', d'),
            m' = None ∧ (∃ ls' ln', drone_inv f d' ls' ln') ∧
            (state' = STREAM_STATE_PLAYING ↔
             last (state_changes (engine d')) = Some GST_STATE_PLAYING))
    (threadFuncStreamControl_turn (initStreamController zero_controller) env
       state None d).
Proof.
  intros [Hs Hn Hm Hf] Hplay. unfold threadFuncStreamControl_turn.
  destruct (remove_block_cases (streamMsgq d) ls (stream_lock_busy env) Hs)
    as [->|(p & l' & q' & -> & -> & Hr')]; [done|].
  cbn [negb Z.eqb heap with_streamMsgq].
  destruct (inv_stream_msgs _ _ _ _ Hm p) as (msg & Hmsg & Ha & [ev Hev]);
    [by left|].
  rewrite Hmsg, Hev. unfold update. rewrite controller_entry.
  cbn [eventHandler nextState].
  pose proof (handler_safe (spec_table state ev).2 env p (with_streamMsgq d q')
                f l' ln msg Hn Hm Hf Hmsg) as Hh.
  destruct (handler_of _ env (Some p) _) as [[m' d']| |].
  - simpl in Hh. destruct Hh as (-> & Hq & (ln' & Hn' & Hm') & Hf' & Hsc).
    + intros Ha'. apply event_of_code_error. rewrite Hev. f_equal.
      by destruct state, ev.
    + simpl. split_and!; [done| |].
      * exists l', ln'. split; [by rewrite Hq|done|done|done].
      * rewrite Hsc. by apply playing_step.
  - done.
  - simpl in Hh. apply Hh. intros Ha'. apply event_of_code_error. rewrite Hev.
    f_equal. by destruct state, ev.
Qed.

(** *** The writer thread *)

Lemma gccommonMessageToNetwork_safe e senv sockFd p h msg f :
  h !! p = Some msg → address msg = MOD_NAME_GCCOMMON →
  code msg = MOD_MSG_CODE_STREAM_ERROR ∨
  code msg = MOD_MSG_CODE_STREAM_TYPE ∧ codingFormat msg = f →
  safely (λ '(rc, tr), Forall (sent_ok e f) tr)
    (gccommonMessageToNetwork e senv sockFd (Some p) h).
Proof.
  intros Hmsg Ha Hc. unfold gccommonMessageToNetwork. rewrite Hmsg, Ha.
  assert (Hheader : sent_ok e f
            (Send sockFd (u32_pair_repr e MOD_NAME_GCCOMMON (code msg)))).
  { exists sockFd, (u32_pair_repr e MOD_NAME_GCCOMMON (code msg)).
    split; [done|]. destruct Hc as [->|[-> _]]; auto. }
  assert (Hformat : code msg = MOD_MSG_CODE_STREAM_TYPE →
            sent_ok e f (Send sockFd (u32_repr e (codingFormat msg)))).
  { intros Hcode. destruct Hc as [Hc|[_ <-]]; [by rewrite Hc in Hcode|].
    exists sockFd, (u32_repr e (codingFormat msg)). auto. }
  destruct (socket_lock_busy senv); [done|].
  destruct (_ <? 8); [by repeat constructor|].
  destruct (Z.eqb_spec (code msg) MOD_MSG_CODE_STREAM_TYPE) as [Hcode|_].
  - destruct (_ <? 4); simpl; repeat constructor; auto.
  - destruct (_ =? _); by repeat constructor.
Qed.

Lemma threadFuncNetworkOut_turn_safe e env senv sockFd d f ls ln :
  drone_inv f d ls ln →
  safely (λ '(m', d', tr),
            m' = None ∧ (∃ ln', drone_inv f d' ls ln') ∧
            engine d' = engine d ∧ Forall (sent_ok e f) tr)
    (threadFuncNetworkOut_turn e env senv sockFd None d).
Proof.
  intros [Hs Hn Hm Hf]. unfold threadFuncNetworkOut_turn.
  destruct (remove_block_cases (networkMsgq d) ln (network_lock_busy env) Hn)
    as [->|(p & l' & q' & -> & -> & Hr')]; [done|].
  cbn [negb Z.eqb heap with_networkMsgq].
  destruct (inv_network_msgs _ _ _ _ Hm p) as (msg & Hmsg & Ha & Hc); [by left|].
  rewrite Hmsg, Ha. simpl (_ =? _).  cbv iota.
  pose proof (gccommonMessageToNetwork_safe e senv sockFd p (heap d) msg f
                Hmsg Ha Hc) as Hsent.
  destruct (gccommonMessageToNetwork _ _ _ _ _) as [[rc tr]| |]; [|done|done].
  simpl in *. split_and!; [done| |done|done].
  exists l'. split; simpl; [done|done| |done].
  by apply messages_free_network.
Qed.

(** *** Every call keeps what holds between two calls *)

Lemma run_call_safe e f c s :
  system_inv e f s → safely (system_inv e f) (run_call e c s).
Proof.
  intros [(ls & ln & Hd) Hcm Hom Hplay Hwire]. destruct c as [rx|env fd|env|env|env senv fd];
    simpl.
  - split; simpl; [|done|done|done|done].
    exists ls, ln. by apply drone_inv_sock_rx.
  - pose proof (inputMessageHandler_safe e env fd (drone s) f ls ln Hd) as H.
    destruct (inputMessageHandler _ _ _ _) as [[rc d']| |]; [|done|done].
    simpl in *. destruct H as [[ls' Hd'] He].
    split; simpl; [by exists ls', ln|done|done|by rewrite He|done].
  - pose proof (pipelineErrorCallback_safe env (drone s) f ls ln Hd) as H.
    destruct (pipelineErrorCallback _ _) as [d'| |]; [|done|done].
    simpl in *. destruct H as [[ls' Hd'] He].
    split; simpl; [by exists ls', ln|done|done|by rewrite He|done].
  - pose proof (threadFuncStreamControl_turn_safe env (control_state s) (drone s)
                  f ls ln Hd Hplay) as H.
    rewrite Hcm.
    destruct (threadFuncStreamControl_turn _ _ _ _ _) as [[[st' m'] d']| |];
      [|done|done].
    simpl in *. destruct H as (-> & Hd' & Hplay').
    by split.
  - pose proof (threadFuncNetworkOut_turn_safe e env senv fd (drone s) f ls ln Hd)
      as H.
    rewrite Hom.
    destruct (threadFuncNetworkOut_turn _ _ _ _ _ _) as [[[m' d'] tr]| |];
      [|done|done].
    simpl in *. destruct H as (-> & [ln' Hd'] & He & Htr).
    split; simpl; [by exists ls, ln'|done|done|by rewrite He|].
    by apply Forall_app.
Qed.

Lemma initial_system_inv e f : system_inv e f (initial_system f).
Proof.
  assert (H8 : repr (fresh_queue NUM_STREAM_MSGQ_SIZE) []).
  { apply repr_init.
    - unfold is_size, SIZE_MOD, SIZE_BITS, NUM_STREAM_MSGQ_SIZE. lia.
    - exists 3. split; [lia|reflexivity]. }
  assert (H16 : repr (fresh_queue NUM_NETWORK_MSGQ_SIZE) []).
  { apply repr_init.
    - unfold is_size, SIZE_MOD, SIZE_BITS, NUM_NETWORK_MSGQ_SIZE. lia.
    - exists 4. split; [lia|reflexivity]. }
  split; simpl; [|done|done|done|done].
  exists [], []. split; simpl; [done|done| |done].
  split; simpl.
  - constructor.
  - intros p. rewrite lookup_empty. split; [by intros []|by intros ?%elem_of_nil].
  - by intros p ?%elem_of_nil.
  - by intros p ?%elem_of_nil.
Qed.

(** In every run of the threads the calls go well, and what holds between
    two calls holds at the end. *)
Lemma run_calls_safe e f cs : ∀ s,
  system_inv e f s → ∃ s', run_calls e cs s = Some s' ∧ system_inv e f s'.
Proof.
  induction cs as [|c cs IH]; intros s Hinv; simpl; [eauto|].
  pose proof (run_call_safe e f c s Hinv) as H.
  destruct (run_call e c s) as [s1| |]; simpl in H; [by apply IH|by apply IH|done].
Qed.

(** X8. The calls of the reader thread, of the media engine's callbacks, of
    the stream controller and of the writer thread, made one after the other
    in any order and with any answers of the environment, never go wrong:
    no call reads through a NULL or released message, leaves the buffer of a
    queue or calls a NULL entry of the controller table. *)
Theorem drone_calls_never_go_wrong (e : endianness) (format : Z) (cs : list Call) :
  is_Some (run_calls e cs (initial_system format)).
Proof.
  destruct (run_calls_safe e format cs _ (initial_system_inv e format))
    as (s & Hs & _).
  by exists s.
Qed.



(** X10. Between two calls every message waiting in [streamMsgq] is addressed
    to the stream module and carries one of the four codes the stream
    controller has an event for, and every message waiting in [networkMsgq] is
    addressed to the common module of the ground control and is a pipeline
    error or the coding format of the drone. The default branches of
    [threadFuncStreamControl], [threadFuncNetworkOut] and
    [gccommonMessageToNetwork] are never taken. *)
Theorem drone_queue_contents (e : endianness) (format : Z) (cs : list Call)
    (s : System)
    (Hrun : run_calls e cs (initial_system format) = Some s) :
  ∃ ls ln,
    repr (streamMsgq (drone s)) ls ∧ repr (networkMsgq (drone s)) ln ∧
    (∀ p, p ∈ ls →
       ∃ msg, heap (drone s) !! p = Some msg ∧ address msg = MOD_NAME_STREAM ∧
              code msg ∈ [MOD_MSG_CODE_STREAM_REQ; MOD_MSG_CODE_STREAM_START;
                          MOD_MSG_CODE_STREAM_STOP; MOD_MSG_CODE_STREAM_ERROR]) ∧
    (∀ p, p ∈ ln →
       ∃ msg, heap (drone s) !! p = Some msg ∧ address msg = MOD_NAME_GCCOMMON ∧
              (code msg = MOD_MSG_CODE_STREAM_ERROR ∨
               code msg = MOD_MSG_CODE_STREAM_TYPE ∧ codingFormat msg = format)).
Proof.
  destruct (run_calls_safe e format cs _ (initial_system_inv e format))
    as (s' & Hs & Hinv).
  rewrite Hrun in Hs. injection Hs as <-.
  destruct Hinv as [(ls & ln & [Hq1 Hq2 [_ _ Hsm Hnm] _]) _ _ _ _].
  exists ls, ln. split_and!; [done|done| |done].
  intros p Hp. destruct (Hsm p Hp) as (msg & Hmsg & Ha & [ev Hev]).
  exists msg. split_and!; [done|done|].
  revert Hev. unfold event_of_code.
  destruct (Z.eqb_spec (code msg) MOD_MSG_CODE_STREAM_START) as [->|_];
    [intros _; set_solver|].
  destruct (Z.eqb_spec (code msg) MOD_MSG_CODE_STREAM_STOP) as [->|_];
    [intros _; set_solver|].
  destruct (Z.eqb_spec (code msg) MOD_MSG_CODE_STREAM_REQ) as [->|_];
    [intros _; set_solver|].
  destruct (Z.eqb_spec (code msg) MOD_MSG_CODE_STREAM_ERROR) as [->|_];
    [intros _; set_solver|done].
Qed.

Lemma drone_queue_contents_witness :
  ∃ ls ln,
    repr (streamMsgq (drone example_final)) ls ∧
    repr (networkMsgq (drone example_final)) ln ∧
    (∀ p, p ∈ ls →
       ∃ msg, heap (drone example_final) !! p = Some msg ∧
              address msg = MOD_NAME_STREAM ∧
              code msg ∈ [MOD_MSG_CODE_STREAM_REQ; MOD_MSG_CODE_STREAM_START;
                          MOD_MSG_CODE_STREAM_STOP; MOD_MSG_CODE_STREAM_ERROR]) ∧
    (∀ p, p ∈ ln →
       ∃ msg, heap (drone example_final) !! p = Some msg ∧
              address msg = MOD_NAME_GCCOMMON ∧
              (code msg = MOD_MSG_CODE_STREAM_ERROR ∨
               code msg = MOD_MSG_CODE_STREAM_TYPE ∧ codingFormat msg = 1)).
Proof.
  apply (drone_queue_contents LittleEndian 1 example_calls example_final).
  vm_compute. reflexivity.
Defined.

(** X11. Between two calls the stream controller is in the state playing
    exactly when the last state it has requested from the media engine is
    PLAYING. *)
Theorem drone_playing_iff_requested (e : endianness) (format : Z) (cs : list Call)
    (s : System)
    (Hrun : run_calls e cs (initial_system format) = Some s) :
  control_state s = STREAM_STATE_PLAYING ↔
  last (state_changes (engine (drone s))) = Some GST_STATE_PLAYING.
Proof.
  destruct (run_calls_safe e format cs _ (initial_system_inv e format))
    as (s' & Hs & Hinv).
  rewrite Hrun in Hs. injection Hs as <-. by destruct Hinv.
Qed.

Lemma drone_playing_iff_requested_witness :
  control_state example_final = STREAM_STATE_PLAYING ↔
  last (state_changes (engine (drone example_final))) = Some GST_STATE_PLAYING.
Proof.
  apply (drone_playing_iff_requested LittleEndian 1 example_calls example_final).
  vm_compute. reflexivity.
Defined.

(** X12. Whatever arrives from the ground control, the writer thread hands
    to [send] nothing but the header of a pipeline error, the header of a
    coding format and the coding format of the drone, each addressed to the
    common module of the ground control. *)
Theorem drone_sends_only_error_and_format (e : endianness) (format : Z)
    (cs : list Call) (s : System)
    (Hrun : run_calls e cs (initial_system format) = Some s) :
  Forall (sent_ok e format) (wire s).
Proof.
  destruct (run_calls_safe e format cs _ (initial_system_inv e format))
    as (s' & Hs & Hinv).
  rewrite Hrun in Hs. injection Hs as <-. by destruct Hinv.
Qed.

Lemma drone_sends_only_error_and_format_witness :
  Forall (sent_ok LittleEndian 1) (wire example_final).
Proof.
  apply (drone_sends_only_error_and_format LittleEndian 1 example_calls
           example_final).
  vm_compute. reflexivity.
Defined.

End DroneSystemProperties.

(** ** The login, both sides *)

Section Handshake.

Import Machine MachineFacts Wire WireFacts Spec DroneLogin GroundControl.

(** [authDrone] on a login message that arrives in full. *)
Lemma authDrone_full e env s id bs rest :
  0 ≤ s → pending (login_rx env) = bs ++ rest → length bs = 8%nat →
  authDrone e env s id
  = if u32 MOD_MSG_CODE_LOGIN =? field0 e bs
    then (if auth_send_rc env <? 0 then -1 else 0, field1 e bs,
          [Recv s 8; Send s (u32_pair_repr e MOD_MSG_CODE_LOGIN_ACK (field1 e bs))])
    else (if auth_send_rc env <? 0 then -1 else 0, id,
          [Recv s 8; Send s (u32_pair_repr e MOD_MSG_CODE_LOGIN_NACK 0)]).
Proof.
  intros Hs Hp Hl. unfold authDrone, GroundControl.sizeof_loginMessage.
  destruct (Z.ltb_spec s 0) as [|_]; [lia|].
  rewrite (recvTimeout_full _ bs rest 8 Hp) by (rewrite ?Hl; done).
  rewrite store_received_all by (by rewrite length_u32_pair_repr).
  change (size_of_int 8 <? 8) with false. cbv iota.
  by destruct (u32 MOD_MSG_CODE_LOGIN =? field0 e bs).
Qed.

(** [connectToGroundControl] once the login is sent and eight bytes of
    reply have arrived. *)
Lemma connectToGroundControl_reply e env node service fd bs rest :
  getaddrinfo_rc env = 0 → getaddrinfo_result env = true →
  0 ≤ socket_rc env → 0 ≤ connect_rc env → send_rc env = 8 →
  pending (reply env) = bs ++ rest → length bs = 8%nat →
  let fd1 := socket_rc env in
  let attempt :=
    [Getaddrinfo; Socket; Connect fd1;
     Send fd1 (u32_pair_repr e MOD_MSG_CODE_LOGIN DRONE_ID); Recv fd1 8] in
  connectToGroundControl e env (Some node) (Some service) fd
  = if negb (field0 e bs =? u32 MOD_MSG_CODE_LOGIN_ACK) || negb (field1 e bs =? DRONE_ID)
    then (-1, SOCK_FD_INVAL, attempt ++ [Freeaddrinfo; Close fd1])
    else (0, fd1, attempt ++ [SetKeepalive fd1; Freeaddrinfo]).
Proof.
  intros Hgai Hres Hsock Hconn Hsend Hp Hl fd1 attempt.
  unfold connectToGroundControl, DroneLogin.sizeof_loginMessage.
  rewrite Hgai, Hres, Hsend. simpl negb. cbv iota. fold fd1.
  destruct (Z.ltb_spec fd1 0) as [|_]; [lia|].
  destruct (Z.ltb_spec (connect_rc env) 0) as [|_]; [lia|].
  change ((8 <? 0) || (size_of_int 8 <? 8)) with false. cbv iota.
  rewrite (recvTimeout_full _ bs rest 8 Hp) by (rewrite ?Hl; done).
  rewrite store_received_all by (by rewrite length_u32_pair_repr).
  change (size_of_int 8 <? 8) with false. cbv iota.
  by destruct (negb _ || negb _).
Qed.

(** X13. The login of the drone meets [authDrone] of the ground control.
    When its answer can be sent, the ground control returns 0 whatever it
    answers, so that it goes on to serve the connection. The attempt of the
    drone succeeds, with the descriptor of
    its socket stored, exactly when both hosts have the same byte order: the
    fields travel in host byte order. Between hosts of different byte order
    the ground control reads another code than LOGIN and answers LOGIN_NACK,
    and the drone closes its socket and returns -1. *)
Theorem login_handshake (e_d e_g : endianness) (cenv : ConnectEnv) (aenv : AuthEnv)
    (serviceSocket droneID fd : Z) (node service : list byte)
    (Hgai : getaddrinfo_rc cenv = 0) (Hres : getaddrinfo_result cenv = true)
    (Hsock : 0 ≤ socket_rc cenv) (Hconn : 0 ≤ connect_rc cenv)
    (Hsend : send_rc cenv = 8)
    (Hs : 0 ≤ serviceSocket) (Hans : 0 ≤ auth_send_rc aenv)
    (Hlogin : login_rx aenv
              = mkRx (u32_pair_repr e_d MOD_MSG_CODE_LOGIN DRONE_ID) false) :
  ∃ answer id',
    authDrone e_g aenv serviceSocket droneID
    = (0, id', [Recv serviceSocket 8; Send serviceSocket answer]) ∧
    (e_d = e_g → id' = DRONE_ID ∧
                 answer = u32_pair_repr e_g MOD_MSG_CODE_LOGIN_ACK DRONE_ID) ∧
    (e_d ≠ e_g → id' = droneID ∧
                 answer = u32_pair_repr e_g MOD_MSG_CODE_LOGIN_NACK 0) ∧
    (reply cenv = mkRx answer false →
     ∃ rc fd' tr,
       connectToGroundControl e_d cenv (Some node) (Some service) fd = (rc, fd', tr) ∧
       Send (socket_rc cenv) (u32_pair_repr e_d MOD_MSG_CODE_LOGIN DRONE_ID) ∈ tr ∧
       (rc = 0 ↔ e_d = e_g) ∧
       (rc = 0 → fd' = socket_rc cenv ∧ Close (socket_rc cenv) ∉ tr) ∧
       (rc ≠ 0 → rc = -1 ∧ fd' = SOCK_FD_INVAL ∧ Close (socket_rc cenv) ∈ tr)).
Proof.
  assert (Hp : pending (login_rx aenv)
               = u32_pair_repr e_d MOD_MSG_CODE_LOGIN DRONE_ID ++ []).
  { by rewrite Hlogin, app_nil_r. }
  rewrite (authDrone_full e_g aenv serviceSocket droneID _ [] Hs Hp)
    by apply length_u32_pair_repr.
  destruct (Z.ltb_spec (auth_send_rc aenv) 0) as [|_]; [lia|].
  assert (Hconnect : ∀ answer,
    reply cenv = mkRx answer false → length answer = 8%nat →
    connectToGroundControl e_d cenv (Some node) (Some service) fd
    = if negb (field0 e_d answer =? u32 MOD_MSG_CODE_LOGIN_ACK)
         || negb (field1 e_d answer =? DRONE_ID)
      then (-1, SOCK_FD_INVAL,
            [Getaddrinfo; Socket; Connect (socket_rc cenv);
             Send (socket_rc cenv) (u32_pair_repr e_d MOD_MSG_CODE_LOGIN DRONE_ID);
             Recv (socket_rc cenv) 8] ++ [Freeaddrinfo; Close (socket_rc cenv)])
      else (0, socket_rc cenv,
            [Getaddrinfo; Socket; Connect (socket_rc cenv);
             Send (socket_rc cenv) (u32_pair_repr e_d MOD_MSG_CODE_LOGIN DRONE_ID);
             Recv (socket_rc cenv) 8] ++ [SetKeepalive (socket_rc cenv); Freeaddrinfo])).
  { intros answer Hr Hl.
    apply (connectToGroundControl_reply e_d cenv node service fd answer []);
      try done. by rewrite Hr, app_nil_r. }
  destruct e_d, e_g;
    match goal with
    | |- context [u32 MOD_MSG_CODE_LOGIN =? ?x] =>
        let v := eval vm_compute in (u32 MOD_MSG_CODE_LOGIN =? x) in
        change (u32 MOD_MSG_CODE_LOGIN =? x) with v
    end; cbv iota;
    eexists _, _; (split; [reflexivity|]);
    (split; [intros; try done; by split|]);
    (split; [intros; try done; by split|]);
    intros Hr; rewrite (Hconnect _ Hr) by reflexivity;
    match goal with
    | |- context [negb (?a =? ?b) || negb (?c =? ?d)] =>
        let v := eval vm_compute in (negb (a =? b) || negb (c =? d)) in
        change (negb (a =? b) || negb (c =? d)) with v
    end; cbv iota;
    eexists _, _, _; (split; [reflexivity|]); simpl app;
    rewrite ?elem_of_cons, ?elem_of_nil;
    intuition (discriminate || lia || done).
Qed.

Lemma login_handshake_witness :
  let cenv := mkConnectEnv 0 true 5 0 8
                (mkRx (u32_pair_repr LittleEndian MOD_MSG_CODE_LOGIN_ACK DRONE_ID) false) 0 in
  ∃ answer id',
    authDrone LittleEndian
      (mkAuthEnv (mkRx (u32_pair_repr LittleEndian MOD_MSG_CODE_LOGIN DRONE_ID) false) 8)
      4 0
    = (0, id', [Recv 4 8; Send 4 answer]) ∧
    (LittleEndian = LittleEndian →
       id' = DRONE_ID ∧
       answer = u32_pair_repr LittleEndian MOD_MSG_CODE_LOGIN_ACK DRONE_ID) ∧
    (LittleEndian ≠ LittleEndian →
       id' = 0 ∧ answer = u32_pair_repr LittleEndian MOD_MSG_CODE_LOGIN_NACK 0) ∧
    (reply cenv = mkRx answer false →
     ∃ rc fd' tr,
       connectToGroundControl LittleEndian cenv (Some []) (Some []) (-1) = (rc, fd', tr) ∧
       Send (socket_rc cenv) (u32_pair_repr LittleEndian MOD_MSG_CODE_LOGIN DRONE_ID) ∈ tr ∧
       (rc = 0 ↔ LittleEndian = LittleEndian) ∧
       (rc = 0 → fd' = socket_rc cenv ∧ Close (socket_rc cenv) ∉ tr) ∧
       (rc ≠ 0 → rc = -1 ∧ fd' = SOCK_FD_INVAL ∧ Close (socket_rc cenv) ∈ tr)).
Proof.
  apply (login_handshake LittleEndian LittleEndian
           (mkConnectEnv 0 true 5 0 8
              (mkRx (u32_pair_repr LittleEndian MOD_MSG_CODE_LOGIN_ACK DRONE_ID) false) 0)
           (mkAuthEnv
              (mkRx (u32_pair_repr LittleEndian MOD_MSG_CODE_LOGIN DRONE_ID) false) 8)
           4 0 (-1) [] []).
  - reflexivity.
  - reflexivity.
  - simpl. lia.
  - simpl. lia.
  - reflexivity.
  - lia.
  - simpl. lia.
  - reflexivity.
Defined.

(** X14. A login that does not arrive in full. After a short read, or when
    the client has closed the connection, [authDrone] returns -1 without
    answering and the service thread closes the socket. When nothing at all
    arrives before the timeout, [recv] returns -1, which the unsigned length
    test does not catch: the zeroed buffer is taken for a message of another
    code, LOGIN_NACK is sent and, if it can be sent, the service thread enters
    its communication loop with the silent client. *)
Theorem authDrone_incomplete_login (e : endianness) (env : AuthEnv)
    (serviceSocket droneID : Z)
    (Hs : 0 ≤ serviceSocket)
    (Hshort : (length (pending (login_rx env)) < 8)%nat) :
  let silent := pending (login_rx env) = [] ∧ eof (login_rx env) = false in
  let nack := Send serviceSocket (u32_pair_repr e MOD_MSG_CODE_LOGIN_NACK 0) in
  authDrone e env serviceSocket droneID
  = (if decide silent
     then (if auth_send_rc env <? 0 then -1 else 0, droneID,
           [Recv serviceSocket 8; nack])
     else (-1, droneID, [Recv serviceSocket 8])) ∧
  threadFuncDroneService_turn e (mkServiceEnv serviceSocket env) droneID
  = (droneID,
     [Accept; SetKeepalive serviceSocket; Recv serviceSocket 8]
     ++ (if decide silent
         then [nack; if auth_send_rc env <? 0 then Close serviceSocket
                     else CommunicationLoop serviceSocket]
         else [Close serviceSocket])).
Proof.
  intros silent nack.
  assert (Hauth : authDrone e env serviceSocket droneID
    = (if decide silent
       then (if auth_send_rc env <? 0 then -1 else 0, droneID,
             [Recv serviceSocket 8; nack])
       else (-1, droneID, [Recv serviceSocket 8]))).
  { unfold authDrone, GroundControl.sizeof_loginMessage, recvTimeout, silent.
    destruct (Z.ltb_spec serviceSocket 0) as [|_]; [lia|].
    change (Z.to_nat 8) with 8%nat. rewrite take_ge by lia.
    destruct (pending (login_rx env)) as [|b l] eqn:Hp.
    - destruct (eof (login_rx env)).
      + rewrite decide_False by (by intros [_ ?]). done.
      + rewrite decide_True by done.
        change (size_of_int (-1) <? 8) with false. cbv iota.
        rewrite store_received_nil, field0_pair.
        change (u32 MOD_MSG_CODE_LOGIN =? u32 0) with false. done.
    - rewrite decide_False by (by intros [? _]).
      rewrite size_of_int_small by lia.
      destruct (Z.ltb_spec (Z.of_nat (length (b :: l))) 8); [done|lia]. }
  split; [done|].
  unfold threadFuncDroneService_turn. simpl accept_rc. simpl auth_env.
  destruct (Z.ltb_spec serviceSocket 0) as [|_]; [lia|].
  rewrite Hauth. destruct (decide silent); [|done].
  by destruct (auth_send_rc env <? 0).
Qed.

Lemma authDrone_incomplete_login_witness :
  let env := mkAuthEnv (mkRx [] false) 8 in
  let silent := pending (login_rx env) = [] ∧ eof (login_rx env) = false in
  let nack := Send 4 (u32_pair_repr BigEndian MOD_MSG_CODE_LOGIN_NACK 0) in
  authDrone BigEndian env 4 0
  = (if decide silent
     then (if auth_send_rc env <? 0 then -1 else 0, 0, [Recv 4 8; nack])
     else (-1, 0, [Recv 4 8])) ∧
  threadFuncDroneService_turn BigEndian (mkServiceEnv 4 env) 0
  = (0,
     [Accept; SetKeepalive 4; Recv 4 8]
     ++ (if decide silent
         then [nack; if auth_send_rc env <? 0 then Close 4 else CommunicationLoop 4]
         else [Close 4])).
Proof.
  apply (authDrone_incomplete_login BigEndian (mkAuthEnv (mkRx [] false) 8) 4 0).
  - lia.
  - simpl. lia.
Defined.

(** X15. What [connectToGroundControl] does with its resources, whatever the
    system answers. It returns 0 with the descriptor of the new socket stored,
    or -1 with the invalid descriptor stored. The address list is released
    exactly when [getaddrinfo] delivered one. The socket is closed exactly
    when the attempt fails after [connect] succeeded: when [connect] itself
    fails the socket is left open and its descriptor is overwritten. *)
Theorem connectToGroundControl_resources (e : endianness) (env : ConnectEnv)
    (node service : list byte) (fd : Z) :
  ∃ rc fd' tr,
    connectToGroundControl e env (Some node) (Some service) fd = (rc, fd', tr) ∧
    (rc = 0 ∧ fd' = socket_rc env ∧ 0 ≤ fd' ∨ rc = -1 ∧ fd' = SOCK_FD_INVAL) ∧
    (Freeaddrinfo ∈ tr ↔ getaddrinfo_rc env = 0 ∧ getaddrinfo_result env = true) ∧
    (Connect (socket_rc env) ∈ tr ↔
       getaddrinfo_rc env = 0 ∧ getaddrinfo_result env = true ∧ 0 ≤ socket_rc env) ∧
    (Close (socket_rc env) ∈ tr ↔
       rc = -1 ∧ Connect (socket_rc env) ∈ tr ∧ 0 ≤ connect_rc env).
Proof.
  unfold connectToGroundControl.
  destruct (Z.eqb_spec (getaddrinfo_rc env) 0) as [Hgai|Hgai]; simpl negb; cbv iota;
    [|eexists _, _, _; split; [reflexivity|];
      rewrite ?elem_of_cons, ?elem_of_nil; intuition (discriminate || lia || done)].
  destruct (getaddrinfo_result env) eqn:Hres; simpl negb; cbv iota;
    [|eexists _, _, _; split; [reflexivity|];
      rewrite ?elem_of_cons, ?elem_of_nil; intuition (discriminate || lia || done)].
  destruct (Z.ltb_spec (socket_rc env) 0) as [Hsock|Hsock];
    [eexists _, _, _; split; [reflexivity|];
     rewrite ?elem_of_cons, ?elem_of_nil; intuition (discriminate || lia || done)|].
  destruct (Z.ltb_spec (connect_rc env) 0) as [Hconn|Hconn];
    [eexists _, _, _; split; [reflexivity|];
     rewrite ?elem_of_cons, ?elem_of_nil; intuition (discriminate || lia || done)|].
  destruct ((send_rc env <? 0) || _);
    [eexists _, _, _; split; [reflexivity|]; simpl app;
     rewrite ?elem_of_cons, ?elem_of_nil; intuition (discriminate || lia || done)|].
  destruct (recvTimeout _ _) as [[len received] rx].
  destruct (size_of_int len <? _);
    [eexists _, _, _; split; [reflexivity|]; simpl app;
     rewrite ?elem_of_cons, ?elem_of_nil; intuition (discriminate || lia || done)|].
  destruct (negb _ || negb _);
    eexists _, _, _; (split; [reflexivity|]); simpl app;
    rewrite ?elem_of_cons, ?elem_of_nil; intuition (discriminate || lia || done).
Qed.

Lemma sockets_open_app tr1 tr2 :
  NetworkOut.sockets_open (tr1 ++ tr2)
  = NetworkOut.sockets_open tr1 + NetworkOut.sockets_open tr2.
Proof.
  induction tr1 as [|c tr1 IH]; simpl; [done|]. destruct c; lia.
Qed.

(** One attempt: it succeeds with one socket open, or fails with none open
    unless it is [connect] that failed. *)
Lemma connectToGroundControl_attempt e env node service fd :
  ∃ rc fd1 tr,
    connectToGroundControl e env (Some node) (Some service) fd = (rc, fd1, tr) ∧
    (rc = 0 ∧ fd1 = socket_rc env ∧ 0 ≤ fd1 ∧ NetworkOut.sockets_open tr = 1 ∨
     rc = -1 ∧
     NetworkOut.sockets_open tr = if NetworkOut.connect_refused env then 1 else 0).
Proof.
  unfold connectToGroundControl, NetworkOut.connect_refused.
  destruct (Z.eqb_spec (getaddrinfo_rc env) 0) as [Hgai|Hgai]; simpl negb; cbv iota;
    [|eexists _, _, _; split; [reflexivity|]; right; by split].
  destruct (getaddrinfo_result env) eqn:Hres; simpl negb; cbv iota;
    [|eexists _, _, _; split; [reflexivity|]; right; by split].
  simpl andb.
  destruct (Z.ltb_spec (socket_rc env) 0) as [Hsock|Hsock].
  { eexists _, _, _; split; [reflexivity|]. right. split; [done|].
    destruct (Z.leb_spec 0 (socket_rc env)); [lia|done]. }
  destruct (Z.leb_spec 0 (socket_rc env)) as [_|]; [|lia]. simpl andb.
  destruct (Z.ltb_spec (connect_rc env) 0) as [Hconn|Hconn];
    [eexists _, _, _; split; [reflexivity|]; right; by split|].
  destruct ((send_rc env <? 0) || _);
    [eexists _, _, _; split; [reflexivity|]; right; by split|].
  destruct (recvTimeout _ _) as [[len received] rx].
  destruct (size_of_int len <? _);
    [eexists _, _, _; split; [reflexivity|]; right; by split|].
  destruct (negb _ || negb _);
    eexists _, _, _; (split; [reflexivity|]); [right|left]; by split.
Qed.

(** X16. The loop that connects the drone to the ground control. When it
    ends, it ends with the first attempt that succeeds: the descriptor stored
    is the socket of that attempt, and the thread has slept the cool-down of
    ten seconds once for each attempt before it. Each of these failed attempts
    in which [connect] was refused has left its socket open: the sockets open
    at the end are the one of the connection and one more for each refusal. *)
Theorem connect_retry_result (e : endianness) (attempts : list ConnectEnv)
    (node service : list byte) (fd fd' slept : Z) (tr : list SysCall)
    (Hloop : NetworkOut.connect_retry e attempts (Some node) (Some service) fd
             = Some (fd', slept, tr)) :
  ∃ failed env rest,
    attempts = failed ++ env :: rest ∧
    fd' = socket_rc env ∧ 0 ≤ fd' ∧
    slept = NetworkOut.RECONNECT_COOLDOWN_SEC * Z.of_nat (length failed) ∧
    NetworkOut.sockets_open tr
    = 1 + Z.of_nat (length (List.filter NetworkOut.connect_refused failed)).
Proof.
  revert fd fd' slept tr Hloop.
  induction attempts as [|env attempts IH]; intros fd fd' slept tr Hloop;
    [done|].
  cbn [NetworkOut.connect_retry] in Hloop.
  destruct (connectToGroundControl_attempt e env node service fd)
    as (rc & fd1 & tr0 & Hcall & Hcases).
  rewrite Hcall in Hloop.
  destruct Hcases as [(-> & -> & Hfd & Hopen)|(-> & Hopen)]; simpl in Hloop.
  - injection Hloop as <- <- <-. exists [], env, attempts.
    split_and!; [done|done|done|simpl; lia|by simpl].
  - destruct (NetworkOut.connect_retry e attempts (Some node) (Some service) fd1)
      as [[[fd2 slept'] tr']|] eqn:Hrest; [|done].
    injection Hloop as <- <- <-.
    destruct (IH _ _ _ _ Hrest) as (failed & env' & rest & -> & -> & Hfd & -> & Hopen').
    exists (env :: failed), env', rest.
    split_and!; [done|done|done|simpl length; lia|].
    rewrite sockets_open_app, Hopen, Hopen'. simpl.
    destruct (NetworkOut.connect_refused env); simpl length; lia.
Qed.

Lemma connect_retry_result_witness :
  let refused := mkConnectEnv 0 true 5 (-1) 0 (mkRx [] false) 0 in
  let accepted :=
    mkConnectEnv 0 true 6 0 8
      (mkRx (u32_pair_repr LittleEndian MOD_MSG_CODE_LOGIN_ACK DRONE_ID) false) 0 in
  ∃ failed env rest,
    [refused; accepted] = failed ++ env :: rest ∧
    6 = socket_rc env ∧ 0 ≤ 6 ∧
    10 = NetworkOut.RECONNECT_COOLDOWN_SEC * Z.of_nat (length failed) ∧
    NetworkOut.sockets_open
      [Getaddrinfo; Socket; Connect 5; Freeaddrinfo;
       Getaddrinfo; Socket; Connect 6;
       Send 6 (u32_pair_repr LittleEndian MOD_MSG_CODE_LOGIN DRONE_ID);
       Recv 6 8; SetKeepalive 6; Freeaddrinfo]
    = 1 + Z.of_nat (length (List.filter NetworkOut.connect_refused failed)).
Proof.
  apply (connect_retry_result LittleEndian
           [mkConnectEnv 0 true 5 (-1) 0 (mkRx [] false) 0;
            mkConnectEnv 0 true 6 0 8
              (mkRx (u32_pair_repr LittleEndian MOD_MSG_CODE_LOGIN_ACK DRONE_ID) false) 0]
           [] [] (-1) 6 10).
  vm_compute. reflexivity.
Defined.

End Handshake.

(** ** The handlers of the ground control *)

Section GroundControlHandlers.

Import Machine MachineFacts Wire WireFacts GcSession.

Lemma NUL_eqb b : Byte.eqb b NUL = true ↔ b = NUL.
Proof. split; [apply byte_dec_bl|apply byte_dec_lb]. Qed.

(** The string of an array is what precedes its first NUL. *)
Lemma c_string_app l r : NUL ∉ l → c_string (l ++ NUL :: r) = l.
Proof.
  induction l as [|b l IH]; intros Hnul; simpl; [done|].
  apply not_elem_of_cons in Hnul as [Hb Hl].
  destruct (Byte.eqb b NUL) eqn:E; [by apply NUL_eqb in E|].
  by rewrite IH.
Qed.

Lemma bytes_eqb_eq a : ∀ b, bytes_eqb a b = true ↔ a = b.
Proof.
  induction a as [|x a IH]; intros [|y b]; simpl; try done.
  rewrite andb_true_iff, IH. split.
  - intros [->%byte_dec_bl ->]. done.
  - intros [= -> ->]. split; [by apply byte_dec_lb|done].
Qed.

(** When [read] stores nothing, the index [strlen - 1] wraps around and
    lies outside the buffer. *)
Lemma command_empty : strip_last (command_buffer []) = None.
Proof. reflexivity. Qed.

(** The command buffer after the last character read is overwritten: its
    string is what was read, up to 63 bytes, without the last of them. *)
Lemma command_parsed line :
  NUL ∉ line → line ≠ [] →
  ∃ buf, strip_last (command_buffer line) = Some buf ∧
         c_string buf = removelast (take 63 line).
Proof.
  intros Hnul Hne. unfold command_buffer, strip_last.
  set (l := take 63 line).
  assert (Hl : l ≠ []) by (by destruct line).
  assert (Hlen : (length l ≤ 63)%nat) by (unfold l; rewrite length_take; lia).
  assert (Hnul' : NUL ∉ l).
  { intros [i [Hi _]]%elem_of_take. apply Hnul. by eapply list_elem_of_lookup_2. }
  destruct (exists_last Hl) as (body & c & Hbody).
  rewrite Hbody, removelast_last. rewrite Hbody in Hlen, Hnul'.
  rewrite length_app in *. change (length [c]) with 1%nat in *.
  replace (64 - (length body + 1))%nat with (S (62 - length body)) by lia.
  simpl replicate.
  rewrite (c_string_app _ _ Hnul'), !length_app. simpl length.
  rewrite length_replicate.
  rewrite size_wrap_small by (unfold is_size, SIZE_MOD, SIZE_BITS; lia).
  destruct (Z.ltb_spec (Z.of_nat (length body + 1) - 1)
              (Z.of_nat (length body + 1 + S (62 - length body)))) as [_|]; [|lia].
  eexists. split; [reflexivity|].
  replace (Z.to_nat (Z.of_nat (length body + 1) - 1)) with (length body + 0)%nat
    by lia.
  rewrite <- (assoc_L (++)), insert_app_r. simpl.
  apply c_string_app. intros Hin. apply Hnul'. apply elem_of_app. by left.
Qed.

(** X17. What [inputCommandHandler] makes of the line read from the user.
    When [read] stores nothing, the index [strlen - 1] wraps around and the
    NUL is written outside the buffer. Otherwise the last byte read is dropped,
    newline or not, and the command is the first blank-separated word of the
    rest, further words being ignored: no word does nothing and returns 0;
    "play" runs [requestStream]; "stop" runs [stopStream] and then, whatever
    its result and even without a pipeline, sends the stop message; "dconn"
    sets the exit condition and sends nothing; any other word returns -1. *)
Theorem inputCommandHandler_dispatch (e : endianness) (env : CommandEnv)
    (serviceSocket : Z) (line : list byte) (exitCondition : Z) (pipeline : bool)
    (Hfd : 0 ≤ serviceSocket) (Hnul : NUL ∉ line) :
  let command := strtok_first (removelast (take 63 line)) in
  let result := inputCommandHandler e env serviceSocket line exitCondition pipeline in
  (line = [] → result = Fault) ∧
  (line ≠ [] → command = None →
     result = Returned (0, exitCondition, pipeline, [])) ∧
  (command = Some STR_USR_CMD_STRM_PLAY →
     result
     = let '(rc, pipeline', calls) :=
         requestStream e (request_env env) serviceSocket pipeline in
       Returned (if negb (rc =? 0) then -1 else 0, exitCondition, pipeline',
                 map Request calls)) ∧
  (command = Some STR_USR_CMD_STRM_STOP →
     result
     = Returned
         (if negb ((stopStream (stop_ret env) pipeline).1 =? 0)
             || (stop_send_rc env <? 0) then -1 else 0,
          exitCondition, pipeline,
          (stopStream (stop_ret env) pipeline).2
          ++ [SendStop serviceSocket
                (u32_pair_repr e MOD_NAME_STREAM MOD_MSG_CODE_STREAM_STOP)])) ∧
  (command = Some STR_USR_CMD_DRN_DCON →
     result = Returned (0, 1, pipeline, [])) ∧
  (∀ w, command = Some w →
     w ≠ STR_USR_CMD_STRM_PLAY → w ≠ STR_USR_CMD_STRM_STOP →
     w ≠ STR_USR_CMD_DRN_DCON →
     result = Returned (-1, exitCondition, pipeline, [])).
Proof.
  intros command result. unfold result, inputCommandHandler.
  destruct (Z.ltb_spec serviceSocket 0) as [|_]; [lia|].
  destruct (decide (line = [])) as [->|Hne].
  { rewrite command_empty. by split_and!. }
  destruct (command_parsed line Hnul Hne) as (buf & -> & ->). fold command.
  split_and!; try done.
  - by intros _ ->.
  - intros ->. change (bytes_eqb STR_USR_CMD_STRM_PLAY STR_USR_CMD_STRM_PLAY)
      with true. cbv iota.
    by destruct (requestStream _ _ _ _) as [[rc p'] calls].
  - intros ->. simpl bytes_eqb. cbv iota. unfold sendStopMessage.
    destruct (Z.ltb_spec serviceSocket 0) as [|_]; [lia|].
    destruct (stopStream (stop_ret env) pipeline) as [rc1 ev1]. simpl.
    by destruct (stop_send_rc env <? 0), (negb (rc1 =? 0)).
  - by intros ->.
  - intros w -> Hp Hs Hd.
    destruct (bytes_eqb w STR_USR_CMD_STRM_PLAY) eqn:E1;
      [by apply bytes_eqb_eq in E1|].
    destruct (bytes_eqb w STR_USR_CMD_STRM_STOP) eqn:E2;
      [by apply bytes_eqb_eq in E2|].
    destruct (bytes_eqb w STR_USR_CMD_DRN_DCON) eqn:E3;
      [by apply bytes_eqb_eq in E3|].
    done.
Qed.

Lemma inputCommandHandler_dispatch_witness :
  let env := mkCommandEnv (mkRequestEnv 8 4 (mkRx [] false) 0 GST_STATE_CHANGE_SUCCESS 8)
               GST_STATE_CHANGE_SUCCESS 8 in
  let line := ["s"; "t"; "o"; "p"; " "; "n"; "o"; "w"; "!"]%byte in
  let command := strtok_first (removelast (take 63 line)) in
  let result := inputCommandHandler LittleEndian env 4 line 0 true in
  (line = [] → result = Fault) ∧
  (line ≠ [] → command = None → result = Returned (0, 0, true, [])) ∧
  (command = Some STR_USR_CMD_STRM_PLAY →
     result
     = let '(rc, pipeline', calls) :=
         requestStream LittleEndian (request_env env) 4 true in
       Returned (if negb (rc =? 0) then -1 else 0, 0, pipeline', map Request calls)) ∧
  (command = Some STR_USR_CMD_STRM_STOP →
     result
     = Returned
         (if negb ((stopStream (stop_ret env) true).1 =? 0)
             || (stop_send_rc env <? 0) then -1 else 0,
          0, true,
          (stopStream (stop_ret env) true).2
          ++ [SendStop 4
                (u32_pair_repr LittleEndian MOD_NAME_STREAM MOD_MSG_CODE_STREAM_STOP)])) ∧
  (command = Some STR_USR_CMD_DRN_DCON → result = Returned (0, 1, true, [])) ∧
  (∀ w, command = Some w →
     w ≠ STR_USR_CMD_STRM_PLAY → w ≠ STR_USR_CMD_STRM_STOP →
     w ≠ STR_USR_CMD_DRN_DCON →
     result = Returned (-1, 0, true, [])).
Proof.
  apply (inputCommandHandler_dispatch LittleEndian
           (mkCommandEnv
              (mkRequestEnv 8 4 (mkRx [] false) 0 GST_STATE_CHANGE_SUCCESS 8)
              GST_STATE_CHANGE_SUCCESS 8)
           4 ["s"; "t"; "o"; "p"; " "; "n"; "o"; "w"; "!"]%byte 0 true).
  - lia.
  - intros H. repeat (apply elem_of_cons in H as [H|H]; [discriminate|]).
    by apply elem_of_nil in H.
Defined.

(** The ground control reads a header that arrives in full. *)
Lemma gc_header e ret serverSocketFd server_rx service_rx pipeline header rest :
  0 ≤ serverSocketFd → pending service_rx = header ++ rest →
  length header = 8%nat →
  inputMessageHandler e ret serverSocketFd server_rx service_rx pipeline
  = if field1 e header =? MOD_MSG_CODE_STREAM_ERROR
    then ((stopStream ret pipeline).1, server_rx, mkRx rest (eof service_rx),
          (stopStream ret pipeline).2)
    else (0, cleanupInputMessages server_rx, mkRx rest (eof service_rx), []).
Proof.
  intros Hfd Hpend Hlen.
  unfold inputMessageHandler.
  destruct (Z.ltb_spec serverSocketFd 0) as [|_]; [lia|].
  rewrite (recvTimeout_full _ header rest 8 Hpend) by (rewrite ?Hlen; done).
  rewrite store_received_all by (by rewrite length_u32_pair_repr).
  change (8 <? 0) with false. cbv iota.
  destruct (field1 e header =? MOD_MSG_CODE_STREAM_ERROR); [|done].
  unfold stopStream. by destruct pipeline, ret.
Qed.

(** X18. The ground control reads one header of eight bytes from the
    service socket and looks at its code only, not at the module it names.
    On STREAM_ERROR it stops its stream and returns what [stopStream] returns.
    On any other code it returns 0 and does nothing to the stream; the bytes
    that follow the header stay on the service socket, to be read as the next
    header, because the clean-up empties the listening socket instead. *)
Theorem gc_inputMessageHandler_effect (e : endianness) (ret : GstStateChangeReturn)
    (serverSocketFd : Z) (server_rx service_rx : Rx) (pipeline : bool)
    (header rest : list byte)
    (Hfd : 0 ≤ serverSocketFd)
    (Hpend : pending service_rx = header ++ rest)
    (Hlen : length header = 8%nat) :
  inputMessageHandler e ret serverSocketFd server_rx service_rx pipeline
  = if field1 e header =? MOD_MSG_CODE_STREAM_ERROR
    then ((stopStream ret pipeline).1, server_rx, mkRx rest (eof service_rx),
          (stopStream ret pipeline).2)
    else (0, cleanupInputMessages server_rx, mkRx rest (eof service_rx), []).
Proof. by apply gc_header. Qed.

Lemma gc_inputMessageHandler_effect_witness :
  let header := u32_pair_repr BigEndian MOD_NAME_GCCOMMON MOD_MSG_CODE_STREAM_TYPE in
  let rest := u32_repr BigEndian 1 in
  inputMessageHandler BigEndian GST_STATE_CHANGE_SUCCESS 3 (mkRx [] false)
    (mkRx (header ++ rest) false) true
  = if field1 BigEndian header =? MOD_MSG_CODE_STREAM_ERROR
    then ((stopStream GST_STATE_CHANGE_SUCCESS true).1, mkRx [] false,
          mkRx rest false, (stopStream GST_STATE_CHANGE_SUCCESS true).2)
    else (0, cleanupInputMessages (mkRx [] false), mkRx rest false, []).
Proof.
  apply (gc_inputMessageHandler_effect BigEndian GST_STATE_CHANGE_SUCCESS 3
           (mkRx [] false)
           (mkRx (u32_pair_repr BigEndian MOD_NAME_GCCOMMON MOD_MSG_CODE_STREAM_TYPE
                  ++ u32_repr BigEndian 1) false)
           true
           (u32_pair_repr BigEndian MOD_NAME_GCCOMMON MOD_MSG_CODE_STREAM_TYPE)
           (u32_repr BigEndian 1)).
  - lia.
  - reflexivity.
  - reflexivity.
Defined.

Lemma header_start_neq e :
  u32_pair_repr e MOD_NAME_STREAM MOD_MSG_CODE_STREAM_START ≠ requestStream_header e ∧
  u32_pair_repr e MOD_NAME_STREAM MOD_MSG_CODE_STREAM_START
  ≠ requestStream_port e NUM_STREAM_PORT_DRONE.
Proof. by destruct e. Qed.

(** Membership questions about a trace that is written out. *)
Ltac trace_solve :=
  repeat match goal with
         | |- _ ∧ _ => split
         | |- _ ↔ _ => split
         | |- ∀ _, _ => intros ?
         | |- _ ∉ _ => intros ?
         | |- _ ≠ _ => intros ?
         | H : _ ∧ _ |- _ => destruct H
         | H : _ ∨ _ |- _ => destruct H
         | H : _ ∈ [] |- _ => by apply elem_of_nil in H
         | H : _ ∈ _ :: _ |- _ => apply elem_of_cons in H as [H|H]
         end;
  try done; try congruence; try lia;
  try (rewrite ?elem_of_cons; by intuition).

(** X19. The order of things in [requestStream]. The start message is sent
    only after the pipeline was asked to play and did not refuse, and it is the
    last thing done; 0 is returned only after it was handed to [send]. A
    pipeline that exists is used as it is: [pipeBuilder] is called only
    without one, whatever coding format the drone announces. *)
Theorem requestStream_order (e : endianness) (env : RequestEnv) (socketFd : Z)
    (pipeline : bool) :
  ∃ rc pipeline' calls,
    requestStream e env socketFd pipeline = (rc, pipeline', calls) ∧
    let start := GcSend (u32_pair_repr e MOD_NAME_STREAM MOD_MSG_CODE_STREAM_START) in
    (rc = 0 ∨ rc = -1) ∧
    (rc = 0 → pipeline' = true ∧ last calls = Some start) ∧
    (start ∈ calls →
       last calls = Some start ∧ SetStatePlaying ∈ calls ∧
       set_state_ret env ≠ GST_STATE_CHANGE_FAILURE) ∧
    (pipeline = true → pipeline' = true ∧ ∀ c, PipeBuilder c ∉ calls).
Proof.
  pose proof (header_start_neq e) as [Hne1 Hne2].
  unfold requestStream.
  destruct (socketFd <? 0);
    [eexists _, _, _; split; [reflexivity|]; simpl; split; [auto|trace_solve]|].
  destruct (size_of_int (send_header_rc env) <? 8);
    [eexists _, _, _; split; [reflexivity|]; simpl; split; [auto|trace_solve]|].
  destruct (size_of_int (send_port_rc env) <? 4);
    [eexists _, _, _; split; [reflexivity|]; simpl; split; [auto|trace_solve]|].
  destruct (recvTimeout (request_rx env) 8) as [[len1 received1] rx1].
  destruct (size_of_int len1 <? 8);
    [eexists _, _, _; split; [reflexivity|]; simpl; split; [auto|trace_solve]|].
  destruct (negb (MOD_MSG_CODE_STREAM_TYPE =? _));
    [eexists _, _, _; split; [reflexivity|]; simpl; split; [auto|trace_solve]|].
  destruct (recvTimeout rx1 4) as [[len2 received2] rx2].
  destruct (size_of_int len2 <? 4);
    [eexists _, _, _; split; [reflexivity|]; simpl; split; [auto|trace_solve]|].
  destruct pipeline; simpl negb; simpl andb; cbv iota;
    [|destruct (negb (pipeBuilder_rc env =? 0));
      [eexists _, _, _; split; [reflexivity|]; simpl; split; [auto|trace_solve]|]];
    (destruct (set_state_ret env) eqn:Hret;
     [|destruct (size_of_int (send_start_rc env) <? 8)..];
     eexists _, _, _; (split; [reflexivity|]); simpl; (split; [auto|trace_solve])).
Qed.

(** [requestStream] up to the header of the answer, when the request goes
    out and a header with the code STREAM_TYPE comes back in full. *)
Lemma requestStream_answered e env socketFd pipeline m rest :
  0 ≤ socketFd → send_header_rc env = 8 → send_port_rc env = 4 →
  pending (request_rx env) = u32_pair_repr e m MOD_MSG_CODE_STREAM_TYPE ++ rest →
  requestStream e env socketFd pipeline
  = let '(length, received, _) := recvTimeout (mkRx rest (eof (request_rx env))) 4 in
    let codingFormat := u32_value e (store_received (u32_repr e 0) received) in
    let tr4 := [GcSend (requestStream_header e);
                GcSend (requestStream_port e NUM_STREAM_PORT_DRONE);
                GcRecv 8; GcRecv 4] in
    if size_of_int length <? 4 then (-1, pipeline, tr4)
    else
      let build := if pipeline then [] else [PipeBuilder codingFormat] in
      if negb pipeline && negb (pipeBuilder_rc env =? 0) then (-1, false, tr4 ++ build)
      else
        let tr5 := tr4 ++ build ++ [SetStatePlaying] in
        match set_state_ret env with
        | GST_STATE_CHANGE_FAILURE => (-1, true, tr5)
        | ret =>
            let tr6 := match ret with
                       | GST_STATE_CHANGE_ASYNC => tr5 ++ [GetState]
                       | _ => tr5
                       end in
            let tr7 :=
              tr6 ++ [GcSend (u32_pair_repr e MOD_NAME_STREAM MOD_MSG_CODE_STREAM_START)] in
            if size_of_int (send_start_rc env) <? 8 then (-1, true, tr7)
            else (0, true, tr7)
        end.
Proof.
  intros Hfd Hh Hp Hpend. unfold requestStream.
  destruct (Z.ltb_spec socketFd 0) as [|_]; [lia|].
  rewrite Hh, Hp.
  change (size_of_int 8 <? 8) with false. change (size_of_int 4 <? 4) with false.
  cbv iota.
  rewrite (recvTimeout_full _ _ rest 8 Hpend) by (by rewrite ?length_u32_pair_repr).
  rewrite store_received_all
    by (unfold requestStream_header; by rewrite !length_u32_pair_repr).
  change (size_of_int 8 <? 8) with false. cbv iota.
  rewrite field1_pair.
  change (negb (MOD_MSG_CODE_STREAM_TYPE =? u32 MOD_MSG_CODE_STREAM_TYPE)) with false.
  cbv iota.
  destruct (recvTimeout (mkRx rest (eof (request_rx env))) 4) as [[len2 rec2] rx2].
  destruct (size_of_int len2 <? 4); [done|].
  destruct pipeline; simpl; [|destruct (negb (pipeBuilder_rc env =? 0)); [done|]];
    by destruct (set_state_ret env).
Qed.

(** X20. A coding format that does not arrive in full after its header. When
    some but not all of its four bytes arrive, or the drone has closed the
    connection, [requestStream] returns -1 and builds nothing. When nothing
    arrives before the timeout, [recv] returns -1, the unsigned length test
    lets it pass, and the pipeline is built for the format 0 (H265) and
    started as if the drone had announced it. *)
Theorem requestStream_format_missing (e : endianness) (env : RequestEnv)
    (socketFd m : Z) (partial : list byte)
    (Hfd : 0 ≤ socketFd)
    (Hh : send_header_rc env = 8) (Hp : send_port_rc env = 4)
    (Hs : send_start_rc env = 8)
    (Hb : pipeBuilder_rc env = 0)
    (Hret : set_state_ret env = GST_STATE_CHANGE_SUCCESS)
    (Hpend : pending (request_rx env)
             = u32_pair_repr e m MOD_MSG_CODE_STREAM_TYPE ++ partial)
    (Hpartial : (length partial < 4)%nat) :
  let asked := [GcSend (requestStream_header e);
                GcSend (requestStream_port e NUM_STREAM_PORT_DRONE);
                GcRecv 8; GcRecv 4] in
  requestStream e env socketFd false
  = if decide (partial = [] ∧ eof (request_rx env) = false)
    then (0, true,
          asked ++ [PipeBuilder 0; SetStatePlaying;
                    GcSend (u32_pair_repr e MOD_NAME_STREAM MOD_MSG_CODE_STREAM_START)])
    else (-1, false, asked).
Proof.
  intros asked.
  rewrite (requestStream_answered e env socketFd false m partial Hfd Hh Hp Hpend).
  unfold recvTimeout. cbn [pending eof].
  change (Z.to_nat 4) with 4%nat. rewrite take_ge by lia.
  destruct partial as [|b partial'].
  - destruct (eof (request_rx env)).
    + rewrite decide_False by (by intros [_ ?]). done.
    + rewrite decide_True by done.
      change (size_of_int (-1) <? 4) with false. cbv iota.
      rewrite store_received_nil, u32_value_repr, Hb, Hret, Hs.
      done.
  - rewrite decide_False by (by intros [? _]).
    rewrite size_of_int_small by (simpl length in *; lia).
    destruct (Z.ltb_spec (Z.of_nat (length (b :: partial'))) 4); [done|].
    simpl length in *. lia.
Qed.

Lemma requestStream_format_missing_witness :
  let env := mkRequestEnv 8 4
               (mkRx (u32_pair_repr LittleEndian MOD_NAME_GCCOMMON
                        MOD_MSG_CODE_STREAM_TYPE ++ []) false)
               0 GST_STATE_CHANGE_SUCCESS 8 in
  let asked := [GcSend (requestStream_header LittleEndian);
                GcSend (requestStream_port LittleEndian NUM_STREAM_PORT_DRONE);
                GcRecv 8; GcRecv 4] in
  requestStream LittleEndian env 4 false
  = if decide (([] : list byte) = [] ∧ eof (request_rx env) = false)
    then (0, true,
          asked ++ [PipeBuilder 0; SetStatePlaying;
                    GcSend (u32_pair_repr LittleEndian MOD_NAME_STREAM
                              MOD_MSG_CODE_STREAM_START)])
    else (-1, false, asked).
Proof.
  apply (requestStream_format_missing LittleEndian
           (mkRequestEnv 8 4
              (mkRx (u32_pair_repr LittleEndian MOD_NAME_GCCOMMON
                       MOD_MSG_CODE_STREAM_TYPE ++ []) false)
              0 GST_STATE_CHANGE_SUCCESS 8)
           4 MOD_NAME_GCCOMMON []).
  - lia.
  - reflexivity.
  - reflexivity.
  - reflexivity.
  - reflexivity.
  - reflexivity.
  - reflexivity.
  - simpl. lia.
Defined.

End GroundControlHandlers.

(** ** Start-up *)

Section StartupProperties.

Import Machine MachineFacts Spec QueueFacts Startup.

Lemma init_queue_cases env q0 size :
  size = NUM_NETWORK_MSGQ_SIZE ∨ size = NUM_STREAM_MSGQ_SIZE →
  ∃ rc q tr,
    initModuleMessageQueue env q0 size = (rc, q, tr) ∧
    (rc = 0 ∧ allocation_succeeds env ∧ q = fresh_queue size ∨
     rc = -1 ∧ ¬ allocation_succeeds env ∧
     (calloc_ok env = true → q = fresh_queue size) ∧
     (calloc_ok env = false → q = with_messages q0 None)).
Proof.
  intros Hsize. unfold initModuleMessageQueue, allocation_succeeds.
  assert (Hv : size_valid size = true) by (by destruct Hsize as [-> | ->]).
  rewrite Hv.
  destruct (calloc_ok env);
    [|eexists _, _, _; split; [reflexivity|]; right; split_and!; try done;
      by intros [? _]].
  destruct (Z.eqb_spec (mutexattr_init_rc env) 0);
    [|eexists _, _, _; split; [reflexivity|]; right; split_and!; try done; tauto].
  destruct (Z.eqb_spec (mutexattr_settype_rc env) 0);
    [|eexists _, _, _; split; [reflexivity|]; right; split_and!; try done; tauto].
  destruct (Z.eqb_spec (mutex_init_rc env) 0);
    [|eexists _, _, _; split; [reflexivity|]; right; split_and!; try done; tauto].
  destruct (Z.eqb_spec (condattr_init_rc env) 0);
    [|eexists _, _, _; split; [reflexivity|]; right; split_and!; try done; tauto].
  destruct (Z.eqb_spec (cond_init_rc env) 0);
    [|eexists _, _, _; split; [reflexivity|]; right; split_and!; try done; tauto].
  eexists _, _, _. split; [reflexivity|]. left. by split_and!.
Qed.

Lemma deinit_fresh d1 d2 size heap :
  size = NUM_NETWORK_MSGQ_SIZE ∨ size = NUM_STREAM_MSGQ_SIZE →
  ∃ rc, deinitModuleMessageQueue d1 d2 (fresh_queue size) heap
        = Some (Returned (rc, mkQueue 0 0 0 None, heap)).
Proof. intros [-> | ->]; by eexists. Qed.

(** X25. Start-up of the two modules of the drone. Each returns 0 exactly
    when its queue is set up and its thread is started (and, for the stream
    module, the media library initialises). When the thread cannot be
    started, the queue is taken down again: its buffer is released and its
    size is 0. When the set-up of the mutex or of the condition variable
    fails after the buffer was allocated, -1 is returned with the buffer
    still allocated. *)
Theorem init_modules_outcome (gst_ok : bool) (env : InitEnv)
    (pthread_create_rc mutex_destroy_rc cond_destroy_rc : Z)
    (q0 : ModuleMessageQueue_T) (heap : gmap ptr ModuleMessage_T) :
  let outcome_of size ok result :=
    ∃ rc q started,
      result = Some (Returned (rc, q, heap, started)) ∧
      (rc = 0 ∧ started = true ∧ q = fresh_queue size ∧
       ok = true ∧ allocation_succeeds env ∧ pthread_create_rc = 0 ∨
       rc = -1 ∧ started = false ∧
       ¬ (ok = true ∧ allocation_succeeds env ∧ pthread_create_rc = 0) ∧
       (ok = true → allocation_succeeds env → q = mkQueue 0 0 0 None) ∧
       (ok = true → ¬ allocation_succeeds env → calloc_ok env = true →
        q = fresh_queue size)) in
  outcome_of NUM_NETWORK_MSGQ_SIZE true
    (initNetworkModule env pthread_create_rc mutex_destroy_rc cond_destroy_rc q0 heap) ∧
  outcome_of NUM_STREAM_MSGQ_SIZE gst_ok
    (initStreamModule gst_ok env pthread_create_rc mutex_destroy_rc cond_destroy_rc
       q0 heap).
Proof.
  intros outcome_of.
  assert (Hgen : ∀ size,
    size = NUM_NETWORK_MSGQ_SIZE ∨ size = NUM_STREAM_MSGQ_SIZE →
    outcome_of size true
      (let '(rc, q, _) := initModuleMessageQueue env q0 size in
       if negb (rc =? 0) then Some (Returned (-1, q, heap, false))
       else if negb (pthread_create_rc =? 0) then
         match deinitModuleMessageQueue mutex_destroy_rc cond_destroy_rc q heap with
         | Some (Returned (_, q', heap')) => Some (Returned (-1, q', heap', false))
         | Some Suspended => Some Suspended
         | Some Fault => Some Fault
         | None => None
         end
       else Some (Returned (0, q, heap, true)))).
  { intros size Hsize. unfold outcome_of.
    destruct (init_queue_cases env q0 size Hsize)
      as (rc & q & tr & -> & [(-> & Hok & ->)|(-> & Hfail & Hq1 & Hq2)]).
    - simpl negb. cbv iota.
      destruct (Z.eqb_spec pthread_create_rc 0) as [Hc|Hc]; simpl negb; cbv iota.
      + eexists _, _, _. split; [reflexivity|]. left. by split_and!.
      + destruct (deinit_fresh mutex_destroy_rc cond_destroy_rc size heap Hsize)
          as [rc' ->].
        eexists _, _, _. split; [reflexivity|]. right. split_and!; try done; tauto.
    - simpl negb. cbv iota.
      eexists _, _, _. split; [reflexivity|]. right.
      split_and!; try done; tauto. }
  split.
  - apply Hgen. by left.
  - unfold initStreamModule. destruct gst_ok; simpl negb; cbv iota.
    + apply Hgen. by right.
    + unfold outcome_of. eexists _, _, _. split; [reflexivity|]. right.
      split_and!; try done. by intros [? _].
Qed.

(** X26. [startServer] of the ground control returns 0 exactly when the
    socket is created, configured, bound to port 5010 and listening. After
    any failure that follows the creation of the socket, the socket is closed
    before -1 is returned, but [serverSocketFd] keeps the number of the closed
    descriptor: it is never set back to an invalid one. *)
Theorem startServer_resources (env : ServerEnv) :
  ∃ rc tr,
    startServer env = (rc, server_socket_rc env, tr) ∧
    (rc = 0 ∨ rc = -1) ∧
    (rc = 0 ↔ 0 ≤ server_socket_rc env ∧ 0 ≤ server_setsockopt_rc env ∧
              0 ≤ server_bind_rc env ∧ 0 ≤ server_listen_rc env) ∧
    (rc = 0 → tr = [ServerSocket; ServerReuseAddr (server_socket_rc env);
                    ServerBind (server_socket_rc env) NUM_SERVER_PORT;
                    ServerListen (server_socket_rc env) NUM_SERVER_PEND_QUEUE_LIMIT]) ∧
    (rc = -1 → (last tr = Some (ServerClose (server_socket_rc env)) ↔
                0 ≤ server_socket_rc env)).
Proof.
  unfold startServer.
  destruct (Z.ltb_spec (server_socket_rc env) 0);
    [eexists _, _; split; [reflexivity|]; simpl; split_and!; try done;
     try lia; auto; intros _; split; [done|lia]|].
  destruct (Z.ltb_spec (server_setsockopt_rc env) 0);
    [eexists _, _; split; [reflexivity|]; simpl; split_and!; try done;
     try lia; auto|].
  destruct (Z.ltb_spec (server_bind_rc env) 0);
    [eexists _, _; split; [reflexivity|]; simpl; split_and!; try done;
     try lia; auto|].
  destruct (Z.ltb_spec (server_listen_rc env) 0);
    eexists _, _; (split; [reflexivity|]); simpl; split_and!; try done;
    try lia; auto.
Qed.

End StartupProperties.

(** ** Names of the video coding formats *)

Section CameraNames.

Import Machine Camera.

Lemma format_name_cases format :
  format_name format ∈
    [STR_CAM_OUT_FMT_H265; STR_CAM_OUT_FMT_H264; STR_CAM_OUT_FMT_VP8;
     STR_CAM_OUT_FMT_VP9; STR_CAM_OUT_FMT_JPEG; STR_CAM_OUT_FMT_H263;
     STR_CAM_OUT_FMT_RAW; STR_CAM_OUT_FMT_UNK].
Proof.
  unfold format_name.
  repeat match goal with
         | |- context [if ?b then _ else _] => destruct b
         end; rewrite !elem_of_cons; tauto.
Qed.

Lemma format_name_no_NUL format : GcSession.NUL ∉ format_name format.
Proof.
  pose proof (format_name_cases format) as H.
  repeat (apply elem_of_cons in H as [->|H];
          [intros H; repeat (apply elem_of_cons in H as [H|H]; [discriminate|]);
           by apply elem_of_nil in H|]).
  by apply elem_of_nil in H.
Qed.

Lemma format_name_length format : (length (format_name format) ≤ 12)%nat.
Proof.
  pose proof (format_name_cases format) as H.
  repeat (apply elem_of_cons in H as [->|H]; [simpl; lia|]).
  by apply elem_of_nil in H.
Qed.

(** X24. [videoCodingFormatToString] leaves in the array a string that is
    always terminated: the name of the format cut to [size - 1] bytes; the
    bytes of the array from [size] on are untouched. When the array takes the
    whole name ([size] of 13 or more), [stringToVideoCodingFormat] reads it
    back as the same format for each of the seven supported formats, and as
    unknown, with -1, for any other value. *)
Theorem format_name_round_trip (format size : Z) (string : list byte)
    (Hsize : 0 < size ≤ Z.of_nat (length string)) :
  ∃ out,
    videoCodingFormatToString format string size = Returned (0, out) ∧
    length out = length string ∧
    drop (Z.to_nat size) out = drop (Z.to_nat size) string ∧
    GcSession.c_string out = take (Z.to_nat size - 1) (format_name format) ∧
    (12 < size →
     stringToVideoCodingFormat (GcSession.c_string out)
     = if decide (0 ≤ format < NUM_SUP_VID_COD_FMT) then (0, format)
       else (-1, CAM_FMT_UNK)).
Proof.
  unfold videoCodingFormatToString.
  destruct (Z.eqb_spec size 0) as [|_]; [lia|]. simpl negb. cbv iota.
  destruct (Z.ltb_spec (Z.of_nat (length string)) size) as [|_]; [lia|].
  eexists. split; [reflexivity|]. unfold fill.
  set (n := Z.to_nat size).
  set (copied := take (n - 1) (format_name format)).
  assert (Hn : (0 < n ≤ length string)%nat) by lia.
  assert (Hc : (length copied ≤ n - 1)%nat) by (unfold copied; rewrite length_take; lia).
  assert (Hstring : GcSession.c_string
                      (copied ++ replicate (n - length copied) x00 ++ drop n string)
                    = copied).
  { replace (n - length copied)%nat with (S (n - length copied - 1)) by lia.
    simpl replicate. apply c_string_app.
    intros [i [Hi _]]%elem_of_take.
    apply (format_name_no_NUL format). by eapply list_elem_of_lookup_2. }
  split_and!.
  - rewrite !length_app, length_replicate, length_drop. lia.
  - rewrite (assoc_L (++)). rewrite drop_app_length'; [done|].
    rewrite length_app, length_replicate. lia.
  - done.
  - intros Hbig. rewrite Hstring. unfold copied.
    pose proof (format_name_length format).
    rewrite take_ge by lia.
    unfold format_name, NUM_SUP_VID_COD_FMT.
    destruct (decide (0 ≤ format < 7)) as [Hf|Hf].
    + assert (format = 0 ∨ format = 1 ∨ format = 2 ∨ format = 3 ∨ format = 4 ∨
              format = 5 ∨ format = 6) as Hcases by lia.
      by destruct Hcases as [->|[->|[->|[->|[->|[->| ->]]]]]].
    + repeat match goal with
             | |- context [format =? ?c] =>
                 destruct (Z.eqb_spec format c) as [Heq|_];
                 [exfalso; apply Hf; rewrite Heq; by vm_compute|]
             end.
      reflexivity.
Qed.

Lemma format_name_round_trip_witness :
  ∃ out,
    videoCodingFormatToString CAM_FMT_VP9 (replicate 32 "x"%byte) 16
    = Returned (0, out) ∧
    length out = length (replicate 32 "x"%byte) ∧
    drop (Z.to_nat 16) out = drop (Z.to_nat 16) (replicate 32 "x"%byte) ∧
    GcSession.c_string out = take (Z.to_nat 16 - 1) (format_name CAM_FMT_VP9) ∧
    (12 < 16 →
     stringToVideoCodingFormat (GcSession.c_string out)
     = if decide (0 ≤ CAM_FMT_VP9 < NUM_SUP_VID_COD_FMT) then (0, CAM_FMT_VP9)
       else (-1, CAM_FMT_UNK)).
Proof.
  apply (format_name_round_trip CAM_FMT_VP9 16 (replicate 32 "x"%byte)).
  simpl. lia.
Defined.

End CameraNames.

(** ** The two programs together *)

Section Scenarios.

Import Machine MachineFacts Wire WireFacts Spec QueueFacts DroneSystem.

#[local] Arguments insertModuleMessage : simpl never.
#[local] Arguments removeModuleMessage : simpl never.

Lemma repr_room q l : repr q l → 0 < size q.
Proof. intros [[Hp _ _ _ _] _ _ _]. by apply is_pow2_pos. Qed.

(** A turn of the stream controller on the message at the head of
    [streamMsgq]: the handler of the table entry runs on it. *)
Lemma turn_head env state message d p l msg ev :
  stream_lock_busy env = false → repr (streamMsgq d) (p :: l) →
  heap d !! p = Some msg → event_of_code (code msg) = Some ev →
  ∃ qs, repr qs l ∧
    threadFuncStreamControl_turn (initStreamController zero_controller) env
      state message d
    = match handler_of (spec_table state ev).2 env (Some p) (with_streamMsgq d qs) with
      | Returned (m', d') => Returned ((spec_table state ev).1, m', d')
      | Suspended => Suspended
      | Fault => Fault
      end.
Proof.
  intros Hlock Hr Hmsg Hev. unfold threadFuncStreamControl_turn. rewrite Hlock.
  destruct (remove_block_cases (streamMsgq d) (p :: l) false Hr)
    as [Hs|(p' & l' & qs & [= <- <-] & -> & Hr')].
  { unfold removeModuleMessage in Hs. simpl in Hs.
    rewrite (repr_back_head _ _ _ Hr) in Hs.
    destruct (repr_take _ _ _ Hr) as (q1 & Hw & _). by rewrite Hw in Hs. }
  exists qs. split; [done|].
  cbn [negb Z.eqb heap with_streamMsgq]. rewrite Hmsg, Hev.
  unfold update. by rewrite controller_entry.
Qed.

Lemma run_calls_step e c cs s s1 (P : System → Prop) :
  run_call e c s = Returned s1 →
  (∃ s', run_calls e cs s1 = Some s' ∧ P s') →
  ∃ s', run_calls e (c :: cs) s = Some s' ∧ P s'.
Proof. intros H. simpl. by rewrite H. Qed.

(** [streamRequestHandler] when the sink is found and the answer can be
    allocated. *)
Lemma request_handler_reply env p d msg ln :
  netsink_found env = true → calloc_succeeds env = true →
  network_lock_busy env = false → heap d !! p = Some msg →
  repr (networkMsgq d) ln → Z.of_nat (length ln) < size (networkMsgq d) →
  ∃ qn, repr qn (ln ++ [fresh (dom (delete p (heap d)))]) ∧
    streamRequestHandler env (Some p) d
    = Returned (None,
        mkDrone
          (<[fresh (dom (delete p (heap d))) :=
               mkMessage MOD_NAME_GCCOMMON MOD_MSG_CODE_STREAM_TYPE
                 (currentCodingFormat d)]> (delete p (heap d)))
          (streamMsgq d) qn (sock_rx d)
          (engine d ++ [SetSinkPort (gint_of_u32 (videoStreamPort msg))])
          (currentCodingFormat d)).
Proof.
  intros Hsink Hcalloc Hlock Hmsg Hr Hroom.
  unfold streamRequestHandler, calloc_message, free.
  rewrite Hsink, Hmsg, Hcalloc, Hlock.
  destruct (insert_block_repr (networkMsgq d) ln (fresh (dom (delete p (heap d))))
              Hr Hroom) as (qn & -> & Hqn & _).
  exists qn. split; [done|]. simpl. by rewrite insert_insert_eq.
Qed.

(** The coding format message goes out in full. *)
Lemma send_format e senv fd p h f :
  socket_lock_busy senv = false → send_header_rc senv = 8 → send_data_rc senv = 4 →
  h !! p = Some (mkMessage MOD_NAME_GCCOMMON MOD_MSG_CODE_STREAM_TYPE f) →
  gccommonMessageToNetwork e senv fd (Some p) h
  = Returned (0, [Send fd (u32_pair_repr e MOD_NAME_GCCOMMON MOD_MSG_CODE_STREAM_TYPE);
                  Send fd (u32_repr e f)]).
Proof.
  intros Hlock Hh Hd Hmsg. unfold gccommonMessageToNetwork.
  by rewrite Hmsg, Hlock, Hh, Hd.
Qed.

(** The drone at rest receives a stream request: it sets the port of its
    network sink and answers with its coding format. *)
Lemma serve_request e env senv fd f s port :
  idle f s → control_state s = STREAM_STATE_STANDBY → 0 ≤ fd →
  calloc_succeeds env = true → netsink_found env = true →
  stream_lock_busy env = false → network_lock_busy env = false →
  socket_lock_busy senv = false →
  send_header_rc senv = 8 → send_data_rc senv = 4 → is_u32 port →
  ∃ s',
    run_calls e
      [CallArrive (mkRx (GroundControl.requestStream_wire e port) false);
       CallInput env fd; CallStreamControl env; CallNetworkOut env senv fd] s
    = Some s' ∧
    idle f s' ∧ control_state s' = STREAM_STATE_STANDBY ∧
    engine (drone s') = engine (drone s) ++ [SetSinkPort (gint_of_u32 port)] ∧
    wire s'
    = wire s ++ [Send fd (u32_pair_repr e MOD_NAME_GCCOMMON MOD_MSG_CODE_STREAM_TYPE);
                 Send fd (u32_repr e f)].
Proof.
  intros [Hheap Hsq Hnq Hf Hcm Hom] Hst Hfd Hcalloc Hsink Hsl Hnl Hkl Hh Hd Hport.
  destruct s as [st cm om d w]. simpl in Hheap, Hsq, Hnq, Hf, Hcm, Hom, Hst.
  subst st cm om. cbn [drone engine wire].
  set (p := fresh (dom (heap d))).
  (* the bytes arrive and the reader thread decodes them *)
  eapply run_calls_step; [reflexivity|].
  destruct (inputMessageHandler_stream_request e env fd
              (with_sock_rx d (mkRx (GroundControl.requestStream_wire e port) false))
              [] port [] Hfd Hcalloc Hsl Hsq) as (q1 & Hin & Hq1);
    [simpl; by apply (repr_room _ [])|done|by rewrite app_nil_r|].
  eapply run_calls_step;
    [cbn [run_call drone with_drone]; rewrite Hin; reflexivity|].
  unfold with_drone.
  cbn [heap with_sock_rx networkMsgq engine currentCodingFormat eof sock_rx app
       control_state control_message output_message wire drone] in *.
  fold p in Hq1 |- *. rewrite Hheap.
  (* the stream controller answers *)
  match goal with
  | |- context [run_calls e _ (mkSystem _ _ _ ?d1 _)] => set (d1' := d1)
  end.
  destruct (turn_head env STREAM_STATE_STANDBY None d1' p []
              (mkMessage MOD_NAME_STREAM MOD_MSG_CODE_STREAM_REQ port)
              STREAM_EVENT_STREAM_REQ Hsl Hq1) as (qs & Hqs & Hturn);
    [by apply lookup_insert_eq|done|].
  cbn [spec_table handler_of fst snd] in Hturn.
  destruct (request_handler_reply env p (with_streamMsgq d1' qs)
              (mkMessage MOD_NAME_STREAM MOD_MSG_CODE_STREAM_REQ port) []
              Hsink Hcalloc Hnl) as (qn & Hqn & Hreply);
    [by apply lookup_insert_eq|done|simpl; by apply (repr_room _ [])|].
  rewrite Hreply in Hturn.
  eapply run_calls_step;
    [cbn [run_call drone control_state control_message]; rewrite Hturn;
     reflexivity|].
  cbn [with_streamMsgq heap d1' streamMsgq networkMsgq sock_rx engine
       currentCodingFormat videoStreamPort data app output_message wire] in *.
  rewrite delete_insert_id in * by apply lookup_empty.
  set (r := fresh (dom (∅ : gmap ptr ModuleMessage_T))) in *.
  (* the writer thread sends the answer *)
  match goal with
  | |- context [run_calls e _ (mkSystem _ _ _ ?d2 _)] => set (d2' := d2)
  end.
  destruct (writer_head e env senv fd None d2' r []
              (mkMessage MOD_NAME_GCCOMMON MOD_MSG_CODE_STREAM_TYPE
                 (currentCodingFormat d)) Hnl Hkl Hqn)
    as (qn' & tr & Hout & Hqn' & _ & Htr); [by apply lookup_insert_eq|].
  destruct Htr as [rc Htr]; [done|].
  rewrite (send_format e senv fd r _ (currentCodingFormat d)) in Htr
    by (done || by apply lookup_insert_eq).
  injection Htr as <- <-.
  eapply run_calls_step;
    [cbn [run_call drone output_message]; rewrite Hout; reflexivity|].
  eexists. split; [reflexivity|].
  cbn [heap d2' streamMsgq networkMsgq sock_rx engine currentCodingFormat].
  rewrite delete_insert_id by apply lookup_empty.
  split_and!; [by split|done|done|by rewrite Hf].
Qed.

(** The drone at rest receives a stream start or a stream stop: the entry
    of the transition table for the state of the controller decides. *)
Lemma serve_start_stop e env fd f s c ev :
  idle f s → 0 ≤ fd → calloc_succeeds env = true → stream_lock_busy env = false →
  c = MOD_MSG_CODE_STREAM_START ∧ ev = STREAM_EVENT_STREAM_START ∨
  c = MOD_MSG_CODE_STREAM_STOP ∧ ev = STREAM_EVENT_STREAM_STOP →
  ∃ s',
    run_calls e
      [CallArrive (mkRx (u32_pair_repr e MOD_NAME_STREAM c) false);
       CallInput env fd; CallStreamControl env] s
    = Some s' ∧
    idle f s' ∧ control_state s' = (spec_table (control_state s) ev).1 ∧
    engine (drone s')
    = engine (drone s) ++ map SetState (action_state_change (spec_table (control_state s) ev).2) ∧
    wire s' = wire s.
Proof.
  intros [Hheap Hsq Hnq Hf Hcm Hom] Hfd Hcalloc Hsl Hc.
  destruct s as [st cm om d w]. simpl in Hheap, Hsq, Hnq, Hf, Hcm, Hom.
  subst cm om. cbn [drone engine wire control_state].
  set (p := fresh (dom (heap d))).
  eapply run_calls_step; [reflexivity|].
  destruct (decode_start_stop e env fd
              (with_sock_rx d (mkRx (u32_pair_repr e MOD_NAME_STREAM c) false))
              c [] [] Hfd Hcalloc Hsl) as (q1 & Hin & Hq1);
    [tauto|done|simpl; by apply (repr_room _ [])|by rewrite app_nil_r|].
  eapply run_calls_step;
    [cbn [run_call drone with_drone]; rewrite Hin; reflexivity|].
  unfold with_drone.
  cbn [heap with_sock_rx networkMsgq engine currentCodingFormat eof sock_rx app
       control_state control_message output_message wire drone] in *.
  fold p in Hq1 |- *. rewrite Hheap.
  match goal with
  | |- context [run_calls e _ (mkSystem _ _ _ ?d1 _)] => set (d1' := d1)
  end.
  destruct (turn_head env st None d1' p [] (mkMessage MOD_NAME_STREAM c 0) ev
              Hsl Hq1) as (qs & Hqs & Hturn);
    [by apply lookup_insert_eq|by destruct Hc as [[-> ->]|[-> ->]]|].
  assert (Hhandler :
    handler_of (spec_table st ev).2 env (Some p) (with_streamMsgq d1' qs)
    = Returned (None,
        mkDrone ∅ qs (networkMsgq d) (mkRx [] false)
          (engine d ++ map SetState (action_state_change (spec_table st ev).2))
          (currentCodingFormat d))).
  { destruct st, Hc as [[-> ->]|[-> ->]]; simpl;
      unfold emptyHandler, streamStartHandler, streamStopHandler, with_engine,
        with_heap; simpl;
      rewrite delete_insert_id by apply lookup_empty;
      by rewrite ?app_nil_r. }
  rewrite Hhandler in Hturn.
  eapply run_calls_step;
    [cbn [run_call drone control_state control_message]; rewrite Hturn;
     reflexivity|].
  eexists. split; [reflexivity|].
  split_and!; [by split|done|done|done].
Qed.

(** The media engine of the drone at rest reports an error: the stream
    controller falls back to standby, asks the media engine for the NULL
    state, and the writer thread sends the error to the ground control. *)
Lemma report_error e env senv fd f s :
  idle f s → calloc_succeeds env = true →
  stream_lock_busy env = false → network_lock_busy env = false →
  socket_lock_busy senv = false → send_header_rc senv = 8 →
  ∃ s',
    run_calls e
      [CallPipelineError env; CallStreamControl env; CallNetworkOut env senv fd] s
    = Some s' ∧
    idle f s' ∧ control_state s' = STREAM_STATE_STANDBY ∧
    engine (drone s') = engine (drone s) ++ [SetState GST_STATE_NULL] ∧
    wire s'
    = wire s ++ [Send fd (u32_pair_repr e MOD_NAME_GCCOMMON MOD_MSG_CODE_STREAM_ERROR)].
Proof.
  intros [Hheap Hsq Hnq Hf Hcm Hom] Hcalloc Hsl Hnl Hkl Hh.
  destruct s as [st cm om d w]. simpl in Hheap, Hsq, Hnq, Hf, Hcm, Hom.
  subst cm om. cbn [drone engine wire control_state].
  set (p := fresh (dom (heap d))).
  destruct (insert_block_repr (streamMsgq d) [] p Hsq) as (q1 & Hins1 & Hq1 & _);
    [by apply (repr_room _ [])|].
  eapply run_calls_step;
    [cbn [run_call drone with_drone]; unfold pipelineErrorCallback, calloc_message;
     rewrite Hcalloc, Hsl; fold p; rewrite Hins1; reflexivity|].
  unfold with_drone, with_streamMsgq, with_heap.
  cbn [control_state control_message output_message wire drone app heap
       streamMsgq networkMsgq sock_rx engine currentCodingFormat] in *.
  rewrite insert_insert_eq, Hheap.
  match goal with
  | |- context [run_calls e _ (mkSystem _ _ _ ?d1 _)] => set (d1' := d1)
  end.
  destruct (turn_head env st None d1' p []
              (mkMessage MOD_NAME_STREAM MOD_MSG_CODE_STREAM_ERROR 0)
              STREAM_EVENT_PIPE_ERROR Hsl Hq1) as (qs & Hqs & Hturn);
    [by apply lookup_insert_eq|done|].
  assert (Ha : (spec_table st STREAM_EVENT_PIPE_ERROR)
               = (STREAM_STATE_STANDBY, StopMediaEngineNotifyPeer))
    by (by destruct st).
  rewrite Ha in Hturn. cbn [fst snd handler_of] in Hturn.
  unfold streamErrorHandler in Hturn.
  cbn [heap with_streamMsgq networkMsgq d1'] in Hturn.
  rewrite lookup_insert_eq, Hnl in Hturn.
  destruct (insert_block_repr (networkMsgq d) [] p Hnq) as (qn & Hins & Hqn & _);
    [by apply (repr_room _ [])|].
  rewrite Hins in Hturn.
  eapply run_calls_step;
    [cbn [run_call drone control_state control_message]; rewrite Hturn;
     reflexivity|].
  unfold with_engine, with_networkMsgq, with_heap.
  cbn [heap streamMsgq networkMsgq sock_rx
       engine currentCodingFormat code data output_message wire app] in *.
  rewrite insert_insert_eq.
  match goal with
  | |- context [run_calls e _ (mkSystem _ _ _ ?d2 _)] => set (d2' := d2)
  end.
  destruct (writer_head e env senv fd None d2' p []
              (mkMessage MOD_NAME_GCCOMMON MOD_MSG_CODE_STREAM_ERROR 0) Hnl Hkl Hqn)
    as (qn' & tr & Hout & Hqn' & _ & Htr); [by apply lookup_insert_eq|].
  destruct Htr as [rc Htr]; [done|].
  unfold gccommonMessageToNetwork in Htr.
  cbn [heap d2'] in Htr. rewrite lookup_insert_eq, Hkl, Hh in Htr.
  injection Htr as <- <-.
  eapply run_calls_step;
    [cbn [run_call drone output_message]; rewrite Hout; reflexivity|].
  eexists. split; [reflexivity|].
  cbn [heap d2' streamMsgq networkMsgq sock_rx engine currentCodingFormat].
  rewrite delete_insert_id by apply lookup_empty.
  split_and!; [by split|done|done|done].
Qed.

Lemma initial_system_idle f : idle f (initial_system f).
Proof.
  split; simpl; try done; apply repr_init;
    try (unfold is_size, SIZE_MOD, SIZE_BITS, NUM_STREAM_MSGQ_SIZE,
           NUM_NETWORK_MSGQ_SIZE; lia).
  - exists 3. split; [lia|reflexivity].
  - exists 4. split; [lia|reflexivity].
Qed.

(** X21. A pipeline error, from the drone to the ground control. On a drone
    at rest the callback of the media engine, a turn of the stream controller
    and a turn of the writer thread end with the controller in standby, the
    media engine asked for the NULL state, nothing left allocated, and one
    header on the wire; the ground control that reads this header stops its
    stream: it sets an existing pipeline back to its initial state. *)
Theorem pipeline_error_end_to_end (e : endianness) (env : StepEnv) (senv : SendEnv)
    (sockFd format : Z) (s : System)
    (ret : GroundControl.GstStateChangeReturn) (serverSocketFd : Z)
    (server_rx : Rx) (pipeline : bool)
    (Hidle : idle format s)
    (Hcalloc : calloc_succeeds env = true)
    (Hsl : stream_lock_busy env = false) (Hnl : network_lock_busy env = false)
    (Hkl : socket_lock_busy senv = false) (Hh : send_header_rc senv = 8)
    (Hserver : 0 ≤ serverSocketFd) :
  ∃ s' bytes,
    run_calls e
      [CallPipelineError env; CallStreamControl env; CallNetworkOut env senv sockFd] s
    = Some s' ∧
    idle format s' ∧ control_state s' = STREAM_STATE_STANDBY ∧
    engine (drone s') = engine (drone s) ++ [SetState GST_STATE_NULL] ∧
    wire s' = wire s ++ [Send sockFd bytes] ∧
    GcSession.inputMessageHandler e ret serverSocketFd server_rx (mkRx bytes false)
      pipeline
    = ((GcSession.stopStream ret pipeline).1, server_rx, mkRx [] false,
       (GcSession.stopStream ret pipeline).2) ∧
    (pipeline = true →
     (GcSession.stopStream ret pipeline).2 = [GcSession.SetStateInitial]).
Proof.
  destruct (report_error e env senv sockFd format s Hidle Hcalloc Hsl Hnl Hkl Hh)
    as (s' & Hrun & Hidle' & Hst & Heng & Hwire).
  exists s', (u32_pair_repr e MOD_NAME_GCCOMMON MOD_MSG_CODE_STREAM_ERROR).
  split_and!; try done.
  - rewrite (gc_header e ret serverSocketFd server_rx _ pipeline
               (u32_pair_repr e MOD_NAME_GCCOMMON MOD_MSG_CODE_STREAM_ERROR) []);
      [|done|by rewrite app_nil_r|apply length_u32_pair_repr].
    by rewrite field1_pair.
  - intros ->. by destruct ret.
Qed.

Lemma pipeline_error_end_to_end_witness :
  ∃ s' bytes,
    run_calls LittleEndian
      [CallPipelineError quiet_env; CallStreamControl quiet_env;
       CallNetworkOut quiet_env (mkSendEnv false 8 4) 3] (initial_system 1)
    = Some s' ∧
    idle 1 s' ∧ control_state s' = STREAM_STATE_STANDBY ∧
    engine (drone s') = engine (drone (initial_system 1)) ++ [SetState GST_STATE_NULL] ∧
    wire s' = wire (initial_system 1) ++ [Send 3 bytes] ∧
    GcSession.inputMessageHandler LittleEndian GroundControl.GST_STATE_CHANGE_SUCCESS
      5 (mkRx [] false) (mkRx bytes false) true
    = ((GcSession.stopStream GroundControl.GST_STATE_CHANGE_SUCCESS true).1,
       mkRx [] false, mkRx [] false,
       (GcSession.stopStream GroundControl.GST_STATE_CHANGE_SUCCESS true).2) ∧
    (true = true →
     (GcSession.stopStream GroundControl.GST_STATE_CHANGE_SUCCESS true).2
     = [GcSession.SetStateInitial]).
Proof.
  apply (pipeline_error_end_to_end LittleEndian quiet_env (mkSendEnv false 8 4) 3 1
           (initial_system 1) GroundControl.GST_STATE_CHANGE_SUCCESS 5
           (mkRx [] false) true).
  - apply initial_system_idle.
  - reflexivity.
  - reflexivity.
  - reflexivity.
  - reflexivity.
  - reflexivity.
  - lia.
Defined.

(** X22. The command "stop", from the ground control to the drone. The
    ground control sets its pipeline, if it has one, back to the initial state
    and sends one header; the drone that receives this header ends in standby
    with nothing left allocated, and asks its media engine for the initial
    state if it was playing, for nothing if it was in standby already. *)
Theorem stop_command_end_to_end (e : endianness) (cenv : GcSession.CommandEnv)
    (env : StepEnv) (serviceSocket sockFd format exitCondition : Z)
    (line : list byte) (pipeline : bool) (s : System)
    (Hnul : GcSession.NUL ∉ line)
    (Hcmd : GcSession.strtok_first (removelast (take 63 line))
            = Some GcSession.STR_USR_CMD_STRM_STOP)
    (Hgc : 0 ≤ serviceSocket)
    (Hidle : idle format s) (Hfd : 0 ≤ sockFd)
    (Hcalloc : calloc_succeeds env = true)
    (Hsl : stream_lock_busy env = false) :
  ∃ rc bytes s',
    GcSession.inputCommandHandler e cenv serviceSocket line exitCondition pipeline
    = Returned (rc, exitCondition, pipeline,
                (GcSession.stopStream (GcSession.stop_ret cenv) pipeline).2
                ++ [GcSession.SendStop serviceSocket bytes]) ∧
    run_calls e [CallArrive (mkRx bytes false); CallInput env sockFd;
                 CallStreamControl env] s
    = Some s' ∧
    idle format s' ∧ control_state s' = STREAM_STATE_STANDBY ∧
    engine (drone s')
    = engine (drone s)
      ++ match control_state s with
         | STREAM_STATE_PLAYING => [SetState PIPE_INITIAL_STATE]
         | STREAM_STATE_STANDBY => []
         end ∧
    wire s' = wire s.
Proof.
  assert (Hne : line ≠ []) by (by intros ->).
  destruct (serve_start_stop e env sockFd format s MOD_MSG_CODE_STREAM_STOP
              STREAM_EVENT_STREAM_STOP Hidle Hfd Hcalloc Hsl)
    as (s' & Hrun & Hidle' & Hst & Heng & Hwire); [by right|].
  exists (if negb ((GcSession.stopStream (GcSession.stop_ret cenv) pipeline).1 =? 0)
             || (GcSession.stop_send_rc cenv <? 0) then -1 else 0),
    (u32_pair_repr e MOD_NAME_STREAM MOD_MSG_CODE_STREAM_STOP), s'.
  split_and!; try done.
  - unfold GcSession.inputCommandHandler.
    destruct (Z.ltb_spec serviceSocket 0) as [|_]; [lia|].
    destruct (command_parsed line Hnul Hne) as (buf & -> & ->). rewrite Hcmd.
    simpl GcSession.bytes_eqb. cbv iota. unfold GcSession.sendStopMessage.
    destruct (Z.ltb_spec serviceSocket 0) as [|_]; [lia|].
    destruct (GcSession.stopStream _ _) as [rc1 ev1]. simpl.
    by destruct (GcSession.stop_send_rc cenv <? 0), (negb (rc1 =? 0)).
  - rewrite Hst. by destruct (control_state s).
  - rewrite Heng. by destruct (control_state s).
Qed.

Lemma playing_system_idle f : idle f (playing_system f).
Proof. destruct (initial_system_idle f). by split. Qed.

Lemma stop_command_end_to_end_witness :
  let cenv :=
    GcSession.mkCommandEnv
      (GroundControl.mkRequestEnv 8 4 (mkRx [] false) 0
         GroundControl.GST_STATE_CHANGE_SUCCESS 8)
      GroundControl.GST_STATE_CHANGE_SUCCESS 8 in
  let line := ["s"; "t"; "o"; "p"; x0a]%byte in
  ∃ rc bytes s',
    GcSession.inputCommandHandler LittleEndian cenv 4 line 0 true
    = Returned (rc, 0, true,
                (GcSession.stopStream (GcSession.stop_ret cenv) true).2
                ++ [GcSession.SendStop 4 bytes]) ∧
    run_calls LittleEndian
      [CallArrive (mkRx bytes false); CallInput quiet_env 3;
       CallStreamControl quiet_env] (playing_system 1)
    = Some s' ∧
    idle 1 s' ∧ control_state s' = STREAM_STATE_STANDBY ∧
    engine (drone s')
    = engine (drone (playing_system 1))
      ++ match control_state (playing_system 1) with
         | STREAM_STATE_PLAYING => [SetState PIPE_INITIAL_STATE]
         | STREAM_STATE_STANDBY => []
         end ∧
    wire s' = wire (playing_system 1).
Proof.
  apply (stop_command_end_to_end LittleEndian
           (GcSession.mkCommandEnv
              (GroundControl.mkRequestEnv 8 4 (mkRx [] false) 0
                 GroundControl.GST_STATE_CHANGE_SUCCESS 8)
              GroundControl.GST_STATE_CHANGE_SUCCESS 8)
           quiet_env 4 3 1 0 ["s"; "t"; "o"; "p"; x0a]%byte true (playing_system 1)).
  - intros H. repeat (apply elem_of_cons in H as [H|H]; [discriminate|]).
    by apply elem_of_nil in H.
  - reflexivity.
  - lia.
  - apply playing_system_idle.
  - lia.
  - reflexivity.
  - reflexivity.
Defined.

(** X23. The command "play", from the ground control to the drone and back.
    The request that [requestStream] sends first makes the drone at rest in
    standby set the port of its network sink to 17000 and answer with its
    coding format. With this answer the command builds the pipeline of the
    ground control for the format of the drone, sets it playing, sends the
    start message and returns 0. On the start message the drone asks its media
    engine to play and its controller is in the state playing, with nothing
    left allocated. *)
Theorem play_command_end_to_end (e : endianness) (cenv : GcSession.CommandEnv)
    (env : StepEnv) (senv : SendEnv)
    (serviceSocket sockFd format exitCondition : Z)
    (line : list byte) (s : System)
    (Hnul : GcSession.NUL ∉ line)
    (Hcmd : GcSession.strtok_first (removelast (take 63 line))
            = Some GcSession.STR_USR_CMD_STRM_PLAY)
    (Hgc : 0 ≤ serviceSocket)
    (Hgh : GroundControl.send_header_rc (GcSession.request_env cenv) = 8)
    (Hgp : GroundControl.send_port_rc (GcSession.request_env cenv) = 4)
    (Hgs : GroundControl.send_start_rc (GcSession.request_env cenv) = 8)
    (Hgb : GroundControl.pipeBuilder_rc (GcSession.request_env cenv) = 0)
    (Hgr : GroundControl.set_state_ret (GcSession.request_env cenv)
           = GroundControl.GST_STATE_CHANGE_SUCCESS)
    (Hidle : idle format s) (Hst : control_state s = STREAM_STATE_STANDBY)
    (Hformat : is_u32 format)
    (Hfd : 0 ≤ sockFd)
    (Hcalloc : calloc_succeeds env = true) (Hsink : netsink_found env = true)
    (Hsl : stream_lock_busy env = false) (Hnl : network_lock_busy env = false)
    (Hkl : socket_lock_busy senv = false)
    (Hh : send_header_rc senv = 8) (Hd : send_data_rc senv = 4) :
  let request :=
    GroundControl.requestStream_header e
    ++ GroundControl.requestStream_port e GroundControl.NUM_STREAM_PORT_DRONE in
  let answer_header := u32_pair_repr e MOD_NAME_GCCOMMON MOD_MSG_CODE_STREAM_TYPE in
  let answer_format := u32_repr e format in
  let start := u32_pair_repr e MOD_NAME_STREAM MOD_MSG_CODE_STREAM_START in
  ∃ s1 s2,
    run_calls e
      [CallArrive (mkRx request false); CallInput env sockFd;
       CallStreamControl env; CallNetworkOut env senv sockFd] s
    = Some s1 ∧
    wire s1 = wire s ++ [Send sockFd answer_header; Send sockFd answer_format] ∧
    (GroundControl.request_rx (GcSession.request_env cenv)
     = mkRx (answer_header ++ answer_format) false →
     GcSession.inputCommandHandler e cenv serviceSocket line exitCondition false
     = Returned (0, exitCondition, true,
         map GcSession.Request
           [GroundControl.GcSend (GroundControl.requestStream_header e);
            GroundControl.GcSend
              (GroundControl.requestStream_port e GroundControl.NUM_STREAM_PORT_DRONE);
            GroundControl.GcRecv 8; GroundControl.GcRecv 4;
            GroundControl.PipeBuilder format; GroundControl.SetStatePlaying;
            GroundControl.GcSend start])) ∧
    run_calls e
      [CallArrive (mkRx start false); CallInput env sockFd; CallStreamControl env] s1
    = Some s2 ∧
    idle format s2 ∧ control_state s2 = STREAM_STATE_PLAYING ∧
    engine (drone s2)
    = engine (drone s)
      ++ [SetSinkPort GroundControl.NUM_STREAM_PORT_DRONE; SetState GST_STATE_PLAYING] ∧
    wire s2 = wire s1.
Proof.
  intros request answer_header answer_format start.
  assert (Hne : line ≠ []) by (by intros ->).
  destruct (serve_request e env senv sockFd format s
              GroundControl.NUM_STREAM_PORT_DRONE Hidle Hst Hfd Hcalloc Hsink Hsl Hnl
              Hkl Hh Hd)
    as (s1 & Hrun1 & Hidle1 & Hst1 & Heng1 & Hwire1); [done|].
  destruct (serve_start_stop e env sockFd format s1 MOD_MSG_CODE_STREAM_START
              STREAM_EVENT_STREAM_START Hidle1 Hfd Hcalloc Hsl)
    as (s2 & Hrun2 & Hidle2 & Hst2 & Heng2 & Hwire2); [by left|].
  exists s1, s2. split_and!; try done.
  - intros Hrx. unfold GcSession.inputCommandHandler.
    destruct (Z.ltb_spec serviceSocket 0) as [|_]; [lia|].
    destruct (command_parsed line Hnul Hne) as (buf & -> & ->). rewrite Hcmd.
    change (GcSession.bytes_eqb GcSession.STR_USR_CMD_STRM_PLAY
              GcSession.STR_USR_CMD_STRM_PLAY) with true. cbv iota.
    rewrite (requestStream_answered e (GcSession.request_env cenv) serviceSocket
               false MOD_NAME_GCCOMMON answer_format Hgc Hgh Hgp)
      by (by rewrite Hrx).
    rewrite Hrx. cbn [eof].
    unfold answer_format.
    rewrite (recvTimeout_full _ (u32_repr e format) [] 4);
      [|by rewrite app_nil_r|by rewrite length_u32_repr|done].
    rewrite store_received_all by (by rewrite !length_u32_repr).
    rewrite u32_value_repr, (u32_small format) by done.
    change (size_of_int 4 <? 4) with false. cbv iota.
    rewrite Hgb, Hgr, Hgs. done.
  - by rewrite Hst2, Hst1.
  - rewrite Heng2, Heng1, Hst1. simpl. by rewrite <- (assoc_L (++)).
Qed.

Lemma play_command_end_to_end_witness :
  let cenv :=
    GcSession.mkCommandEnv
      (GroundControl.mkRequestEnv 8 4
         (mkRx (u32_pair_repr LittleEndian MOD_NAME_GCCOMMON MOD_MSG_CODE_STREAM_TYPE
                ++ u32_repr LittleEndian 1) false)
         0 GroundControl.GST_STATE_CHANGE_SUCCESS 8)
      GroundControl.GST_STATE_CHANGE_SUCCESS 8 in
  let line := ["p"; "l"; "a"; "y"; x0a]%byte in
  let s := initial_system 1 in
  let request :=
    GroundControl.requestStream_header LittleEndian
    ++ GroundControl.requestStream_port LittleEndian GroundControl.NUM_STREAM_PORT_DRONE in
  let answer_header :=
    u32_pair_repr LittleEndian MOD_NAME_GCCOMMON MOD_MSG_CODE_STREAM_TYPE in
  let answer_format := u32_repr LittleEndian 1 in
  let start := u32_pair_repr LittleEndian MOD_NAME_STREAM MOD_MSG_CODE_STREAM_START in
  ∃ s1 s2,
    run_calls LittleEndian
      [CallArrive (mkRx request false); CallInput quiet_env 3;
       CallStreamControl quiet_env; CallNetworkOut quiet_env (mkSendEnv false 8 4) 3] s
    = Some s1 ∧
    wire s1 = wire s ++ [Send 3 answer_header; Send 3 answer_format] ∧
    (GroundControl.request_rx (GcSession.request_env cenv)
     = mkRx (answer_header ++ answer_format) false →
     GcSession.inputCommandHandler LittleEndian cenv 4 line 0 false
     = Returned (0, 0, true,
         map GcSession.Request
           [GroundControl.GcSend (GroundControl.requestStream_header LittleEndian);
            GroundControl.GcSend
              (GroundControl.requestStream_port LittleEndian
                 GroundControl.NUM_STREAM_PORT_DRONE);
            GroundControl.GcRecv 8; GroundControl.GcRecv 4;
            GroundControl.PipeBuilder 1; GroundControl.SetStatePlaying;
            GroundControl.GcSend start])) ∧
    run_calls LittleEndian
      [CallArrive (mkRx start false); CallInput quiet_env 3;
       CallStreamControl quiet_env] s1
    = Some s2 ∧
    idle 1 s2 ∧ control_state s2 = STREAM_STATE_PLAYING ∧
    engine (drone s2)
    = engine (drone s)
      ++ [SetSinkPort GroundControl.NUM_STREAM_PORT_DRONE; SetState GST_STATE_PLAYING] ∧
    wire s2 = wire s1.
Proof.
  apply (play_command_end_to_end LittleEndian
           (GcSession.mkCommandEnv
              (GroundControl.mkRequestEnv 8 4
                 (mkRx (u32_pair_repr LittleEndian MOD_NAME_GCCOMMON
                          MOD_MSG_CODE_STREAM_TYPE ++ u32_repr LittleEndian 1) false)
                 0 GroundControl.GST_STATE_CHANGE_SUCCESS 8)
              GroundControl.GST_STATE_CHANGE_SUCCESS 8)
           quiet_env (mkSendEnv false 8 4) 4 3 1 0 ["p"; "l"; "a"; "y"; x0a]%byte
           (initial_system 1)).
  - intros H. repeat (apply elem_of_cons in H as [H|H]; [discriminate|]).
    by apply elem_of_nil in H.
  - reflexivity.
  - lia.
  - reflexivity.
  - reflexivity.
  - reflexivity.
  - reflexivity.
  - reflexivity.
  - apply initial_system_idle.
  - reflexivity.
  - unfold is_u32, U32_MOD. lia.
  - lia.
  - reflexivity.
  - reflexivity.
  - reflexivity.
  - reflexivity.
  - reflexivity.
  - reflexivity.
  - reflexivity.
Defined.

End Scenarios.
